(** * News & Stock dashboard (app.py): filters and pivot workspace

    A shallow embedding of the three views of [app.py].  The script is a
    sequence of pandas calls on two global frames ([df_news], [df_stocks])
    interleaved with Streamlit calls that read widgets and append elements
    to the page.  The embedding has three layers:

    - the pandas operations the script calls ([copy], [isin], boolean-mask
      indexing, [to_datetime], column assignment, comparison with a
      Timestamp, [select_dtypes], [empty], [pivot_table]), each given as a
      function on a small frame type, following the behaviour pandas
      documents for it;
    - a state-and-exception monad [M] whose state holds the two global
      frames and the page rendered so far;
    - the script's own blocks ([tab1_filters], [tab2_filters], [tab3])
      written in that monad, statement by statement.

    Numbers are exact rationals: rounding and overflow of the machine
    types are outside the model, and a statement about the value of a
    sum is made of columns on which the two agree ([exact_numbers]).
    Row labels of a frame (its pandas index) are not represented; a
    frame is its header and its rows in order. *)

From Stdlib Require Import List String Ascii Bool ZArith QArith Lia.
From Stdlib Require Import Qround Qabs Permutation SetoidList.
From Stdlib Require Import SetoidPermutation.
From Stdlib Require Import Sorted.
Import ListNotations.
Open Scope string_scope.
Open Scope Z_scope.

Set Implicit Arguments.

(* ================================================================== *)
(** * Scalars, exceptions *)

(** A cell of a frame: missing (NaN / None / NaT), a number, a string or
    a Timestamp (nanoseconds since the epoch, as pandas stores it). *)
Inductive value :=
| VNull
| VNum (q : Q)
| VStr (s : string)
| VDate (t : Z).

(** The dtype of a column, as far as the script distinguishes them:
    [select_dtypes(include='number')] keeps [DNumber] only. *)
Inductive dtype := DNumber | DObject | DDatetime.

Definition dtype_eqb (a b : dtype) : bool :=
  match a, b with
  | DNumber, DNumber | DObject, DObject | DDatetime, DDatetime => true
  | _, _ => false
  end.

(** Python exceptions the modelled calls can raise. *)
Inductive exn :=
| KeyError (label : string)
| TypeError (msg : string)
| ValueError (msg : string).

(** [str(e)], as interpolated by the f-string of the [except] branch;
    a KeyError prints the repr of its key. *)
Definition exn_str (e : exn) : string :=
  match e with
  | KeyError k => "'" ++ k ++ "'"
  | TypeError m => m
  | ValueError m => m
  end.

Inductive result (A : Type) :=
| Ok (a : A)
| Raise (e : exn).
Arguments Ok {A} a.
Arguments Raise {A} e.

Definition notnull (v : value) : bool :=
  match v with VNull => false | _ => true end.

(** Equality of two cells as [==] sees it: numbers by value, strings and
    timestamps literally; two missing cells count as the same (this is
    how [isin] treats NaN in its argument). *)
Definition value_eqb (a b : value) : bool :=
  match a, b with
  | VNull, VNull => true
  | VNum p, VNum q => Qeq_bool p q
  | VStr s, VStr t => String.eqb s t
  | VDate s, VDate t => Z.eqb s t
  | _, _ => false
  end.

(** The order used to sort labels: within a kind the natural order,
    across kinds numbers, then timestamps, then strings. *)
Definition kind_rank (v : value) : Z :=
  match v with VNull => 3 | VNum _ => 0 | VDate _ => 1 | VStr _ => 2 end.

Definition value_leb (a b : value) : bool :=
  match a, b with
  | VNum p, VNum q => Qle_bool p q
  | VStr s, VStr t => String.leb s t
  | VDate s, VDate t => Z.leb s t
  | _, _ => Z.leb (kind_rank a) (kind_rank b)
  end.

(* ================================================================== *)
(** * Frames and series *)

(** A DataFrame: the header (column labels with their dtypes, in order)
    and the rows, each a list of cells aligned with the header. *)
Record DataFrame := {
  columns : list (string * dtype);
  rows : list (list value)
}.

(** A Series: one column taken out of a frame. *)
Record Series := {
  s_dtype : dtype;
  s_values : list value
}.

Definition column_names (df : DataFrame) : list string :=
  map fst (columns df).

(** ['c' in df.columns] *)
Definition has_column (c : string) (df : DataFrame) : bool :=
  existsb (String.eqb c) (column_names df).

(** Position and dtype of the first column labelled [c]. *)
Fixpoint find_column (c : string) (hdr : list (string * dtype)) (pos : nat)
  : option (nat * dtype) :=
  match hdr with
  | [] => None
  | (n, d) :: hdr' =>
      if String.eqb c n then Some (pos, d) else find_column c hdr' (S pos)
  end.

Definition column_dtype (df : DataFrame) (c : string) : option dtype :=
  option_map snd (find_column c (columns df) 0).

(** The cell of a row under column [c] (missing when the row is short or
    the column absent). *)
Definition cell (df : DataFrame) (c : string) (r : list value) : value :=
  match find_column c (columns df) 0 with
  | Some (pos, _) => nth pos r VNull
  | None => VNull
  end.

(** [df[c]]: KeyError when the label is absent. *)
Definition getitem (df : DataFrame) (c : string) : result Series :=
  match find_column c (columns df) 0 with
  | Some (_, d) =>
      Ok {| s_dtype := d; s_values := map (cell df c) (rows df) |}
  | None => Raise (KeyError c)
  end.

(** [df.copy()]: a deep copy.  Values here are immutable, so the copy is
    the frame itself; what matters is that later assignments to the
    original are not seen through the copy, which state passing gives. *)
Definition copy (df : DataFrame) : DataFrame := df.

(** [s.isin(values)] *)
Definition isin (s : Series) (vals : list value) : list bool :=
  map (fun v => existsb (value_eqb v) vals) (s_values s).

(** [m1 & m2] on boolean series. *)
Fixpoint mask_and (m1 m2 : list bool) : list bool :=
  match m1, m2 with
  | b1 :: m1', b2 :: m2' => (b1 && b2) :: mask_and m1' m2'
  | _, _ => []
  end.

(** [df[mask]]: the rows whose mask entry is True, header unchanged.  The
    script only ever passes masks computed from the frame itself, so mask
    and rows have the same length. *)
Fixpoint select_rows (mask : list bool) (rs : list (list value))
  : list (list value) :=
  match mask, rs with
  | b :: mask', r :: rs' =>
      if b then r :: select_rows mask' rs' else select_rows mask' rs'
  | _, _ => []
  end.

Definition getitem_mask (df : DataFrame) (mask : list bool) : DataFrame :=
  {| columns := columns df; rows := select_rows mask (rows df) |}.

(** [df.empty]: no rows or no columns. *)
Definition empty (df : DataFrame) : bool :=
  match rows df, columns df with
  | [], _ => true
  | _, [] => true
  | _, _ => false
  end.

(** [df.select_dtypes(include='number').columns.tolist()] *)
Definition numeric_column_names (df : DataFrame) : list string :=
  map fst (filter (fun cd => dtype_eqb (snd cd) DNumber) (columns df)).

(* ------------------------------------------------------------------ *)
(** ** Column assignment *)

Fixpoint set_nth (pos : nat) (v : value) (r : list value) : list value :=
  match pos, r with
  | O, _ :: r' => v :: r'
  | O, [] => [v]
  | S p, x :: r' => x :: set_nth p v r'
  | S p, [] => VNull :: set_nth p v []
  end.

Fixpoint set_header (c : string) (d : dtype) (hdr : list (string * dtype))
  : list (string * dtype) :=
  match hdr with
  | [] => [(c, d)]
  | (n, d0) :: hdr' =>
      if String.eqb c n then (n, d) :: hdr' else (n, d0) :: set_header c d hdr'
  end.

Fixpoint assign_cells (pos : nat) (vs : list value) (rs : list (list value))
  : list (list value) :=
  match rs, vs with
  | r :: rs', v :: vs' => set_nth pos v r :: assign_cells pos vs' rs'
  | r :: rs', [] => set_nth pos VNull r :: assign_cells pos [] rs'
  | [], _ => []
  end.

(** [df[c] = s]: replaces the column (values and dtype) when the label
    exists, appends it otherwise. *)
Definition setitem (df : DataFrame) (c : string) (s : Series) : DataFrame :=
  let pos := match find_column c (columns df) 0 with
             | Some (p, _) => p
             | None => length (columns df)
             end in
  {| columns := set_header c (s_dtype s) (columns df);
     rows := assign_cells pos (s_values s) (rows df) |}.

(* ------------------------------------------------------------------ *)
(** ** Timestamps *)

Definition ns_per_day : Z := 86400 * 1000000000.

(** [pd.to_datetime(d)] for a [datetime.date] [d] (a day number counted
    from 1970-01-01, as the date picker returns): midnight of that day. *)
Definition timestamp_of_date (d : Z) : Z := d * ns_per_day.

(** Day number of a civil date (proleptic Gregorian calendar). *)
Definition date_of_ymd (y m d : Z) : Z :=
  let y' := if m <=? 2 then y - 1 else y in
  let era := y' / 400 in
  let yoe := y' - era * 400 in
  let mp := if m <=? 2 then m + 9 else m - 3 in
  let doy := (153 * mp + 2) / 5 + d - 1 in
  let doe := yoe * 365 + yoe / 4 - yoe / 100 + doy in
  era * 146097 + doe - 719468.

(** What [st.date_input] returns: a single date, or a tuple of dates
    (empty or one-element while a range is being picked). *)
Inductive date_input_value :=
| OneDate (d : Z)
| DateTuple (ds : list Z).

(** One ordering comparison of a cell with a Timestamp, as pandas does
    it element by element on an object or datetime column: a missing
    cell compares False, a Timestamp compares by value, anything else is
    a Python TypeError. *)
Definition compare_cell (op : Z -> Z -> bool) (opname : string) (t : Z)
  (v : value) : result bool :=
  match v with
  | VNull => Ok false
  | VDate x => Ok (op x t)
  | VStr _ =>
      Raise (TypeError ("'" ++ opname ++
        "' not supported between instances of 'str' and 'Timestamp'"))
  | VNum _ =>
      Raise (TypeError ("'" ++ opname ++
        "' not supported between instances of 'float' and 'Timestamp'"))
  end.

Fixpoint compare_cells (op : Z -> Z -> bool) (opname : string) (t : Z)
  (vs : list value) : result (list bool) :=
  match vs with
  | [] => Ok []
  | v :: vs' =>
      match compare_cell op opname t v with
      | Raise e => Raise e
      | Ok b =>
          match compare_cells op opname t vs' with
          | Raise e => Raise e
          | Ok bs => Ok (b :: bs)
          end
      end
  end.

(** [s >= t] / [s <= t] for a Timestamp [t]: a numeric column is refused
    as a whole, the other dtypes compare cell by cell. *)
Definition compare_timestamp (op : Z -> Z -> bool) (opname : string)
  (s : Series) (t : Z) : result (list bool) :=
  match s_dtype s with
  | DNumber =>
      Raise (TypeError "Invalid comparison between dtype=float64 and Timestamp")
  | _ => compare_cells op opname t (s_values s)
  end.

Definition series_ge (s : Series) (t : Z) := compare_timestamp Z.geb ">=" s t.
Definition series_le (s : Series) (t : Z) := compare_timestamp Z.leb "<=" s t.

(* ================================================================== *)
(** * What the script takes from outside

    Three behaviours belong to the libraries and are taken as given:
    the scalar conversion inside [pd.to_datetime] (date parsing of
    strings, epoch offsets of numbers), what [pd.pivot_table] does on a
    request outside the fragment modelled below, and whether plotly
    accepts a chart request. *)

Inductive aggfunc := Sum | Mean | Count | Max | Min.

(** The frame [pd.pivot_table] returns: the name and labels of its
    index, the labels of its columns and the cells, one list per index
    label. *)
Record PivotResult := {
  index_name : string;
  index_labels : list value;
  column_labels : list value;
  cells : list (list value)
}.

Inductive chart_kind := BarChart | LineChart.

(** The [y] argument of a plotly call: a list of column labels
    ([pivot_df_plot.columns[1:]]) or one column name ([values]). *)
Inductive plot_y :=
| YLabels (ls : list value)
| YName (v : option string).

Record Figure := {
  fig_kind : chart_kind;
  fig_data : PivotResult;
  fig_x : option string;
  fig_y : plot_y
}.

Class External := {
  (** conversion of one number or string cell by [pd.to_datetime];
      [None] when it cannot be converted *)
  to_datetime_scalar : value -> option Z;
  (** [pd.pivot_table] on requests outside the modelled fragment: no
      index label, the same present label used twice, an absent group key
      when there are as many keys as rows, a value column that is not numeric
      reduced by anything but [count] (the mean of a text column apart),
      no value label (the plain count per index label apart) *)
  pivot_table_other :
    DataFrame -> option string -> option string -> option string ->
    aggfunc -> result PivotResult;
  (** [px.bar] / [px.line] on the pivoted frame *)
  px_chart :
    chart_kind -> PivotResult -> option string -> plot_y -> result Figure
}.

(* ================================================================== *)
(** * pandas: to_datetime and pivot_table *)

Section Pandas.
Context {E : External}.

(** One cell under [pd.to_datetime(..., errors='coerce')]: whatever
    cannot be converted becomes missing (NaT) instead of raising. *)
Definition coerce_datetime (v : value) : value :=
  match v with
  | VNull => VNull
  | VDate t => VDate t
  | _ => match to_datetime_scalar v with
         | Some t => VDate t
         | None => VNull
         end
  end.

Definition to_datetime (s : Series) : Series :=
  {| s_dtype := DDatetime; s_values := map coerce_datetime (s_values s) |}.

(* ------------------------------------------------------------------ *)
(** ** Reductions of one partition

    As pandas' groupby reductions do on a numeric column: missing cells
    are skipped; [count] is the number of cells that are not missing;
    [sum] of nothing is 0; [mean], [max] and [min] of nothing are
    missing. *)

Definition numbers (vs : list value) : list Q :=
  flat_map (fun v => match v with VNum q => [q] | _ => [] end) vs.

Definition qsum (l : list Q) : Q := fold_right Qplus 0%Q l.
Definition qmax (a b : Q) : Q := if Qle_bool a b then b else a.
Definition qmin (a b : Q) : Q := if Qle_bool a b then a else b.

Definition count_notnull (vs : list value) : nat :=
  length (filter notnull vs).

Definition aggregate (f : aggfunc) (vs : list value) : value :=
  match f with
  | Count => VNum (inject_Z (Z.of_nat (count_notnull vs)))
  | Sum => VNum (Qred (qsum (numbers vs)))
  | Mean =>
      match numbers vs with
      | [] => VNull
      | ns => VNum (Qred (qsum ns / inject_Z (Z.of_nat (length ns))))
      end
  | Max =>
      match numbers vs with
      | [] => VNull
      | n :: ns => VNum (fold_left qmax ns n)
      end
  | Min =>
      match numbers vs with
      | [] => VNull
      | n :: ns => VNum (fold_left qmin ns n)
      end
  end.

(* ------------------------------------------------------------------ *)
(** ** Grouping *)

(** The distinct elements of a list, first occurrences kept. *)
Fixpoint distinct {A : Type} (eqb : A -> A -> bool) (l : list A) : list A :=
  match l with
  | [] => []
  | x :: l' => x :: filter (fun y => negb (eqb x y)) (distinct eqb l')
  end.

Fixpoint insert_sorted {A : Type} (leb : A -> A -> bool) (x : A) (l : list A)
  : list A :=
  match l with
  | [] => [x]
  | y :: l' => if leb x y then x :: l else y :: insert_sorted leb x l'
  end.

Definition sort {A : Type} (leb : A -> A -> bool) (l : list A) : list A :=
  fold_right (insert_sorted leb) [] l.

(** The sorted distinct labels of a list of cells. *)
Definition unique_labels (l : list value) : list value :=
  sort value_leb (distinct value_eqb l).

Definition key : Type := (value * value)%type.

Definition same_key (a b : key) : bool :=
  value_eqb (fst a) (fst b) && value_eqb (snd a) (snd b).

(** The group key of a row in the second position: the cell under the
    [columns] label, or, without one, the value label itself (the single
    column of the result). *)
Definition group_label (df : DataFrame) (grp : option string) (val : string)
  (r : list value) : value :=
  match grp with
  | Some g => cell df g r
  | None => VStr val
  end.

(** Each row as (keys, value cell). *)
Definition keyed_rows (df : DataFrame) (idx : string) (grp : option string)
  (val : string) : list (key * value) :=
  map (fun r => ((cell df idx r, group_label df grp val r), cell df val r))
      (rows df).

(** [groupby(keys, dropna=True)]: rows with a missing key are in no
    group. *)
Definition grouped (recs : list (key * value)) : list (key * value) :=
  filter (fun kv => notnull (fst (fst kv)) && notnull (snd (fst kv))) recs.

(** The value cells of the partition with key [k]. *)
Definition partition (recs : list (key * value)) (k : key) : list value :=
  map snd (filter (fun kv => same_key (fst kv) k) recs).

(** [grouped.agg(aggfunc)] followed by [dropna(how='all')]: one entry
    per group, entries whose reduction is missing dropped. *)
Definition agged (f : aggfunc) (recs : list (key * value))
  : list (key * value) :=
  filter (fun ka => notnull (snd ka))
    (map (fun k => (k, aggregate f (partition recs k)))
         (distinct same_key (map fst recs))).

Definition lookup_cell (tbl : list (key * value)) (k : key) : option value :=
  option_map snd (find (fun ka => same_key (fst ka) k) tbl).

(** [fillna(fill_value)] on one cell. *)
Definition fillna (fill v : value) : value :=
  match v with VNull => fill | _ => v end.

(** [unstack(fill_value=...)], [sort_index] and [fillna]: the dense table
    over the sorted labels of both keys. *)
Definition unstack (idx : string) (fill : value) (tbl : list (key * value))
  : PivotResult :=
  let ilabels := unique_labels (map (fun ka => fst (fst ka)) tbl) in
  let clabels := unique_labels (map (fun ka => snd (fst ka)) tbl) in
  {| index_name := idx;
     index_labels := ilabels;
     column_labels := clabels;
     cells :=
       map (fun i =>
              map (fun c =>
                     fillna fill
                       match lookup_cell tbl (i, c) with
                       | Some v => v
                       | None => fill
                       end)
                  clabels)
           ilabels |}.

Definition pivot_frame (df : DataFrame) (idx : string) (grp : option string)
  (val : string) (f : aggfunc) (fill : value) : PivotResult :=
  unstack idx fill (agged f (grouped (keyed_rows df idx grp val))).

Definition is_numeric (df : DataFrame) (c : string) : bool :=
  match column_dtype df c with
  | Some DNumber => true
  | _ => false
  end.

Definition is_count (f : aggfunc) : bool :=
  match f with Count => true | _ => false end.

Definition labels_distinct (idx : string) (grp : option string) (val : string)
  : bool :=
  negb (String.eqb idx val) &&
  match grp with
  | Some g => negb (String.eqb g idx) && negb (String.eqb g val)
  | None => true
  end.

(** The group keys of the call, [index + columns], in order. *)
Definition group_keys (idx : string) (columns : option string) : list string :=
  idx :: match columns with Some g => [g] | None => [] end.

(** The first group key that is no column of the frame. *)
Definition absent_key (df : DataFrame) (keys : list string) : option string :=
  find (fun k => negb (has_column k df)) keys.

Definition is_mean (f : aggfunc) : bool :=
  match f with Mean => true | _ => false end.

(** A column of object dtype holding strings and missing cells only. *)
Definition text_column (df : DataFrame) (val : string) : bool :=
  match column_dtype df val with
  | Some DObject =>
      forallb (fun r => match cell df val r with
                        | VStr _ | VNull => true
                        | _ => false
                        end)
              (rows df)
  | _ => false
  end.

(** Some row that is in a group has a string in its value cell. *)
Definition text_in_group (df : DataFrame) (idx : string)
  (grp : option string) (val : string) : bool :=
  existsb (fun kv => match snd kv with VStr _ => true | _ => false end)
          (grouped (keyed_rows df idx grp val)).

(** All labels different. *)
Fixpoint no_repeat (l : list string) : bool :=
  match l with
  | [] => true
  | x :: l' => negb (existsb (String.eqb x) l') && no_repeat l'
  end.

(** The labels of the columns other than the index column, in the order
    [sort_index(axis=1)] gives them. *)
Definition other_columns (df : DataFrame) (idx : string) : list string :=
  sort String.leb
       (filter (fun n => negb (String.eqb n idx)) (column_names df)).

(** The pivot without [values] and without [columns] under [count]: every
    other column is counted per index label (cells that are not missing,
    in the rows whose index cell is present); the columns come sorted by
    label. *)
Definition count_frame (df : DataFrame) (idx : string) : PivotResult :=
  let ilabels :=
    unique_labels (filter notnull (map (cell df idx) (rows df))) in
  let others := other_columns df idx in
  {| index_name := idx;
     index_labels := ilabels;
     column_labels := map VStr others;
     cells :=
       map (fun i =>
              map (fun c =>
                     aggregate Count
                       (partition (grouped (keyed_rows df idx None c))
                                  (i, VStr c)))
                  others)
           ilabels |}.

(** [pd.pivot_table(df, index=, columns=, values=, aggfunc=, fill_value=)]
    with pandas' defaults ([dropna=True], [sort=True], no margins).

    With a value label: a value label that is not in the frame is a
    KeyError.  A group key that is not in the frame is a KeyError too
    (the first such key, in the order index, columns), unless there are
    as many keys as the frame has rows: [groupby] then takes the list of
    keys for an array of row labels and raises no KeyError.  (An index
    label that is also the value label is left out of this case: the
    frame is first cut down to the requested columns, the label then
    names two of them, and what is raised depends on the width of the
    frame.)  With all
    labels in the frame and pairwise different, a numeric value column,
    or any column under [count], gives the pivoted frame; the mean of a
    text column of which some grouped row holds a string is a TypeError.

    Without a value label every column that is no key is aggregated;
    modelled for [count] without [columns], on a frame with pairwise
    different labels and at least one other column. *)
Definition pivot_table (df : DataFrame) (index columns values : option string)
  (f : aggfunc) (fill : value) : result PivotResult :=
  match index, values with
  | Some idx, Some val =>
      if negb (has_column val df) then Raise (KeyError val)
      else
        match absent_key df (group_keys idx columns) with
        | Some k =>
            if Nat.eqb (length (group_keys idx columns)) (length (rows df))
               || String.eqb idx val
            then pivot_table_other df index columns values f
            else Raise (KeyError k)
        | None =>
            if labels_distinct idx columns val then
              if is_numeric df val || is_count f
              then Ok (pivot_frame df idx columns val f fill)
              else if is_mean f && text_column df val
                      && text_in_group df idx columns val
              then Raise (TypeError
                            "agg function failed [how->mean,dtype->object]")
              else pivot_table_other df index columns values f
            else pivot_table_other df index columns values f
        end
  | Some idx, None =>
      match columns, f with
      | None, Count =>
          if has_column idx df && no_repeat (column_names df)
             && negb (Nat.eqb (length (other_columns df idx)) 0)
          then Ok (count_frame df idx)
          else pivot_table_other df index columns values f
      | _, _ => pivot_table_other df index columns values f
      end
  | _, _ => pivot_table_other df index columns values f
  end.

End Pandas.

(* ================================================================== *)
(** * The script's state and effects *)

(** What Streamlit has put on the page. Input widgets are represented by
    the values they return. *)
Inductive element :=
| Header (s : string)
| Subheader (s : string)
| Warning (s : string)
| ErrorMsg (s : string)
| ShowFrame (df : DataFrame)
| ShowPivot (p : PivotResult)
| PlotlyChart (f : Figure).

(** The two module-level frames and the page. *)
Record App := {
  df_news : DataFrame;
  df_stocks : DataFrame;
  page : list element
}.

(** A statement: runs on a state, ends normally with a value or with an
    exception; the state reached is kept in both cases. *)
Definition M (A : Type) : Type := App -> result A * App.

Definition ret {A : Type} (a : A) : M A := fun st => (Ok a, st).

Definition bind {A B : Type} (m : M A) (k : A -> M B) : M B :=
  fun st =>
    match m st with
    | (Ok a, st') => k a st'
    | (Raise e, st') => (Raise e, st')
    end.

Notation "x <- m ;; k" := (bind m (fun x => k))
  (at level 61, m at next level, right associativity).
Notation "m ;;; k" := (bind m (fun _ => k))
  (at level 61, right associativity).

(** A pandas call whose outcome does not touch the state. *)
Definition lift {A : Type} (r : result A) : M A := fun st => (r, st).

(** [try: body except Exception as e: handler(e)] *)
Definition try_except (body : M unit) (handler : exn -> M unit) : M unit :=
  fun st =>
    match body st with
    | (Ok a, st') => (Ok a, st')
    | (Raise e, st') => handler e st'
    end.

Definition get_news : M DataFrame := fun st => (Ok (df_news st), st).
Definition get_stocks : M DataFrame := fun st => (Ok (df_stocks st), st).

(** Assignment through the global name [df_stocks]. *)
Definition set_stocks (df : DataFrame) : M unit :=
  fun st =>
    (Ok tt, {| df_news := df_news st; df_stocks := df; page := page st |}).

Definition emit (e : element) : M unit :=
  fun st =>
    (Ok tt, {| df_news := df_news st; df_stocks := df_stocks st;
               page := page st ++ [e] |}).

(** Truth value of a Python list: non-empty. *)
Definition truthy {A : Type} (l : list A) : bool :=
  match l with [] => false | _ => true end.

(** [st.selectbox(label, options)]: the option at the picked position
    (the first one when the position is out of range), [None] when there
    is nothing to choose from. *)
Definition selectbox {A : Type} (options : list A) (pick : nat) : option A :=
  match nth_error options pick with
  | Some x => Some x
  | None => hd_error options
  end.

(* ================================================================== *)
(** * The script *)

Section Script.
Context {E : External}.

(** ** Tab 1, lines 35-39: the news filters *)
Definition tab1_filters (categories sectors : list value) : M DataFrame :=
  df <- get_news ;;
  let filtered_news := copy df in
  filtered_news <-
    (if truthy categories && has_column "category" filtered_news then
       s <- lift (getitem filtered_news "category") ;;
       ret (getitem_mask filtered_news (isin s categories))
     else ret filtered_news) ;;
  filtered_news <-
    (if truthy sectors && has_column "sector" filtered_news then
       s <- lift (getitem filtered_news "sector") ;;
       ret (getitem_mask filtered_news (isin s sectors))
     else ret filtered_news) ;;
  ret filtered_news.

(** ** Tab 2, lines 78-92: the stock filters

    The copy is taken first; the coercion of line 86 is an assignment to
    a column of [df_stocks] itself, and the comparison of line 92 reads
    the [date] column of the copy.  Lines 87-89 (the bounds offered by
    the date picker and the picker itself) are represented by what the
    picker returns, [date_range]. *)
Definition tab2_filters (stock_sectors stock_names : list value)
  (date_range : date_input_value) : M DataFrame :=
  df <- get_stocks ;;
  let filtered_stocks := copy df in
  filtered_stocks <-
    (if truthy stock_sectors then
       s <- lift (getitem filtered_stocks "sector") ;;
       ret (getitem_mask filtered_stocks (isin s stock_sectors))
     else ret filtered_stocks) ;;
  filtered_stocks <-
    (if truthy stock_names then
       s <- lift (getitem filtered_stocks "stock_name") ;;
       ret (getitem_mask filtered_stocks (isin s stock_names))
     else ret filtered_stocks) ;;
  if has_column "date" df then
    s <- lift (getitem df "date") ;;
    set_stocks (setitem df "date" (to_datetime s)) ;;;
    match date_range with
    | DateTuple [d0; d1] =>
        let start := timestamp_of_date d0 in
        let end_ := timestamp_of_date d1 in
        s1 <- lift (getitem filtered_stocks "date") ;;
        m1 <- lift (series_ge s1 start) ;;
        s2 <- lift (getitem filtered_stocks "date") ;;
        m2 <- lift (series_le s2 end_) ;;
        ret (getitem_mask filtered_stocks (mask_and m1 m2))
    | _ => ret filtered_stocks
    end
  else ret filtered_stocks.

(** ** Tab 3, lines 113-166: the pivot workspace *)

Inductive dataset := News | Stocks.

(** What the user has set in the widgets of the tab. *)
Record PivotUI := {
  dataset_choice : dataset;
  index_pick : nat;
  columns_pick : nat;
  values_pick : nat;
  aggfunc_choice : aggfunc;
  generate : bool;
  chart_type : chart_kind
}.

(** [columns if columns else None]: [None] and the empty string are
    both false. *)
Definition if_truthy (columns : option string) : option string :=
  match columns with
  | Some "" => None
  | _ => columns
  end.

(** Lines 137-163: the body of the [try]. *)
Definition generate_pivot (df_source : DataFrame)
  (index columns values : option string) (f : aggfunc) (kind : chart_kind)
  : M unit :=
  pivot_df <- lift (pivot_table df_source index (if_truthy columns) values f
                                (VNum 0)) ;;
  emit (Subheader "📋 Pivot Table Result") ;;;
  emit (ShowPivot pivot_df) ;;;
  emit (Subheader "📊 Visualization") ;;;
  match if_truthy columns with
  | Some _ =>
      fig <- lift (px_chart kind pivot_df index
                            (YLabels (column_labels pivot_df))) ;;
      emit (PlotlyChart fig)
  | None =>
      fig <- lift (px_chart kind pivot_df index (YName values)) ;;
      emit (PlotlyChart fig)
  end.

Definition source_of (ui : PivotUI) (st : App) : DataFrame :=
  match dataset_choice ui with
  | News => df_news st
  | Stocks => df_stocks st
  end.

(** Lines 127-131: what the three column selectors return on the chosen
    frame. *)
Definition index_of (ui : PivotUI) (df_source : DataFrame) : option string :=
  let all_columns := column_names df_source in
  selectbox all_columns (index_pick ui).

Definition columns_of (ui : PivotUI) (df_source : DataFrame) : option string :=
  let all_columns := column_names df_source in
  match selectbox (None :: map Some all_columns) (columns_pick ui) with
  | Some c => c
  | None => None
  end.

Definition values_of (ui : PivotUI) (df_source : DataFrame) : option string :=
  let numeric_columns := numeric_column_names df_source in
  selectbox numeric_columns (values_pick ui).

Definition tab3 (ui : PivotUI) : M unit :=
  emit (Header "📊 Pivot Table Workspace") ;;;
  df_source <- (fun st => (Ok (source_of ui st), st)) ;;
  if empty df_source then
    emit (Warning "Selected dataset is empty.")
  else
    let index := index_of ui df_source in
    let columns := columns_of ui df_source in
    let values := values_of ui df_source in
    let aggfunc := aggfunc_choice ui in
    if generate ui then
      try_except
        (generate_pivot df_source index columns values aggfunc (chart_type ui))
        (fun e => emit (ErrorMsg ("Error generating pivot: " ++ exn_str e)))
    else ret tt.

End Script.

(* ================================================================== *)
(** * A concrete environment and the scenario frames *)

Definition digit_of (a : ascii) : option Z :=
  let n := Z.of_nat (nat_of_ascii a) in
  if (48 <=? n) && (n <=? 57) then Some (n - 48) else None.

Fixpoint digits (s : string) (acc : Z) : option Z :=
  match s with
  | EmptyString => Some acc
  | String a s' =>
      match digit_of a with
      | Some d => digits s' (acc * 10 + d)
      | None => None
      end
  end.

(** A date parser that reads [YYYY-MM-DD] and nothing else. *)
Definition parse_iso_date (s : string) : option Z :=
  match digits (substring 0 4 s) 0, substring 4 1 s,
        digits (substring 5 2 s) 0, substring 7 1 s,
        digits (substring 8 2 s) 0 with
  | Some y, "-", Some m, "-", Some d =>
      if Nat.eqb (String.length s) 10
         && (1 <=? m) && (m <=? 12) && (1 <=? d) && (d <=? 31)
      then Some (timestamp_of_date (date_of_ymd y m d))
      else None
  | _, _, _, _, _ => None
  end.

(** An environment to run the script in: ISO dates are parsed, numbers
    are epoch nanoseconds, pivot requests outside the modelled fragment
    are refused and every chart request is accepted. *)
Definition iso_env : External := {|
  to_datetime_scalar v :=
    match v with
    | VStr s => parse_iso_date s
    | VNum q => Some (Qfloor q)
    | _ => None
    end;
  pivot_table_other _ _ _ _ _ := Raise (TypeError "agg function failed");
  px_chart k p x y :=
    Ok {| fig_kind := k; fig_data := p; fig_x := x; fig_y := y |}
|}.

Definition stocks_header (date_dtype : dtype) : list (string * dtype) :=
  [("sector", DObject); ("stock_name", DObject); ("date", date_dtype);
   ("price", DNumber)].

Definition jan (d : Z) : Z := timestamp_of_date (date_of_ymd 2024 1 d).

(** The two-row Stocks table of the scenarios, its dates read as
    Timestamps (a spreadsheet column of date cells). *)
Definition stocks_scenario : DataFrame := {|
  columns := stocks_header DDatetime;
  rows := [ [VStr "Tech"; VStr "A"; VDate (jan 1); VNum 10];
            [VStr "Tech"; VStr "B"; VDate (jan 2); VNum 20] ]
|}.

(** The same table with its dates read as text (a spreadsheet column of
    text cells). *)
Definition stocks_scenario_text : DataFrame := {|
  columns := stocks_header DObject;
  rows := [ [VStr "Tech"; VStr "A"; VStr "2024-01-01"; VNum 10];
            [VStr "Tech"; VStr "B"; VStr "2024-01-02"; VNum 20] ]
|}.

Definition no_news : DataFrame := {| columns := []; rows := [] |}.

Definition app_with (stocks : DataFrame) : App :=
  {| df_news := no_news; df_stocks := stocks; page := [] |}.

Definition with_stocks (st : App) (stocks : DataFrame) : App :=
  {| df_news := df_news st; df_stocks := stocks; page := page st |}.

Definition with_news (st : App) (news : DataFrame) : App :=
  {| df_news := news; df_stocks := df_stocks st; page := page st |}.

(* ================================================================== *)
(** * Vocabulary of the statements *)

Definition value_eq (a b : value) : Prop := value_eqb a b = true.

(** The keys of a source row. *)
Definition row_key (df : DataFrame) (idx : string) (grp : option string)
  (val : string) (r : list value) : key :=
  (cell df idx r, group_label df grp val r).

(** The source rows of the partition with key [k], and their value
    cells. *)
Definition partition_rows (df : DataFrame) (idx : string)
  (grp : option string) (val : string) (k : key) : list (list value) :=
  filter (fun r => same_key (row_key df idx grp val r) k) (rows df).

Definition partition_values (df : DataFrame) (idx : string)
  (grp : option string) (val : string) (k : key) : list value :=
  map (cell df val) (partition_rows df idx grp val k).

(** A source row that ends up in the pivot: both keys present and the
    reduction of its partition not missing. *)
Definition live (df : DataFrame) (idx : string) (grp : option string)
  (val : string) (f : aggfunc) (r : list value) : bool :=
  let k := row_key df idx grp val r in
  notnull (fst k) && notnull (snd k)
  && notnull (aggregate f (partition_values df idx grp val k)).

(** Source rows with both keys and the value cell present. *)
Definition complete_rows (df : DataFrame) (idx : string)
  (grp : option string) (val : string) : list (list value) :=
  filter (fun r => notnull (cell df idx r)
                   && notnull (group_label df grp val r)
                   && notnull (cell df val r))
         (rows df).

Definition pivot_cell (p : PivotResult) (a b : nat) : value :=
  nth b (nth a (cells p) []) VNull.

(** The sum of all cells of a pivot. *)
Definition pivot_total (p : PivotResult) : Q :=
  qsum (numbers (concat (cells p))).

Definition count_value (n : nat) : value := VNum (inject_Z (Z.of_nat n)).

(** A date-picker value that is a (start, end) pair. *)
Definition is_range (dr : date_input_value) : bool :=
  match dr with
  | DateTuple [_; _] => true
  | _ => false
  end.


(** The [columns] label, when one is given, is in the frame. *)
Definition group_present (df : DataFrame) (grp : option string) : bool :=
  match grp with
  | Some g => has_column g df
  | None => true
  end.

(** A one-row frame whose price is missing. *)
Definition null_price_frame : DataFrame := {|
  columns := [("sector", DObject); ("price", DNumber)];
  rows := [ [VStr "Tech"; VNull] ]
|}.

(** A two-row frame; the first row has no stock name. *)
Definition missing_name_frame : DataFrame := {|
  columns := [("sector", DObject); ("stock_name", DObject);
              ("price", DNumber)];
  rows := [ [VStr "Tech"; VNull; VNum 10];
            [VStr "Energy"; VStr "B"; VNum 20] ]
|}.

(** The pivot of the first scenario. *)
Definition sector_price_sum : PivotResult := {|
  index_name := "sector";
  index_labels := [VStr "Tech"];
  column_labels := [VStr "price"];
  cells := [ [VNum 30] ]
|}.

Definition scenario_ui : PivotUI := {|
  dataset_choice := Stocks;
  index_pick := 0;
  columns_pick := 0;
  values_pick := 0;
  aggfunc_choice := Sum;
  generate := true;
  chart_type := BarChart
|}.

(** The frame with the rows satisfying [p]. *)
Definition keep (p : list value -> bool) (df : DataFrame) : DataFrame :=
  {| columns := columns df; rows := filter p (rows df) |}.

(** The cell of a row under [c] is one of the selected values. *)
Definition row_isin (df : DataFrame) (c : string) (vals : list value)
  (r : list value) : bool :=
  existsb (value_eqb (cell df c r)) vals.

(** A cell that can be compared with a Timestamp. *)
Definition comparable (v : value) : bool :=
  match v with
  | VNull | VDate _ => true
  | _ => false
  end.

Definition cmp_date (op : Z -> Z -> bool) (t : Z) (v : value) : bool :=
  match v with
  | VDate x => op x t
  | _ => false
  end.

(** A Timestamp cell within [start, end]. *)
Definition in_range (start end_ : Z) (v : value) : bool :=
  cmp_date Z.geb start v && cmp_date Z.leb end_ v.

Definition jan2 : Z := date_of_ymd 2024 1 2.

(** The "B" row of the scenario table, dates as Timestamps. *)
Definition scenario_B_row : DataFrame := {|
  columns := stocks_header DDatetime;
  rows := [ [VStr "Tech"; VStr "B"; VDate (jan 2); VNum 20] ]
|}.

(** The scenario table after line 86 has run on its text dates. *)
Definition stocks_scenario_coerced : DataFrame := {|
  columns := stocks_header DDatetime;
  rows := [ [VStr "Tech"; VStr "A"; VDate (jan 1); VNum 10];
            [VStr "Tech"; VStr "B"; VDate (jan 2); VNum 20] ]
|}.

(** The filter blocks read stage by stage, each stage a frame-to-frame
    step that may raise: a membership filter (skipped when nothing is
    selected) and the date-range filter (skipped unless the picker holds
    a pair). *)
Definition isin_stage (c : string) (vals : list value) (df : DataFrame)
  : result DataFrame :=
  if truthy vals then
    match getitem df c with
    | Ok s => Ok (getitem_mask df (isin s vals))
    | Raise e => Raise e
    end
  else Ok df.

Definition range_stage (dr : date_input_value) (df : DataFrame)
  : result DataFrame :=
  match dr with
  | DateTuple [d0; d1] =>
      match getitem df "date" with
      | Raise e => Raise e
      | Ok s =>
          match series_ge s (timestamp_of_date d0) with
          | Raise e => Raise e
          | Ok m1 =>
              match series_le s (timestamp_of_date d1) with
              | Raise e => Raise e
              | Ok m2 => Ok (getitem_mask df (mask_and m1 m2))
              end
          end
      end
  | _ => Ok df
  end.

Definition stocks_stages (stock_sectors stock_names : list value)
  (dr : date_input_value) (df : DataFrame) : result DataFrame :=
  match isin_stage "sector" stock_sectors df with
  | Raise e => Raise e
  | Ok f1 =>
      match isin_stage "stock_name" stock_names f1 with
      | Raise e => Raise e
      | Ok f2 => if has_column "date" df then range_stage dr f2 else Ok f2
      end
  end.

(** A membership filter of the news view: skipped also when its column
    is absent. *)
Definition guarded_isin (c : string) (vals : list value) (df : DataFrame)
  : DataFrame :=
  if truthy vals && has_column c df then keep (row_isin df c vals) df else df.

Definition news_kept (categories sectors : list value) (df : DataFrame)
  : DataFrame :=
  guarded_isin "sector" sectors (guarded_isin "category" categories df).

(** The [y] argument of the chart call of lines 153-163. *)
Definition plot_y_of (columns values : option string) (p : PivotResult)
  : plot_y :=
  match if_truthy columns with
  | Some _ => YLabels (column_labels p)
  | None => YName values
  end.

(** A state with the same frames and another page. *)
Definition with_page (st : App) (pg : list element) : App :=
  {| df_news := df_news st; df_stocks := df_stocks st; page := pg |}.

(** A frame without numeric column: there is no value to choose. *)
Definition names_only : DataFrame := {|
  columns := [("sector", DObject); ("stock_name", DObject)];
  rows := [ [VStr "Tech"; VStr "A"] ]
|}.




(** [a] has the header of [b] and only rows of [b]. *)
Definition sub_frame (a b : DataFrame) : Prop :=
  columns a = columns b /\ incl (rows a) (rows b).

(* ================================================================== *)
(** * The rest of the script: loader, option lists, chart data *)

(** ** Lines 11-20: loading the two tables *)

(** What [pd.read_excel] does with a path: a frame, or an exception of
    which the loader only uses the text. *)
Inductive read_outcome :=
| ReadOk (df : DataFrame)
| ReadFailed (msg : string).

(** [pd.DataFrame()] *)
Definition empty_frame : DataFrame := {| columns := []; rows := [] |}.

Definition load_data (read_excel : string -> read_outcome)
  (file_path : string) : M DataFrame :=
  match read_excel file_path with
  | ReadOk df => ret df
  | ReadFailed e =>
      emit (ErrorMsg ("Failed to load " ++ file_path ++ ": " ++ e)) ;;;
      ret empty_frame
  end.

(** Lines 19-20: the two module-level assignments. *)
Definition load_tables (read_excel : string -> read_outcome)
  (np_file stocks_file : string) : M unit :=
  news <- load_data read_excel np_file ;;
  stocks <- load_data read_excel stocks_file ;;
  (fun st => (Ok tt, {| df_news := news; df_stocks := stocks;
                        page := page st |})).

(** ** Lines 33-34, 67, 73: the option lists of the membership filters *)

(** [s.dropna()] and [s.unique()] (values in order of first appearance). *)
Definition dropna (vs : list value) : list value := filter notnull vs.
Definition unique (vs : list value) : list value := distinct value_eqb vs.

Definition same_kind (a b : value) : bool :=
  kind_rank a =? kind_rank b.

(** Python's [sorted] on cells: numbers, strings and Timestamps are each
    ordered among themselves, and comparing two cells of different kinds
    is a TypeError (whose text, naming the two types, is not modelled). *)
Definition py_sorted (vs : list value) : result (list value) :=
  match vs with
  | [] => Ok []
  | v :: vs' =>
      if forallb (same_kind v) vs' then Ok (sort value_leb vs)
      else Raise (TypeError "'<' not supported between instances")
  end.

(** [sorted(df[c].dropna().unique())] *)
Definition column_options (df : DataFrame) (c : string)
  : result (list value) :=
  match getitem df c with
  | Ok s => py_sorted (unique (dropna (s_values s)))
  | Raise e => Raise e
  end.

(** [sorted(df[c].dropna().unique()) if c in df.columns else []] *)
Definition filter_options (df : DataFrame) (c : string)
  : result (list value) :=
  if has_column c df then column_options df c else Ok [].

(** [st.multiselect(label, options)]: the options at the positions the
    user has picked, in the order picked, each once.  A widget is
    represented by the value it returns; what Streamlit itself may
    refuse when it builds the element (an element id met twice on the
    page, a date picker built on missing bounds) is not represented. *)
Definition multiselect {A : Type} (options : list A) (picks : list nat)
  : list A :=
  flat_map (fun i => match nth_error options i with
                     | Some o => [o]
                     | None => []
                     end)
           (nodup Nat.eq_dec picks).

(** Lines 33-39: the two news selections and the filters they feed. *)
Definition tab1_filter_block (category_picks sector_picks : list nat)
  : M DataFrame :=
  df <- get_news ;;
  options <- lift (filter_options df "category") ;;
  let categories := multiselect options category_picks in
  options <- lift (filter_options df "sector") ;;
  let sectors := multiselect options sector_picks in
  tab1_filters categories sectors.

(** ** Lines 46-47: the sentiment counts *)

Definition occurrences (v : value) (vs : list value) : nat :=
  length (filter (value_eqb v) vs).

(** [s.value_counts()]: each value that is not missing with the number
    of its occurrences, most frequent first.  Equal counts are left in
    order of first appearance; pandas does not fix their order. *)
Definition value_counts (s : Series) : list (value * nat) :=
  let vs := dropna (s_values s) in
  sort (fun a b => Nat.leb (snd b) (snd a))
       (map (fun v => (v, occurrences v vs)) (unique vs)).

(** [.reset_index()] and the renaming of line 47. *)
Definition sentiment_count (s : Series) : DataFrame :=
  {| columns := [("Sentiment", s_dtype s); ("Count", DNumber)];
     rows := map (fun vn => [fst vn; count_value (snd vn)]) (value_counts s) |}.

(** ** Line 54: the average score per sector *)

(** The (key, value) cells of the rows whose key is present. *)
Definition keyed_cells (df : DataFrame) (by_ val : string)
  : list (value * value) :=
  filter (fun kv => notnull (fst kv))
         (map (fun r => (cell df by_ r, cell df val r)) (rows df)).

Definition group_values (recs : list (value * value)) (l : value)
  : list value :=
  map snd (filter (fun kv => value_eqb (fst kv) l) recs).

(** [df.groupby(by)[val].mean().reset_index()] on a numeric [val]: one
    row per key, keys ascending, the mean of the scores that are not
    missing, missing itself when the group has none. *)
Definition groupby_mean_frame (df : DataFrame) (by_ val : string)
  : DataFrame :=
  let recs := keyed_cells df by_ val in
  {| columns := [(by_, match column_dtype df by_ with
                       | Some d => d
                       | None => DObject
                       end);
                 (val, DNumber)];
     rows := map (fun l => [l; aggregate Mean (group_values recs l)])
                 (unique_labels (map fst recs)) |}.

(** The call of line 54; [mean_other] stands for what pandas does when
    the value column is not numeric. *)
Definition groupby_mean (mean_other : DataFrame -> string -> string ->
                                      result DataFrame)
  (df : DataFrame) (by_ val : string) : result DataFrame :=
  if negb (has_column by_ df) then Raise (KeyError by_)
  else if negb (has_column val df) then Raise (KeyError val)
  else if is_numeric df val then Ok (groupby_mean_frame df by_ val)
  else mean_other df by_ val.

(** ** Lines 96-98: the column projection of the stocks view *)

(** [df[cols]] for a list of labels: KeyError when one is absent (the
    first absent one stands for pandas' list of them). *)
Definition getitem_columns (df : DataFrame) (cols : list string)
  : result DataFrame :=
  match find (fun c => negb (has_column c df)) cols with
  | Some c => Raise (KeyError c)
  | None =>
      Ok {| columns := map (fun c => (c, match column_dtype df c with
                                         | Some d => d
                                         | None => DObject
                                         end)) cols;
            rows := map (fun r => map (fun c => cell df c r) cols) (rows df) |}
  end.

Definition pivot_table_builder (col_picks : list nat)
  (filtered_stocks : DataFrame) : M unit :=
  emit (Subheader "📊 Pivot Table Builder") ;;;
  let pivot_cols := multiselect (column_names filtered_stocks) col_picks in
  if truthy pivot_cols then
    shown <- lift (getitem_columns filtered_stocks pivot_cols) ;;
    emit (ShowFrame shown)
  else ret tt.

(** ** Lines 66-92 with the widgets, and the bounds of the date picker *)

Definition timestamps (vs : list value) : list Z :=
  flat_map (fun v => match v with VDate t => [t] | _ => [] end) vs.

(** [s.min()] / [s.max()] on a datetime column: missing cells skipped,
    nothing when all are missing. *)
Definition series_min (s : Series) : option Z :=
  match timestamps (s_values s) with
  | [] => None
  | t :: ts => Some (fold_left Z.min ts t)
  end.

Definition series_max (s : Series) : option Z :=
  match timestamps (s_values s) with
  | [] => None
  | t :: ts => Some (fold_left Z.max ts t)
  end.

(** The day of a Timestamp, as the date picker keeps it. *)
Definition date_of_timestamp (t : Z) : Z := t / ns_per_day.

Section StocksWidgets.
Context {E : External}.

(** Line 86 on its own: the frame with its [date] column coerced. *)
Definition coerce_date_column (df : DataFrame) : DataFrame :=
  match getitem df "date" with
  | Ok s => setitem df "date" (to_datetime s)
  | Raise _ => df
  end.

(** Lines 87-89: the range the date picker starts with, when the
    coerced column has a date at all. *)
Definition default_date_range (df : DataFrame) : option date_input_value :=
  match getitem (coerce_date_column df) "date" with
  | Ok s =>
      match series_min s, series_max s with
      | Some min_date, Some max_date =>
          Some (DateTuple [date_of_timestamp min_date;
                           date_of_timestamp max_date])
      | _, _ => None
      end
  | Raise _ => None
  end.

(** Lines 66-92: the two stock selections, then the filters. *)
Definition tab2_filter_block (sector_picks name_picks : list nat)
  (date_range : date_input_value) : M DataFrame :=
  df <- get_stocks ;;
  stock_sectors <-
    (if has_column "sector" df then
       options <- lift (column_options df "sector") ;;
       ret (multiselect options sector_picks)
     else ret []) ;;
  stock_names <-
    (if has_column "stock_name" df then
       options <- lift (column_options df "stock_name") ;;
       ret (multiselect options name_picks)
     else ret []) ;;
  tab2_filters stock_sectors stock_names date_range.

End StocksWidgets.

(** ** Vocabulary of the statements about the rest of the script *)

Definition value_le (a b : value) : Prop := value_leb a b = true.

(** A row passes the news filters: each active filter finds its cell
    among the selected values. *)
Definition news_row_passes (df : DataFrame) (categories sectors : list value)
  (r : list value) : bool :=
  (negb (truthy categories && has_column "category" df)
   || row_isin df "category" categories r)
  && (negb (truthy sectors && has_column "sector" df)
      || row_isin df "sector" sectors r).

(** A row passes the stock filters. *)
Definition stock_row_passes (df : DataFrame)
  (stock_sectors stock_names : list value) (dr : date_input_value)
  (r : list value) : bool :=
  (negb (truthy stock_sectors) || row_isin df "sector" stock_sectors r)
  && (negb (truthy stock_names) || row_isin df "stock_name" stock_names r)
  && match dr with
     | DateTuple [d0; d1] =>
         negb (has_column "date" df)
         || in_range (timestamp_of_date d0) (timestamp_of_date d1)
              (cell df "date" r)
     | _ => true
     end.

(** The numbers among the value cells of a partition. *)
Definition partition_numbers (df : DataFrame) (idx : string)
  (grp : option string) (val : string) (k : key) : list Q :=
  numbers (partition_values df idx grp val k).

(** The source rows that are in some partition: both keys present. *)
Definition grouped_rows (df : DataFrame) (idx : string) (grp : option string)
  (val : string) : list (list value) :=
  filter (fun r => notnull (cell df idx r)
                   && notnull (group_label df grp val r))
         (rows df).

(** Where the sums of the model are those of the machine.  pandas adds
    in int64 or in float64, the model in exact rationals.  On numbers
    that are integers whose absolute values add up to at most 2^53,
    every partial sum, in whatever order, is an integer of at most that
    size, which both formats hold exactly: nothing is rounded and
    nothing wraps around. *)
Definition integral (q : Q) : bool :=
  (Qnum q mod Zpos (Qden q) =? 0)%Z.

Definition exact_numbers (ns : list Q) : bool :=
  forallb integral ns
  && Qle_bool (qsum (map Qabs ns)) (inject_Z (2 ^ 53)).

(** The numbers of a column. *)
Definition column_numbers (df : DataFrame) (val : string) : list Q :=
  numbers (map (cell df val) (rows df)).

(** The number in a cell, 0 when it holds none: what a cell adds to a
    sum. *)
Definition number_of (v : value) : Q :=
  match v with
  | VNum q => q
  | _ => 0%Q
  end.

(** Where a column assignment writes: the position of the label, or
    one past the last column when the label is new. *)
Definition assigned_position (c : string) (hdr : list (string * dtype))
  (pos : nat) : nat :=
  match find_column c hdr pos with
  | Some (p, _) => p
  | None => (pos + length hdr)%nat
  end.

(** A frame whose [sector] column mixes text and numbers. *)
Definition mixed_sector_frame : DataFrame := {|
  columns := [("sector", DObject)];
  rows := [ [VStr "Tech"]; [VNum 7] ]
|}.

(** A news table for the examples. *)
Definition news_example : DataFrame := {|
  columns := [("category", DObject); ("sector", DObject);
              ("market_sentiment", DObject); ("sentiment_score", DNumber)];
  rows := [ [VStr "Macro"; VStr "Tech"; VStr "Positive"; VNum (1 # 2)];
            [VStr "Earnings"; VStr "Tech"; VStr "Negative"; VNum (-1 # 4)];
            [VStr "Macro"; VStr "Energy"; VStr "Positive"; VNull];
            [VStr "Macro"; VNull; VNull; VNum 1] ]
|}.

(* ================================================================== *)
(** * Equality of cells is an equivalence *)

Lemma value_eqb_refl v : value_eqb v v = true.
Proof.
  destruct v; simpl; auto using Qeq_bool_refl, String.eqb_refl, Z.eqb_refl.
Qed.

Lemma value_eqb_sym a b : value_eqb a b = true -> value_eqb b a = true.
Proof.
  destruct a, b; simpl; try discriminate; auto using Qeq_bool_sym.
  - rewrite String.eqb_sym; auto.
  - rewrite Z.eqb_sym; auto.
Qed.

Lemma value_eqb_trans a b c :
  value_eqb a b = true -> value_eqb b c = true -> value_eqb a c = true.
Proof.
  destruct a, b, c; simpl; try discriminate; auto.
  - apply Qeq_bool_trans.
  - intros H1 H2. apply String.eqb_eq in H1, H2. subst. apply String.eqb_refl.
  - intros H1 H2. apply Z.eqb_eq in H1, H2. subst. apply Z.eqb_refl.
Qed.

Lemma value_eqb_cong a b c :
  value_eqb a b = true -> value_eqb a c = value_eqb b c.
Proof.
  intros H.
  destruct (value_eqb a c) eqn:Hac, (value_eqb b c) eqn:Hbc; auto.
  - rewrite <- Hbc. symmetry.
    eapply value_eqb_trans; [apply value_eqb_sym; exact H | exact Hac].
  - rewrite <- Hac. eapply value_eqb_trans; eauto.
Qed.

Lemma value_eqb_notnull a b :
  value_eqb a b = true -> notnull a = notnull b.
Proof. destruct a, b; simpl; auto; discriminate. Qed.

#[local] Instance value_eq_equiv : Equivalence value_eq.
Proof.
  split.
  - intros x. apply value_eqb_refl.
  - intros x y. apply value_eqb_sym.
  - intros x y z. apply value_eqb_trans.
Qed.

Lemma same_key_refl k : same_key k k = true.
Proof. unfold same_key. now rewrite !value_eqb_refl. Qed.

Lemma same_key_sym a b : same_key a b = true -> same_key b a = true.
Proof.
  unfold same_key. intros H. apply andb_true_iff in H as [H1 H2].
  apply andb_true_iff; split; now apply value_eqb_sym.
Qed.

Lemma same_key_trans a b c :
  same_key a b = true -> same_key b c = true -> same_key a c = true.
Proof.
  unfold same_key. intros H1 H2.
  apply andb_true_iff in H1 as [H1 H1'], H2 as [H2 H2'].
  apply andb_true_iff; split; eapply value_eqb_trans; eauto.
Qed.

Lemma same_key_cong a b c :
  same_key a b = true -> same_key c a = same_key c b.
Proof.
  intros H.
  destruct (same_key c a) eqn:Hca, (same_key c b) eqn:Hcb; auto.
  - rewrite <- Hcb. symmetry. eapply same_key_trans; eauto.
  - rewrite <- Hca. eapply same_key_trans; eauto using same_key_sym.
Qed.

(* ================================================================== *)
(** * Distinct elements and sorting *)

Section Distinct.
Variable A : Type.
Variable eqb : A -> A -> bool.
Hypothesis eqb_refl : forall x, eqb x x = true.
Hypothesis eqb_sym : forall x y, eqb x y = true -> eqb y x = true.
Hypothesis eqb_trans :
  forall x y z, eqb x y = true -> eqb y z = true -> eqb x z = true.

Let eqA (x y : A) : Prop := eqb x y = true.

Lemma distinct_incl l x : In x (distinct eqb l) -> In x l.
Proof.
  revert x. induction l as [|a l IH]; simpl; intros x H; auto.
  destruct H as [H|H]; auto.
  apply filter_In in H as [H _]. auto.
Qed.

Lemma distinct_cover l x :
  In x l -> exists y, In y (distinct eqb l) /\ eqb y x = true.
Proof.
  induction l as [|a l IH]; simpl; intros H; [contradiction|].
  destruct H as [->|H].
  - exists x. auto.
  - destruct (IH H) as (y & Hy & Hyx).
    destruct (eqb a y) eqn:Hay.
    + exists a. split; auto. eapply eqb_trans; eauto.
    + exists y. split; auto. right. apply filter_In. split; auto.
      now rewrite Hay.
Qed.

Lemma NoDupA_filter_keep (p : A -> bool) l :
  NoDupA eqA l -> NoDupA eqA (filter p l).
Proof.
  induction 1 as [|a l Hnotin Hnd IH]; simpl; [constructor|].
  destruct (p a); auto.
  constructor; auto.
  intros Hin. apply Hnotin.
  apply InA_alt in Hin as (y & Hay & Hy).
  apply filter_In in Hy as [Hy _].
  apply InA_alt. exists y. auto.
Qed.

Lemma distinct_NoDupA l : NoDupA eqA (distinct eqb l).
Proof.
  induction l as [|a l IH]; simpl; constructor.
  - intros Hin. apply InA_alt in Hin as (y & Hay & Hy).
    apply filter_In in Hy as [_ Hy]. unfold eqA in Hay.
    rewrite Hay in Hy. discriminate.
  - now apply NoDupA_filter_keep.
Qed.

(** In a list without repetition, exactly one element is equal to a
    given one that it covers. *)
Lemma count_one l x :
  NoDupA eqA l ->
  (exists y, In y l /\ eqb x y = true) ->
  length (filter (fun y => eqb x y) l) = 1%nat.
Proof.
  induction 1 as [|a l Hnotin Hnd IH]; intros (y & Hy & Hxy).
  - contradiction.
  - simpl. destruct (eqb x a) eqn:Hxa.
    + simpl. f_equal.
      destruct (filter (fun y0 => eqb x y0) l) as [|z zs] eqn:Hf; auto.
      exfalso. apply Hnotin.
      assert (Hz : In z (filter (fun y0 => eqb x y0) l))
        by (rewrite Hf; now left).
      apply filter_In in Hz as [Hz Hxz].
      apply InA_alt. exists z. split; auto.
      unfold eqA. eapply eqb_trans; [apply eqb_sym; exact Hxa | exact Hxz].
    + apply IH. destruct Hy as [->|Hy].
      * congruence.
      * exists y. auto.
Qed.

End Distinct.

Lemma insert_sorted_perm {A : Type} (leb : A -> A -> bool) x l :
  Permutation (insert_sorted leb x l) (x :: l).
Proof.
  induction l as [|y l IH]; simpl; auto.
  destruct (leb x y); auto.
  rewrite IH. apply perm_swap.
Qed.

Lemma sort_perm {A : Type} (leb : A -> A -> bool) l :
  Permutation (sort leb l) l.
Proof.
  induction l as [|x l IH]; simpl; auto.
  rewrite insert_sorted_perm. now constructor.
Qed.

Lemma unique_labels_In l x : In x (unique_labels l) -> In x l.
Proof.
  unfold unique_labels. intros H.
  apply (Permutation_in _ (sort_perm value_leb _)) in H.
  eapply distinct_incl; eauto.
Qed.

Lemma unique_labels_cover l x :
  In x l -> exists y, In y (unique_labels l) /\ value_eqb y x = true.
Proof.
  intros H.
  destruct (distinct_cover value_eqb value_eqb_refl value_eqb_trans l x H)
    as (y & Hy & Hyx).
  exists y. split; auto.
  unfold unique_labels.
  eapply Permutation_in; [symmetry; apply sort_perm | exact Hy].
Qed.

Lemma unique_labels_NoDupA l : NoDupA value_eq (unique_labels l).
Proof.
  unfold unique_labels.
  assert (H := distinct_NoDupA value_eqb l).
  assert (P : PermutationA value_eq (distinct value_eqb l)
                (sort value_leb (distinct value_eqb l))).
  { apply Permutation_PermutationA; [exact value_eq_equiv|].
    symmetry. apply sort_perm. }
  exact (@PermutationA_preserves_NoDupA _ _ value_eq_equiv _ _ P H).
Qed.

(* ================================================================== *)
(** * The pivot: groups, labels and cells *)

Lemma aggregate_nil_fill (f : aggfunc) :
  fillna (VNum 0) (aggregate f []) = VNum 0.
Proof. destruct f; reflexivity. Qed.

Section PivotFacts.
Variable df : DataFrame.
Variable idx : string.
Variable grp : option string.
Variable val : string.
Variable f : aggfunc.

Let recs := grouped (keyed_rows df idx grp val).
Let tbl := agged f recs.

Lemma recs_In kv :
  In kv recs <->
  exists r, In r (rows df) /\ kv = (row_key df idx grp val r, cell df val r)
            /\ notnull (cell df idx r) = true
            /\ notnull (group_label df grp val r) = true.
Proof.
  unfold recs, grouped, keyed_rows. rewrite filter_In, in_map_iff. split.
  - intros [(r & <- & Hr) Hnn]. simpl in Hnn.
    apply andb_true_iff in Hnn as [H1 H2]. exists r. auto.
  - intros (r & Hr & -> & H1 & H2). split.
    + exists r. auto.
    + simpl. now rewrite H1, H2.
Qed.

(** The partition of a key without missing parts holds the value cells
    of the source rows with that key. *)
Lemma partition_recs k :
  notnull (fst k) = true -> notnull (snd k) = true ->
  partition recs k = partition_values df idx grp val k.
Proof.
  intros H1 H2.
  unfold recs, partition, partition_values, partition_rows, grouped,
    keyed_rows.
  induction (rows df) as [|r rs IH]; simpl; auto.
  destruct (same_key (row_key df idx grp val r) k) eqn:Hk.
  - unfold row_key, same_key in Hk. simpl in Hk.
    apply andb_true_iff in Hk as [Ha Hb].
    rewrite (value_eqb_notnull _ _ Ha), (value_eqb_notnull _ _ Hb), H1, H2.
    simpl. unfold same_key. simpl. rewrite Ha, Hb. simpl. f_equal. exact IH.
  - destruct (notnull (cell df idx r) && notnull (group_label df grp val r));
      simpl; auto.
    unfold row_key in Hk. rewrite Hk. auto.
Qed.

Lemma partition_cong k k' :
  same_key k k' = true -> partition recs k = partition recs k'.
Proof.
  intros H. unfold partition. f_equal.
  apply filter_ext. intros kv. now apply same_key_cong.
Qed.

Lemma partition_nil k :
  existsb (fun kv => same_key (fst kv) k) recs = false ->
  partition recs k = [].
Proof.
  unfold partition. induction recs as [|kv l IH]; simpl; auto.
  intros H. apply orb_false_iff in H as [H1 H2]. rewrite H1. auto.
Qed.

Lemma tbl_In ka :
  In ka tbl <->
  In (fst ka) (distinct same_key (map fst recs))
  /\ snd ka = aggregate f (partition recs (fst ka))
  /\ notnull (snd ka) = true.
Proof.
  unfold tbl, agged. rewrite filter_In, in_map_iff. split.
  - intros [(k & <- & Hk) Hnn]. simpl. auto.
  - intros (Hk & Ha & Hnn). split; auto.
    exists (fst ka). split; auto. destruct ka; simpl in *. now subst.
Qed.

Lemma tbl_key_notnull ka :
  In ka tbl ->
  notnull (fst (fst ka)) = true /\ notnull (snd (fst ka)) = true.
Proof.
  intros H. apply tbl_In in H as (Hk & _ & _).
  apply distinct_incl in Hk. apply in_map_iff in Hk as (kv & Hkv & Hin).
  apply recs_In in Hin as (r & _ & -> & H1 & H2).
  rewrite <- Hkv. simpl. auto.
Qed.

(** Every group whose reduction is not missing has an entry. *)
Lemma tbl_cover kv :
  In kv recs ->
  notnull (aggregate f (partition recs (fst kv))) = true ->
  exists ka, In ka tbl /\ same_key (fst ka) (fst kv) = true.
Proof.
  intros Hin Hnn.
  destruct (distinct_cover same_key same_key_refl same_key_trans
              (map fst recs) (fst kv)) as (k' & Hk' & Hsame).
  { apply in_map. exact Hin. }
  exists (k', aggregate f (partition recs k')). split; auto.
  apply tbl_In. simpl. split; [exact Hk'|]. split; auto.
  now rewrite (partition_cong _ _ Hsame).
Qed.

(** What looking a key up in the aggregated table gives. *)
Lemma lookup_cell_spec k :
  lookup_cell tbl k =
  if existsb (fun kv => same_key (fst kv) k) recs
     && notnull (aggregate f (partition recs k))
  then Some (aggregate f (partition recs k))
  else None.
Proof.
  unfold lookup_cell.
  destruct (find (fun ka => same_key (fst ka) k) tbl) as [ka|] eqn:Hfind.
  - apply find_some in Hfind as [Hin Hsame].
    apply tbl_In in Hin as (Hk & Ha & Hnn).
    rewrite (partition_cong _ _ Hsame) in Ha. rewrite Ha in Hnn.
    apply distinct_incl in Hk. apply in_map_iff in Hk as (kv & Hkv & Hin).
    assert (Hex : existsb (fun kv => same_key (fst kv) k) recs = true).
    { apply existsb_exists. exists kv. split; auto. now rewrite Hkv. }
    rewrite Hex, Hnn. simpl. now rewrite Ha.
  - destruct (existsb (fun kv => same_key (fst kv) k) recs) eqn:Hex; auto.
    destruct (notnull (aggregate f (partition recs k))) eqn:Hnn; auto.
    exfalso. apply existsb_exists in Hex as (kv & Hin & Hsame).
    destruct (tbl_cover kv Hin) as (ka & Hka & Hsame').
    { now rewrite (partition_cong _ _ Hsame). }
    pose proof (find_none _ _ Hfind ka Hka) as Hno. simpl in Hno.
    rewrite (same_key_trans _ _ _ Hsame' Hsame) in Hno. discriminate.
Qed.

(** The cell under a pair of labels that are not missing. *)
Lemma unstack_cell i c :
  notnull i = true -> notnull c = true ->
  fillna (VNum 0)
    match lookup_cell tbl (i, c) with
    | Some v => v
    | None => VNum 0
    end
  = fillna (VNum 0) (aggregate f (partition_values df idx grp val (i, c))).
Proof.
  intros Hi Hc.
  rewrite <- (partition_recs (i, c)) by auto.
  rewrite lookup_cell_spec.
  destruct (existsb (fun kv => same_key (fst kv) (i, c)) recs) eqn:Hex.
  - simpl. destruct (aggregate f (partition recs (i, c))); reflexivity.
  - simpl. rewrite (partition_nil _ Hex). now rewrite aggregate_nil_fill.
Qed.

Let p := pivot_frame df idx grp val f (VNum 0).

Lemma index_label_notnull i : In i (index_labels p) -> notnull i = true.
Proof.
  intros H. apply unique_labels_In in H.
  apply in_map_iff in H as (ka & <- & Hka). now apply tbl_key_notnull.
Qed.

Lemma column_label_notnull c : In c (column_labels p) -> notnull c = true.
Proof.
  intros H. apply unique_labels_In in H.
  apply in_map_iff in H as (ka & <- & Hka). now apply tbl_key_notnull.
Qed.

Lemma pivot_cells_eq :
  cells p =
  map (fun i =>
         map (fun c =>
                fillna (VNum 0)
                  (aggregate f (partition_values df idx grp val (i, c))))
             (column_labels p))
      (index_labels p).
Proof.
  unfold p, pivot_frame, unstack. simpl.
  apply map_ext_in. intros i Hi. apply map_ext_in. intros c Hc.
  apply unstack_cell.
  - now apply index_label_notnull.
  - now apply column_label_notnull.
Qed.

Lemma live_recs r :
  In r (rows df) -> live df idx grp val f r = true ->
  In (row_key df idx grp val r, cell df val r) recs
  /\ notnull (aggregate f (partition recs (row_key df idx grp val r))) = true.
Proof.
  intros Hr Hl. unfold live in Hl. simpl in Hl.
  apply andb_true_iff in Hl as [Hl H3]. apply andb_true_iff in Hl as [H1 H2].
  split.
  - apply recs_In. exists r. auto.
  - now rewrite partition_recs by auto.
Qed.

Lemma tbl_live ka :
  In ka tbl ->
  exists r, In r (rows df) /\ live df idx grp val f r = true
            /\ fst ka = row_key df idx grp val r.
Proof.
  intros H. apply tbl_In in H as (Hk & Ha & Hnn).
  apply distinct_incl in Hk. apply in_map_iff in Hk as (kv & Hkv & Hin).
  apply recs_In in Hin as (r & Hr & -> & H1 & H2). simpl in Hkv.
  exists r. split; auto. split; auto.
  unfold live. simpl. rewrite H1, H2. simpl.
  rewrite <- partition_recs by auto. rewrite Hkv, <- Ha. exact Hnn.
Qed.

(** The index labels are the index cells of the live rows. *)
Lemma index_labels_spec v :
  InA value_eq v (index_labels p) <->
  exists r, In r (rows df) /\ live df idx grp val f r = true
            /\ value_eqb (cell df idx r) v = true.
Proof.
  split.
  - intros H. apply InA_alt in H as (i & Hvi & Hi).
    apply unique_labels_In in Hi.
    apply in_map_iff in Hi as (ka & <- & Hka).
    destruct (tbl_live ka Hka) as (r & Hr & Hl & Hkey).
    exists r. split; auto. split; auto.
    destruct ka as [[k1 k2] a]. simpl in *. unfold row_key in Hkey.
    injection Hkey as -> ->. now apply value_eqb_sym.
  - intros (r & Hr & Hl & Hv).
    destruct (live_recs r Hr Hl) as [Hin Hnn].
    destruct (tbl_cover _ Hin Hnn) as (ka & Hka & Hsame). simpl in Hsame.
    apply andb_true_iff in Hsame as [Hs _]. simpl in Hs.
    destruct (unique_labels_cover (map (fun ka => fst (fst ka)) tbl)
                (fst (fst ka))) as (i & Hi & Hik).
    { apply in_map_iff. exists ka. auto. }
    apply InA_alt. exists i. split; auto.
    unfold value_eq. apply value_eqb_sym.
    eapply value_eqb_trans; [exact Hik|].
    eapply value_eqb_trans; [exact Hs | exact Hv].
Qed.

(** The column labels are the group cells of the live rows. *)
Lemma column_labels_spec v :
  InA value_eq v (column_labels p) <->
  exists r, In r (rows df) /\ live df idx grp val f r = true
            /\ value_eqb (group_label df grp val r) v = true.
Proof.
  split.
  - intros H. apply InA_alt in H as (c & Hvc & Hc).
    apply unique_labels_In in Hc.
    apply in_map_iff in Hc as (ka & <- & Hka).
    destruct (tbl_live ka Hka) as (r & Hr & Hl & Hkey).
    exists r. split; auto. split; auto.
    destruct ka as [[k1 k2] a]. simpl in *. unfold row_key in Hkey.
    injection Hkey as -> ->. now apply value_eqb_sym.
  - intros (r & Hr & Hl & Hv).
    destruct (live_recs r Hr Hl) as [Hin Hnn].
    destruct (tbl_cover _ Hin Hnn) as (ka & Hka & Hsame). simpl in Hsame.
    apply andb_true_iff in Hsame as [_ Hs]. simpl in Hs.
    destruct (unique_labels_cover (map (fun ka => snd (fst ka)) tbl)
                (snd (fst ka))) as (c & Hc & Hck).
    { apply in_map_iff. exists ka. auto. }
    apply InA_alt. exists c. split; auto.
    unfold value_eq. apply value_eqb_sym.
    eapply value_eqb_trans; [exact Hck|].
    eapply value_eqb_trans; [exact Hs | exact Hv].
Qed.

End PivotFacts.

(* ================================================================== *)
(** * Counting rows through their partitions *)

Section Counting.
Local Open Scope nat_scope.

Lemma list_sum_indicator {A : Type} (p : A -> bool) (l : list A) :
  list_sum (map (fun x => if p x then 1 else 0) l) = length (filter p l).
Proof.
  induction l as [|x l IH]; simpl; auto.
  destruct (p x); simpl; auto.
Qed.

Lemma list_sum_map_add {A : Type} (a b : A -> nat) (l : list A) :
  list_sum (map (fun x => a x + b x) l)
  = list_sum (map a l) + list_sum (map b l).
Proof. induction l as [|x l IH]; simpl; auto. rewrite IH. lia. Qed.

Lemma filter_filter_and {A : Type} (p q : A -> bool) (l : list A) :
  filter p (filter q l) = filter (fun x => q x && p x) l.
Proof.
  induction l as [|x l IH]; simpl; auto.
  destruct (q x); simpl; rewrite IH; auto.
Qed.

Lemma filter_map_length {A B : Type} (p : B -> bool) (g : A -> B) l :
  length (filter p (map g l)) = length (filter (fun x => p (g x)) l).
Proof.
  induction l as [|x l IH]; simpl; auto.
  destruct (p (g x)); simpl; auto.
Qed.

Lemma nth_map_lt {A B : Type} (g : A -> B) (l : list A) n d d' :
  n < length l -> nth n (map g l) d' = g (nth n l d).
Proof.
  revert n. induction l as [|x l IH]; simpl; intros n H; [lia|].
  destruct n; auto. apply IH. lia.
Qed.

(** Rows split by a key over labels without repetition: when the label
    list covers the key of every row satisfying [P], the partitions
    together hold each such row exactly once. *)
Lemma partition_count {R : Type} (L : list value) (kf : R -> value)
  (P : R -> bool) (rs : list R) :
  NoDupA value_eq L ->
  (forall r, In r rs -> P r = true ->
             exists l, In l L /\ value_eqb (kf r) l = true) ->
  list_sum (map (fun l => length (filter (fun r => value_eqb (kf r) l && P r)
                                         rs)) L)
  = length (filter P rs).
Proof.
  intros Hnd. induction rs as [|r rs IH]; intros Hcov.
  - simpl. clear Hnd Hcov. induction L; simpl; auto.
  - rewrite (map_ext _
      (fun l => (if value_eqb (kf r) l && P r then 1 else 0)
                + length (filter (fun r0 => value_eqb (kf r0) l && P r0) rs))).
    2:{ intros l. simpl. destruct (value_eqb (kf r) l && P r); auto. }
    rewrite list_sum_map_add, IH, list_sum_indicator.
    2:{ intros r0 Hr0. apply Hcov. now right. }
    simpl. destruct (P r) eqn:HP.
    + rewrite (filter_ext _ (fun l => value_eqb (kf r) l)).
      2:{ intros l. apply andb_true_r. }
      rewrite (count_one value_eqb value_eqb_sym value_eqb_trans); auto.
      destruct (Hcov r (or_introl eq_refl) HP) as (l & Hl & Hrl). eauto.
    + rewrite (filter_ext _ (fun _ => false)).
      2:{ intros l. apply andb_false_r. }
      assert (Hnil : forall l0 : list value, filter (fun _ => false) l0 = [])
        by (induction l0; auto).
      now rewrite Hnil.
Qed.

Lemma numbers_app l1 l2 :
  numbers (l1 ++ l2)%list = (numbers l1 ++ numbers l2)%list.
Proof. unfold numbers. now rewrite flat_map_app. Qed.

Lemma qsum_app l1 l2 : (qsum (l1 ++ l2)%list == qsum l1 + qsum l2)%Q.
Proof.
  induction l1 as [|q l1 IH]; simpl.
  - now rewrite Qplus_0_l.
  - rewrite IH. now rewrite Qplus_assoc.
Qed.

Lemma qsum_count_row {A : Type} (N : A -> nat) (G : list A) :
  (qsum (numbers (map (fun c => count_value (N c)) G))
   == inject_Z (Z.of_nat (list_sum (map N G))))%Q.
Proof.
  induction G as [|c G IH]; simpl.
  - reflexivity.
  - rewrite IH, Nat2Z.inj_add, inject_Z_plus. reflexivity.
Qed.

Lemma qsum_count_table {A B : Type} (N : A -> B -> nat) (I : list A)
  (G : list B) :
  (qsum (numbers (concat (map (fun i => map (fun c => count_value (N i c)) G)
                              I)))
   == inject_Z (Z.of_nat
        (list_sum (map (fun i => list_sum (map (N i) G)) I))))%Q.
Proof.
  induction I as [|i I IH]; simpl.
  - reflexivity.
  - rewrite numbers_app, qsum_app, IH, qsum_count_row.
    rewrite Nat2Z.inj_add, inject_Z_plus. reflexivity.
Qed.

End Counting.

(* ================================================================== *)
(** * The count pivot *)

Section CountPivot.
Variable df : DataFrame.
Variable idx : string.
Variable grp : option string.
Variable val : string.

Let p := pivot_frame df idx grp val Count (VNum 0).
Let k1 (r : list value) := cell df idx r.
Let k2 (r : list value) := group_label df grp val r.

(** The rows of a partition that [count] counts. *)
Let counted (k : key) : nat :=
  length (filter (fun r => notnull (cell df val r))
                 (partition_rows df idx grp val k)).

Lemma live_count r :
  live df idx grp val Count r = notnull (k1 r) && notnull (k2 r).
Proof. unfold live. simpl. now rewrite andb_true_r. Qed.

Lemma count_cell k :
  fillna (VNum 0) (aggregate Count (partition_values df idx grp val k))
  = count_value (counted k).
Proof.
  simpl. unfold count_value, counted, count_notnull, partition_values.
  now rewrite filter_map_length.
Qed.

Lemma count_cells_eq :
  cells p =
  map (fun i => map (fun c => count_value (counted (i, c))) (column_labels p))
      (index_labels p).
Proof.
  unfold p. rewrite pivot_cells_eq.
  apply map_ext. intros i. apply map_ext. intros c. apply count_cell.
Qed.

Lemma counted_row_sum i :
  notnull i = true ->
  list_sum (map (fun c => counted (i, c)) (column_labels p))
  = length (filter (fun r => value_eqb (k1 r) i
                             && (notnull (k2 r) && notnull (cell df val r)))
                   (rows df)).
Proof.
  intros Hi.
  rewrite <- (@partition_count _ (column_labels p) k2).
  - apply f_equal. apply map_ext_in. intros c Hc.
    unfold counted, partition_rows. rewrite filter_filter_and.
    apply f_equal. apply filter_ext. intros r.
    unfold same_key, row_key. simpl. fold (k1 r) (k2 r).
    destruct (value_eqb (k2 r) c) eqn:Hk2.
    + rewrite (value_eqb_notnull _ _ Hk2).
      rewrite (@column_label_notnull _ _ _ _ _ _ Hc).
      now rewrite andb_true_r.
    + now rewrite andb_false_r.
  - apply unique_labels_NoDupA.
  - intros r Hr HP.
    apply andb_true_iff in HP as [H1 HP]. apply andb_true_iff in HP as [H2 _].
    assert (Hin : InA value_eq (k2 r) (column_labels p)).
    { apply column_labels_spec. exists r. split; auto. split.
      - rewrite live_count, H2, (value_eqb_notnull _ _ H1), Hi. reflexivity.
      - apply value_eqb_refl. }
    apply InA_alt in Hin as (c & Hc & Hin). eauto.
Qed.

Lemma counted_total :
  list_sum (map (fun i => list_sum (map (fun c => counted (i, c))
                                        (column_labels p)))
                (index_labels p))
  = length (complete_rows df idx grp val).
Proof.
  rewrite (map_ext_in _
    (fun i => length (filter
                (fun r => value_eqb (k1 r) i
                          && (notnull (k1 r)
                              && (notnull (k2 r) && notnull (cell df val r))))
                (rows df)))).
  2:{ intros i Hi.
      pose proof (@index_label_notnull _ _ _ _ _ _ Hi) as Hnn.
      rewrite (counted_row_sum i Hnn).
      apply f_equal. apply filter_ext. intros r.
      destruct (value_eqb (k1 r) i) eqn:Hk1; auto.
      now rewrite (value_eqb_notnull _ _ Hk1), Hnn. }
  rewrite (@partition_count _ (index_labels p) k1).
  - unfold complete_rows. apply f_equal. apply filter_ext. intros r.
    fold (k1 r) (k2 r). now rewrite andb_assoc.
  - apply unique_labels_NoDupA.
  - intros r Hr HP.
    apply andb_true_iff in HP as [H1 HP]. apply andb_true_iff in HP as [H2 _].
    assert (Hin : InA value_eq (k1 r) (index_labels p)).
    { apply index_labels_spec. exists r. split; auto. split.
      - rewrite live_count, H1, H2. reflexivity.
      - apply value_eqb_refl. }
    apply InA_alt in Hin as (i & Hi & Hin). eauto.
Qed.

Lemma count_total :
  (pivot_total p == inject_Z (Z.of_nat (length (complete_rows df idx grp val))))%Q.
Proof.
  unfold pivot_total. rewrite count_cells_eq.
  rewrite (qsum_count_table (fun i c => counted (i, c))).
  now rewrite counted_total.
Qed.

End CountPivot.

(* ================================================================== *)
(** * The pivot call: when it raises and when it returns *)

Section PivotCall.
Context {E : External}.

Lemma absent_key_none df idx grp :
  has_column idx df = true -> group_present df grp = true ->
  absent_key df (group_keys idx grp) = None.
Proof.
  intros Hi Hg. unfold absent_key, group_keys. simpl. rewrite Hi. simpl.
  destruct grp as [g|]; simpl in *; [rewrite Hg|]; reflexivity.
Qed.

Lemma pivot_table_ok df idx grp val f fill :
  has_column idx df = true ->
  has_column val df = true ->
  group_present df grp = true ->
  labels_distinct idx grp val = true ->
  is_numeric df val || is_count f = true ->
  pivot_table df (Some idx) grp (Some val) f fill
  = Ok (pivot_frame df idx grp val f fill).
Proof.
  intros Hi Hv Hg Hd Hn. unfold pivot_table.
  rewrite Hv, (absent_key_none df idx grp Hi Hg). simpl.
  now rewrite Hd, Hn.
Qed.

Lemma pivot_frame_shape df idx grp val f fill :
  let p := pivot_frame df idx grp val f fill in
  length (cells p) = length (index_labels p)
  /\ Forall (fun row => length row = length (column_labels p)) (cells p).
Proof.
  simpl. split.
  - now rewrite length_map.
  - apply Forall_forall. intros row H.
    apply in_map_iff in H as (i & <- & _). now rewrite length_map.
Qed.

End PivotCall.

(* ================================================================== *)
(** * Claims about the pivot *)

(** C1, as stated, fails: [count] skips missing value cells.  In the
    one-row frame whose price is missing the partition of "Tech" holds one
    source row, the cell holds 0, and the cells do not add up to the row
    count. *)
Lemma C1_count_skips_missing_values :
  exists p,
    pivot_table (E := iso_env) null_price_frame
      (Some "sector") None (Some "price") Count (VNum 0) = Ok p
    /\ length (partition_rows null_price_frame "sector" None "price"
                 (VStr "Tech", VStr "price")) = 1%nat
    /\ pivot_cell p 0 0 = VNum 0
    /\ ~ (pivot_total p
          == inject_Z (Z.of_nat (length (rows null_price_frame))))%Q.
Proof.
  eexists. split; [reflexivity|]. split; [reflexivity|].
  split; [reflexivity|]. vm_compute. discriminate.
Qed.

(** C1 (amended): in a [count] pivot each cell is the number of source
    rows of its (index, group) partition whose value cell is present; the
    cells add up to the number of source rows whose index, group and
    value cells are all present, which is the row count of the table when
    no such cell is missing. *)
Theorem C1_count_pivot {E : External} (df : DataFrame) (idx : string)
  (grp : option string) (val : string) :
  has_column idx df = true ->
  has_column val df = true ->
  group_present df grp = true ->
  labels_distinct idx grp val = true ->
  exists p,
    pivot_table df (Some idx) grp (Some val) Count (VNum 0) = Ok p
    /\ (forall a b,
          (a < length (index_labels p))%nat ->
          (b < length (column_labels p))%nat ->
          pivot_cell p a b
          = count_value
              (length
                 (filter (fun r => notnull (cell df val r))
                    (partition_rows df idx grp val
                       (nth a (index_labels p) VNull,
                        nth b (column_labels p) VNull)))))
    /\ (pivot_total p
        == inject_Z (Z.of_nat (length (complete_rows df idx grp val))))%Q
    /\ ((forall r, In r (rows df) ->
           notnull (cell df idx r) = true
           /\ notnull (group_label df grp val r) = true
           /\ notnull (cell df val r) = true) ->
        (pivot_total p == inject_Z (Z.of_nat (length (rows df))))%Q).
Proof.
  intros Hi Hv Hg Hd.
  exists (pivot_frame df idx grp val Count (VNum 0)).
  split.
  { apply pivot_table_ok; auto. apply orb_true_r. }
  split.
  { intros a b Ha Hb. unfold pivot_cell. rewrite count_cells_eq.
    rewrite (nth_map_lt _ _ VNull) by exact Ha.
    rewrite (nth_map_lt _ _ VNull) by exact Hb.
    reflexivity. }
  split.
  { apply count_total. }
  intros Hall. rewrite count_total.
  unfold complete_rows.
  rewrite forallb_filter_id; [reflexivity|].
  apply forallb_forall. intros r Hr.
  destruct (Hall r Hr) as (H1 & H2 & H3). now rewrite H1, H2, H3.
Qed.

Lemma C1_count_pivot_witness :
  exists p,
    pivot_table (E := iso_env) stocks_scenario
      (Some "sector") (Some "stock_name") (Some "price") Count (VNum 0) = Ok p
    /\ (pivot_total p == 2)%Q.
Proof.
  destruct (C1_count_pivot (E := iso_env) stocks_scenario "sector"
              (Some "stock_name") "price"
              eq_refl eq_refl eq_refl eq_refl)
    as (p & Hp & _ & Htot & _).
  exists p. split; [exact Hp | exact Htot].
Defined.






(** C4, as stated, fails: a row whose group cell is missing is in no
    partition.  "Tech" is a value of the index column, yet the pivot has
    the single row "Energy". *)
Lemma C4_index_value_without_row :
  In (VStr "Tech") (map (cell missing_name_frame "sector")
                        (rows missing_name_frame))
  /\ pivot_table (E := iso_env) missing_name_frame
       (Some "sector") (Some "stock_name") (Some "price") Sum (VNum 0)
     = Ok {| index_name := "sector";
             index_labels := [VStr "Energy"];
             column_labels := [VStr "B"];
             cells := [ [VNum 20] ] |}.
Proof. split; [left; reflexivity | reflexivity]. Qed.

(** C4 (amended): with a group column the pivot has exactly one row per
    distinct index value, and one value column per distinct group value,
    of the live source rows: those whose index and group cells are both
    present and whose partition reduces to a value that is not missing
    (every partition does under sum and count).  Every (index, group)
    combination of these labels has a cell, holding the reduction of its
    partition, and 0 where the partition has no source row. *)
Theorem C4_pivot_shape {E : External} (df : DataFrame) (idx g val : string)
  (f : aggfunc) :
  has_column idx df = true ->
  has_column val df = true ->
  has_column g df = true ->
  labels_distinct idx (Some g) val = true ->
  is_numeric df val || is_count f = true ->
  exists p,
    pivot_table df (Some idx) (Some g) (Some val) f (VNum 0) = Ok p
    /\ index_name p = idx
    /\ NoDupA value_eq (index_labels p)
    /\ (forall v, InA value_eq v (index_labels p) <->
          exists r, In r (rows df)
                    /\ live df idx (Some g) val f r = true
                    /\ value_eqb (cell df idx r) v = true)
    /\ NoDupA value_eq (column_labels p)
    /\ (forall v, InA value_eq v (column_labels p) <->
          exists r, In r (rows df)
                    /\ live df idx (Some g) val f r = true
                    /\ value_eqb (cell df g r) v = true)
    /\ length (cells p) = length (index_labels p)
    /\ Forall (fun row => length row = length (column_labels p)) (cells p)
    /\ (forall a b,
          (a < length (index_labels p))%nat ->
          (b < length (column_labels p))%nat ->
          let k := (nth a (index_labels p) VNull,
                    nth b (column_labels p) VNull) in
          pivot_cell p a b
          = fillna (VNum 0)
              (aggregate f (partition_values df idx (Some g) val k))
          /\ (partition_rows df idx (Some g) val k = [] ->
              pivot_cell p a b = VNum 0)).
Proof.
  intros Hi Hv Hg Hd Hn.
  exists (pivot_frame df idx (Some g) val f (VNum 0)).
  split; [now apply pivot_table_ok|].
  split; [reflexivity|].
  split; [apply unique_labels_NoDupA|].
  split; [apply index_labels_spec|].
  split; [apply unique_labels_NoDupA|].
  split; [apply (column_labels_spec df idx (Some g) val f)|].
  destruct (pivot_frame_shape df idx (Some g) val f (VNum 0)) as [Hl Hr].
  split; [exact Hl|]. split; [exact Hr|].
  intros a b Ha Hb k.
  assert (Hcell : pivot_cell (pivot_frame df idx (Some g) val f (VNum 0)) a b
                  = fillna (VNum 0)
                      (aggregate f (partition_values df idx (Some g) val k))).
  { unfold pivot_cell. rewrite pivot_cells_eq.
    rewrite (nth_map_lt _ _ VNull) by exact Ha.
    rewrite (nth_map_lt _ _ VNull) by exact Hb.
    reflexivity. }
  split; [exact Hcell|].
  intros Hnil. rewrite Hcell. unfold partition_values. rewrite Hnil.
  simpl. apply aggregate_nil_fill.
Qed.

Lemma C4_pivot_shape_witness :
  exists p,
    pivot_table (E := iso_env) missing_name_frame
      (Some "sector") (Some "stock_name") (Some "price") Mean (VNum 0) = Ok p
    /\ length (cells p) = length (index_labels p).
Proof.
  destruct (C4_pivot_shape (E := iso_env) missing_name_frame "sector"
              "stock_name" "price" Mean
              eq_refl eq_refl eq_refl eq_refl eq_refl)
    as (p & Hp & _ & _ & _ & _ & _ & Hlen & _).
  exists p. split; [exact Hp | exact Hlen].
Defined.

(** C8: on the two-row Stocks table of the scenario (its dates read as
    Timestamps or as text), the pivot with index [sector], no group
    column, value [price] and aggregation [sum] is the single row
    (Tech, 30) with the one value column [price]; the Pivot Workspace
    shows that frame when the request is made through its widgets. *)
Theorem C8_sum_by_sector {E : External} :
  pivot_table stocks_scenario (Some "sector") None (Some "price") Sum (VNum 0)
  = Ok sector_price_sum
  /\ pivot_table stocks_scenario_text
       (Some "sector") None (Some "price") Sum (VNum 0)
     = Ok sector_price_sum
  /\ index_labels sector_price_sum = [VStr "Tech"]
  /\ column_labels sector_price_sum = [VStr "price"]
  /\ cells sector_price_sum = [ [VNum 30] ]
  /\ In (ShowPivot sector_price_sum)
        (page (snd (tab3 scenario_ui (app_with stocks_scenario)))).
Proof.
  repeat (split; [reflexivity|]).
  unfold tab3, bind, emit, try_except, generate_pivot, lift, bind, emit.
  simpl.
  destruct (px_chart BarChart _ _ _); simpl; auto.
Qed.

(* ================================================================== *)
(** * The column selectors of the pivot workspace *)

Lemma selectbox_In {A : Type} (options : list A) (pick : nat) (x : A) :
  selectbox options pick = Some x -> In x options.
Proof.
  unfold selectbox.
  destruct (nth_error options pick) as [y|] eqn:Hn.
  - intros [= <-]. eapply nth_error_In; eauto.
  - destruct options; simpl; [discriminate|]. intros [= <-]. now left.
Qed.


Lemma has_column_In c df : In c (column_names df) -> has_column c df = true.
Proof.
  intros H. apply existsb_exists. exists c. split; auto.
  apply String.eqb_refl.
Qed.







(* ================================================================== *)
(** * The filters *)

Lemma select_rows_map (p : list value -> bool) (rs : list (list value)) :
  select_rows (map p rs) rs = filter p rs.
Proof.
  induction rs as [|r rs IH]; simpl; auto.
  destruct (p r); now rewrite IH.
Qed.

Lemma mask_and_map {A : Type} (p q : A -> bool) (l : list A) :
  mask_and (map p l) (map q l) = map (fun x => p x && q x) l.
Proof. induction l as [|x l IH]; simpl; auto. now rewrite IH. Qed.

Lemma filter_all {A : Type} (p : A -> bool) (l : list A) :
  (forall x, In x l -> p x = true) -> filter p l = l.
Proof.
  intros H. apply forallb_filter_id. now apply forallb_forall.
Qed.

Lemma find_column_has c hdr pos :
  existsb (String.eqb c) (map fst hdr) = true ->
  exists n d, find_column c hdr pos = Some (n, d).
Proof.
  revert pos. induction hdr as [|[n0 d0] hdr IH]; simpl; intros pos H.
  - discriminate.
  - destruct (String.eqb c n0); eauto.
Qed.

Lemma find_column_absent c hdr pos :
  existsb (String.eqb c) (map fst hdr) = false ->
  find_column c hdr pos = None.
Proof.
  revert pos. induction hdr as [|[n0 d0] hdr IH]; simpl; intros pos H; auto.
  destruct (String.eqb c n0); [discriminate|]. now apply IH.
Qed.

(** [df[c]] on a label that is, or is not, in the frame. *)
Lemma getitem_present df c :
  has_column c df = true ->
  exists d, column_dtype df c = Some d
            /\ getitem df c
               = Ok {| s_dtype := d; s_values := map (cell df c) (rows df) |}.
Proof.
  intros H. unfold getitem, column_dtype.
  destruct (find_column_has c (columns df) 0 H) as (n & d & ->).
  exists d. auto.
Qed.

Lemma getitem_absent df c :
  has_column c df = false -> getitem df c = Raise (KeyError c).
Proof.
  intros H. unfold getitem.
  now rewrite (find_column_absent c (columns df) 0 H).
Qed.

(** Selecting by [isin] keeps the rows whose cell is among the values. *)
Lemma getitem_mask_isin df c d vals :
  getitem_mask df
    (isin {| s_dtype := d; s_values := map (cell df c) (rows df) |} vals)
  = keep (row_isin df c vals) df.
Proof.
  unfold getitem_mask, isin, keep, row_isin. simpl.
  rewrite map_map. now rewrite select_rows_map.
Qed.

Lemma keep_all (p : list value -> bool) df :
  (forall r, In r (rows df) -> p r = true) -> keep p df = df.
Proof.
  intros H. unfold keep. rewrite (filter_all _ _ H). now destruct df.
Qed.

Lemma compare_cells_ok op name t vs bs :
  compare_cells op name t vs = Ok bs ->
  forallb comparable vs = true /\ bs = map (cmp_date op t) vs.
Proof.
  revert bs. induction vs as [|v vs IH]; simpl; intros bs H.
  - now inversion H.
  - destruct v; simpl in H; try discriminate;
      destruct (compare_cells op name t vs) as [bs'|]; try discriminate;
      inversion H; subst; destruct (IH bs' eq_refl) as [Hc ->]; auto.
Qed.

Lemma compare_cells_comparable op name t vs :
  forallb comparable vs = true ->
  compare_cells op name t vs = Ok (map (cmp_date op t) vs).
Proof.
  induction vs as [|v vs IH]; simpl; intros H; auto.
  apply andb_true_iff in H as [Hv Hvs].
  destruct v; simpl in *; try discriminate; now rewrite (IH Hvs).
Qed.

Lemma sub_frame_refl a : sub_frame a a.
Proof. split; [reflexivity | apply incl_refl]. Qed.

Lemma sub_frame_trans a b c : sub_frame a b -> sub_frame b c -> sub_frame a c.
Proof.
  intros [H1 H2] [H3 H4]. split; [congruence | eapply incl_tran; eauto].
Qed.

Lemma sub_frame_keep p df : sub_frame (keep p df) df.
Proof.
  split; [reflexivity|]. intros r Hr. now apply filter_In in Hr.
Qed.

Lemma has_column_hdr a b c :
  columns a = columns b -> has_column c a = has_column c b.
Proof. unfold has_column, column_names. now intros ->. Qed.

Lemma cell_hdr a b c r : columns a = columns b -> cell a c r = cell b c r.
Proof. unfold cell. now intros ->. Qed.

Lemma column_dtype_hdr a b c :
  columns a = columns b -> column_dtype a c = column_dtype b c.
Proof. unfold column_dtype. now intros ->. Qed.

(** ** A membership stage *)

Lemma isin_stage_ok c vals df df1 :
  isin_stage c vals df = Ok df1 ->
  (truthy vals = false /\ df1 = df)
  \/ (truthy vals = true /\ has_column c df = true
      /\ df1 = keep (row_isin df c vals) df).
Proof.
  unfold isin_stage. destruct (truthy vals); [|intros [= <-]; auto].
  destruct (has_column c df) eqn:Hc.
  - destruct (getitem_present df c Hc) as (d & _ & ->).
    rewrite getitem_mask_isin. intros [= <-]. right. auto.
  - now rewrite (getitem_absent df c Hc).
Qed.

Lemma isin_stage_sub c vals df df1 :
  isin_stage c vals df = Ok df1 -> sub_frame df1 df.
Proof.
  intros H. apply isin_stage_ok in H as [[_ ->]|(_ & _ & ->)].
  - apply sub_frame_refl.
  - apply sub_frame_keep.
Qed.

(** A frame that holds only rows the stage has kept passes the stage
    unchanged. *)
Lemma isin_stage_stable c vals df df1 df2 :
  isin_stage c vals df = Ok df1 -> sub_frame df2 df1 ->
  isin_stage c vals df2 = Ok df2.
Proof.
  intros H [Hhdr Hrows].
  apply isin_stage_ok in H as [[Ht ->]|(Ht & Hc & ->)];
    unfold isin_stage; rewrite Ht; auto.
  simpl in Hhdr.
  rewrite <- (has_column_hdr df2 df c Hhdr) in Hc.
  destruct (getitem_present df2 c Hc) as (d & _ & ->).
  rewrite getitem_mask_isin. f_equal. apply keep_all.
  intros r Hr. apply Hrows in Hr. simpl in Hr. apply filter_In in Hr as [_ Hr].
  unfold row_isin in *. now rewrite (cell_hdr df2 df c r Hhdr).
Qed.

(** ** The date-range stage *)

Lemma compare_timestamp_ok op name s t bs :
  compare_timestamp op name s t = Ok bs ->
  s_dtype s <> DNumber
  /\ forallb comparable (s_values s) = true
  /\ bs = map (cmp_date op t) (s_values s).
Proof.
  unfold compare_timestamp. intros H.
  destruct (s_dtype s); try discriminate;
    (split; [discriminate | now apply compare_cells_ok in H]).
Qed.

Lemma compare_timestamp_comparable op name s t :
  s_dtype s <> DNumber ->
  forallb comparable (s_values s) = true ->
  compare_timestamp op name s t = Ok (map (cmp_date op t) (s_values s)).
Proof.
  unfold compare_timestamp. intros Hd Hc.
  destruct (s_dtype s); try contradiction;
    now apply compare_cells_comparable.
Qed.

Lemma range_stage_ok d0 d1 df df1 :
  range_stage (DateTuple [d0; d1]) df = Ok df1 ->
  (exists d, column_dtype df "date" = Some d /\ d <> DNumber)
  /\ forallb comparable (map (cell df "date") (rows df)) = true
  /\ df1 = keep (fun r => in_range (timestamp_of_date d0)
                            (timestamp_of_date d1) (cell df "date" r)) df.
Proof.
  unfold range_stage.
  destruct (has_column "date" df) eqn:Hc.
  2:{ now rewrite (getitem_absent df "date" Hc). }
  destruct (getitem_present df "date" Hc) as (d & Hd & ->).
  unfold series_ge, series_le.
  destruct (compare_timestamp Z.geb ">=" _ _) as [m1|] eqn:H1; [|discriminate].
  destruct (compare_timestamp Z.leb "<=" _ _) as [m2|] eqn:H2; [|discriminate].
  apply compare_timestamp_ok in H1 as (Hnum & Hcmp & ->).
  apply compare_timestamp_ok in H2 as (_ & _ & ->).
  simpl in *. intros [= <-].
  split; [eauto|]. split; [exact Hcmp|].
  unfold getitem_mask, keep. f_equal.
  rewrite mask_and_map, map_map, select_rows_map. reflexivity.
Qed.

Lemma range_stage_run d0 d1 df d :
  column_dtype df "date" = Some d -> d <> DNumber ->
  forallb comparable (map (cell df "date") (rows df)) = true ->
  range_stage (DateTuple [d0; d1]) df
  = Ok (keep (fun r => in_range (timestamp_of_date d0)
                         (timestamp_of_date d1) (cell df "date" r)) df).
Proof.
  intros Hd Hnum Hcmp. unfold range_stage, getitem.
  unfold column_dtype in Hd.
  destruct (find_column "date" (columns df) 0) as [[n d']|] eqn:Hf;
    [|discriminate].
  simpl in Hd. injection Hd as ->.
  unfold series_ge, series_le.
  rewrite !compare_timestamp_comparable by (simpl; auto).
  simpl. unfold getitem_mask, keep. do 2 f_equal.
  rewrite mask_and_map, map_map, select_rows_map. reflexivity.
Qed.

Lemma range_stage_sub dr df df1 :
  range_stage dr df = Ok df1 -> sub_frame df1 df.
Proof.
  destruct dr as [d|[|d0 [|d1 [|d2 ds]]]];
    try (intros [= <-]; apply sub_frame_refl).
  intros H. apply range_stage_ok in H as (_ & _ & ->). apply sub_frame_keep.
Qed.

Lemma range_stage_stable dr df df1 df2 :
  range_stage dr df = Ok df1 -> sub_frame df2 df1 ->
  range_stage dr df2 = Ok df2.
Proof.
  destruct dr as [d|[|d0 [|d1 [|d2 ds]]]]; try reflexivity.
  intros H [Hhdr Hrows].
  apply range_stage_ok in H as ((d & Hd & Hnum) & Hcmp & ->).
  simpl in Hhdr.
  rewrite (range_stage_run d0 d1 df2 (d := d)); auto.
  - f_equal. apply keep_all. intros r Hr.
    apply Hrows in Hr. simpl in Hr. apply filter_In in Hr as [_ Hr].
    now rewrite (cell_hdr df2 df "date" r Hhdr).
  - now rewrite (column_dtype_hdr df2 df "date" Hhdr).
  - apply forallb_forall. intros v Hv.
    apply in_map_iff in Hv as (r & <- & Hr).
    apply Hrows in Hr. simpl in Hr. apply filter_In in Hr as [Hr _].
    rewrite (cell_hdr df2 df "date" r Hhdr).
    rewrite forallb_forall in Hcmp. apply Hcmp. now apply in_map.
Qed.

(** ** The news filters *)

Lemma guarded_isin_sub c vals df : sub_frame (guarded_isin c vals df) df.
Proof.
  unfold guarded_isin.
  destruct (truthy vals && has_column c df);
    [apply sub_frame_keep | apply sub_frame_refl].
Qed.

Lemma guarded_isin_stable c vals df df2 :
  sub_frame df2 (guarded_isin c vals df) -> guarded_isin c vals df2 = df2.
Proof.
  intros [Hhdr Hrows]. unfold guarded_isin in *.
  destruct (truthy vals); simpl in *; auto.
  destruct (has_column c df) eqn:Hc; simpl in Hhdr;
    rewrite (has_column_hdr df2 df c Hhdr), Hc; auto.
  apply keep_all. intros r Hr. apply Hrows in Hr. simpl in Hr.
  apply filter_In in Hr as [_ Hr].
  unfold row_isin in *. now rewrite (cell_hdr df2 df c r Hhdr).
Qed.

Section FilterRuns.
Context {E : External}.

Lemma guarded_step_run c vals df (st : App) :
  (if truthy vals && has_column c df then
     s <- lift (getitem df c) ;;
     ret (getitem_mask df (isin s vals))
   else ret df) st
  = (Ok (guarded_isin c vals df), st).
Proof.
  unfold guarded_isin.
  destruct (truthy vals); simpl; auto.
  destruct (has_column c df) eqn:Hc; simpl; auto.
  destruct (getitem_present df c Hc) as (d & _ & Hg).
  unfold bind, lift, ret. rewrite Hg. now rewrite getitem_mask_isin.
Qed.

(** The news filters never raise and leave the state as it is. *)
Lemma tab1_filters_run categories sectors st :
  tab1_filters categories sectors st
  = (Ok (news_kept categories sectors (df_news st)), st).
Proof.
  unfold tab1_filters, news_kept, get_news, copy.
  unfold bind at 1. unfold bind at 1. rewrite guarded_step_run.
  unfold bind at 1. rewrite guarded_step_run. reflexivity.
Qed.

Lemma isin_step_run c vals df (st : App) :
  (if truthy vals then
     s <- lift (getitem df c) ;;
     ret (getitem_mask df (isin s vals))
   else ret df) st
  = (isin_stage c vals df, st).
Proof.
  unfold isin_stage, bind, lift, ret.
  destruct (truthy vals); auto. destruct (getitem df c); auto.
Qed.

Lemma range_step_run dr df (st : App) :
  match dr with
  | DateTuple [d0; d1] =>
      let start := timestamp_of_date d0 in
      let end_ := timestamp_of_date d1 in
      s1 <- lift (getitem df "date") ;;
      m1 <- lift (series_ge s1 start) ;;
      s2 <- lift (getitem df "date") ;;
      m2 <- lift (series_le s2 end_) ;;
      ret (getitem_mask df (mask_and m1 m2))
  | _ => ret df
  end st
  = (range_stage dr df, st).
Proof.
  destruct dr as [d|[|d0 [|d1 [|d2 ds]]]]; try reflexivity.
  unfold range_stage, bind, lift, ret.
  destruct (getitem df "date") as [s|]; auto.
  destruct (series_ge s _); auto. destruct (series_le s _); auto.
Qed.

(** What the stock filters return. *)
Lemma tab2_filters_fst ss ns dr st :
  fst (tab2_filters ss ns dr st) = stocks_stages ss ns dr (df_stocks st).
Proof.
  unfold tab2_filters, stocks_stages, get_stocks, copy.
  unfold bind at 1. unfold bind at 1. rewrite isin_step_run.
  destruct (isin_stage "sector" ss (df_stocks st)) as [f1|]; auto.
  unfold bind at 1. rewrite isin_step_run.
  destruct (isin_stage "stock_name" ns f1) as [f2|]; auto.
  destruct (has_column "date" (df_stocks st)) eqn:Hc; auto.
  destruct (getitem_present (df_stocks st) "date" Hc) as (d & _ & Hg).
  unfold bind at 1. unfold lift at 1. rewrite Hg.
  unfold bind at 1. unfold set_stocks at 1.
  now rewrite range_step_run.
Qed.

(** The state the stock filters leave behind once the membership
    filters have passed: the [date] column of [df_stocks] is replaced by
    its coerced values whenever the frame has one. *)
Lemma tab2_filters_snd ss ns dr st f1 f2 :
  isin_stage "sector" ss (df_stocks st) = Ok f1 ->
  isin_stage "stock_name" ns f1 = Ok f2 ->
  snd (tab2_filters ss ns dr st)
  = if has_column "date" (df_stocks st) then
      with_stocks st
        (setitem (df_stocks st) "date"
           (to_datetime
              {| s_dtype := match column_dtype (df_stocks st) "date" with
                            | Some d => d
                            | None => DObject
                            end;
                 s_values := map (cell (df_stocks st) "date")
                                 (rows (df_stocks st)) |}))
    else st.
Proof.
  intros H1 H2.
  unfold tab2_filters, get_stocks, copy.
  unfold bind at 1. unfold bind at 1. rewrite isin_step_run, H1.
  unfold bind at 1. rewrite isin_step_run, H2.
  destruct (has_column "date" (df_stocks st)) eqn:Hc; auto.
  destruct (getitem_present (df_stocks st) "date" Hc) as (d & Hd & Hg).
  unfold bind at 1. unfold lift at 1. rewrite Hg, Hd.
  unfold bind at 1. unfold set_stocks at 1.
  now rewrite range_step_run.
Qed.

End FilterRuns.

(* ================================================================== *)
(** * Claims about the filters *)

(** C7: when nothing is selected in any membership filter and the date
    picker does not hold a (start, end) pair, the news filters return the
    News table and the stock filters return the Stocks table as it was
    when they started. *)
Theorem C7_inert_filters_are_identity {E : External} (st : App)
  (dr : date_input_value) :
  is_range dr = false ->
  tab1_filters [] [] st = (Ok (df_news st), st)
  /\ fst (tab2_filters [] [] dr st) = Ok (df_stocks st).
Proof.
  intros Hdr. split.
  - now rewrite tab1_filters_run.
  - rewrite tab2_filters_fst. unfold stocks_stages. simpl.
    destruct (has_column "date" (df_stocks st)); auto.
    destruct dr as [d|[|d0 [|d1 [|d2 ds]]]]; try reflexivity.
    discriminate.
Qed.

Lemma C7_inert_filters_are_identity_witness :
  fst (tab2_filters (E := iso_env) [] [] (DateTuple [])
         (app_with stocks_scenario_text))
  = Ok stocks_scenario_text.
Proof.
  exact (proj2 (C7_inert_filters_are_identity (E := iso_env)
                  (app_with stocks_scenario_text) (DateTuple []) eq_refl)).
Defined.

(** C9: filtering is idempotent.  The news filters always return a
    table, and run again on that table with the same selections they
    return it unchanged; whenever the stock filters return a table, run
    again on that table with the same selections and date range they
    return it unchanged. *)
Theorem C9_filters_are_idempotent {E : External}
  (categories sectors stock_sectors stock_names : list value)
  (dr : date_input_value) (st : App) :
  (exists T,
     fst (tab1_filters categories sectors st) = Ok T
     /\ fst (tab1_filters categories sectors (with_news st T)) = Ok T)
  /\ (forall T,
        fst (tab2_filters stock_sectors stock_names dr st) = Ok T ->
        fst (tab2_filters stock_sectors stock_names dr (with_stocks st T))
        = Ok T).
Proof.
  split.
  - exists (news_kept categories sectors (df_news st)).
    rewrite !tab1_filters_run. simpl. split; auto. f_equal.
    unfold news_kept.
    set (X := guarded_isin "category" categories (df_news st)).
    set (Y := guarded_isin "sector" sectors X).
    rewrite (@guarded_isin_stable "category" categories (df_news st) Y)
      by apply guarded_isin_sub.
    apply (@guarded_isin_stable "sector" sectors X Y). apply sub_frame_refl.
  - intros T. rewrite !tab2_filters_fst. simpl.
    unfold stocks_stages. intros H.
    destruct (isin_stage "sector" stock_sectors (df_stocks st))
      as [f1|] eqn:H1; [|discriminate].
    destruct (isin_stage "stock_name" stock_names f1)
      as [f2|] eqn:H2; [|discriminate].
    assert (S1 : sub_frame f1 (df_stocks st)) by (eapply isin_stage_sub; eauto).
    assert (S2 : sub_frame f2 f1) by (eapply isin_stage_sub; eauto).
    assert (S3 : sub_frame T f2).
    { destruct (has_column "date" (df_stocks st)).
      - eapply range_stage_sub; eauto.
      - injection H as <-. apply sub_frame_refl. }
    rewrite (@isin_stage_stable _ _ _ _ _ H1 (sub_frame_trans S3 S2)).
    rewrite (@isin_stage_stable _ _ _ _ _ H2 S3).
    rewrite (has_column_hdr T (df_stocks st) "date").
    2:{ destruct S1, S2, S3. congruence. }
    destruct (has_column "date" (df_stocks st)); auto.
    eapply range_stage_stable; eauto. apply sub_frame_refl.
Qed.

Lemma C9_filters_are_idempotent_witness :
  fst (tab2_filters (E := iso_env) [VStr "Tech"] [VStr "B"]
         (DateTuple [jan2; jan2]) (app_with scenario_B_row))
  = Ok scenario_B_row.
Proof.
  exact (proj2 (C9_filters_are_idempotent (E := iso_env) [] []
                  [VStr "Tech"] [VStr "B"] (DateTuple [jan2; jan2])
                  (app_with stocks_scenario))
               scenario_B_row eq_refl).
Defined.

(** When the [date] column already holds Timestamps (or missing cells),
    the date-range filter keeps exactly the rows of the membership
    filters whose date lies within the range. *)
Lemma date_filter_on_timestamps {E : External} ss ns d0 d1 st f1 f2 :
  isin_stage "sector" ss (df_stocks st) = Ok f1 ->
  isin_stage "stock_name" ns f1 = Ok f2 ->
  column_dtype (df_stocks st) "date" = Some DDatetime ->
  forallb comparable (map (cell (df_stocks st) "date") (rows (df_stocks st)))
  = true ->
  fst (tab2_filters ss ns (DateTuple [d0; d1]) st)
  = Ok (keep (fun r => in_range (timestamp_of_date d0) (timestamp_of_date d1)
                         (cell (df_stocks st) "date" r)) f2).
Proof.
  intros H1 H2 Hd Hcmp.
  rewrite tab2_filters_fst. unfold stocks_stages. rewrite H1, H2.
  assert (S : sub_frame f2 (df_stocks st)).
  { eapply sub_frame_trans; eapply isin_stage_sub; eauto. }
  destruct S as [Hhdr Hrows].
  assert (Hc : has_column "date" (df_stocks st) = true).
  { unfold column_dtype in Hd. unfold has_column.
    destruct (existsb (String.eqb "date") (column_names (df_stocks st)))
      eqn:Hex; auto.
    unfold column_names in Hex.
    now rewrite (find_column_absent _ _ 0 Hex) in Hd. }
  rewrite Hc.
  rewrite (range_stage_run d0 d1 f2 (d := DDatetime)).
  - f_equal. unfold keep. f_equal. apply filter_ext. intros r.
    now rewrite (cell_hdr f2 (df_stocks st) "date" r Hhdr).
  - now rewrite (column_dtype_hdr f2 (df_stocks st) "date" Hhdr).
  - discriminate.
  - apply forallb_forall. intros v Hv.
    apply in_map_iff in Hv as (r & <- & Hr). apply Hrows in Hr.
    rewrite (cell_hdr f2 (df_stocks st) "date" r Hhdr).
    rewrite forallb_forall in Hcmp. apply Hcmp. now apply in_map.
Qed.

(** C5, at the failing input: on the scenario table with its dates held
    as text, the date range [2024-01-02, 2024-01-02] makes the stock
    filters raise a TypeError: line 86 coerces the [date] column of
    [df_stocks], line 92 compares the column of the copy taken at line
    78, which still holds the strings.  With the dates held as
    Timestamps the same range returns exactly the "B" row. *)
Theorem C5_text_dates_are_not_coerced {E : External} :
  fst (tab2_filters [] [] (DateTuple [jan2; jan2])
         (app_with stocks_scenario_text))
  = Raise (TypeError
      "'>=' not supported between instances of 'str' and 'Timestamp'")
  /\ fst (tab2_filters [] [] (DateTuple [jan2; jan2])
            (app_with stocks_scenario))
     = Ok scenario_B_row.
Proof. split; reflexivity. Qed.

(** C2, at the failing input: running the stock filters on the scenario
    table with text dates replaces the [date] column of the source table
    [df_stocks] by a datetime column (the two Timestamps, when ISO dates
    are parsed), so the source table is not what it was; the returned
    table still holds the text dates. *)
Theorem C2_stock_filters_rewrite_source {E : External} :
  let st := app_with stocks_scenario_text in
  let out := tab2_filters [] [] (DateTuple []) st in
  fst out = Ok stocks_scenario_text
  /\ columns (df_stocks (snd out)) = stocks_header DDatetime
  /\ df_stocks (snd out) <> df_stocks st
  /\ df_stocks (snd (tab2_filters (E := iso_env) [] [] (DateTuple []) st))
     = stocks_scenario_coerced.
Proof.
  repeat split.
  intros H. apply (f_equal columns) in H. discriminate.
Qed.

(** The parts of the state the filters do leave alone: the news filters
    change nothing, and the stock filters change nothing but the [date]
    column of [df_stocks]. *)
Lemma filters_frame {E : External} categories sectors ss ns dr st :
  snd (tab1_filters categories sectors st) = st
  /\ (forall f1 f2,
        isin_stage "sector" ss (df_stocks st) = Ok f1 ->
        isin_stage "stock_name" ns f1 = Ok f2 ->
        df_news (snd (tab2_filters ss ns dr st)) = df_news st
        /\ page (snd (tab2_filters ss ns dr st)) = page st
        /\ (has_column "date" (df_stocks st) = false ->
            snd (tab2_filters ss ns dr st) = st)).
Proof.
  split.
  - now rewrite tab1_filters_run.
  - intros f1 f2 H1 H2. rewrite (@tab2_filters_snd _ _ _ dr _ _ _ H1 H2).
    destruct (has_column "date" (df_stocks st)); auto.
    repeat split; auto. discriminate.
Qed.

(* ================================================================== *)
(** * The pivot workspace and its [except] branch *)

Section Workspace.
Context {E : External}.

Lemma emit_run e st : emit e st = (Ok tt, with_page st (page st ++ [e])).
Proof. reflexivity. Qed.

(** The body of the [try]: what it has put on the page when it ends,
    normally or not. *)
Lemma generate_pivot_run df index columns values f kind st :
  generate_pivot df index columns values f kind st =
  match pivot_table df index (if_truthy columns) values f (VNum 0) with
  | Raise e => (Raise e, st)
  | Ok p =>
      let shown := [Subheader "📋 Pivot Table Result"; ShowPivot p;
                    Subheader "📊 Visualization"] in
      match px_chart kind p index (plot_y_of columns values p) with
      | Raise e => (Raise e, with_page st (page st ++ shown))
      | Ok fig => (Ok tt, with_page st (page st ++ shown ++ [PlotlyChart fig]))
      end
  end.
Proof.
  unfold generate_pivot, plot_y_of, bind, lift.
  destruct (pivot_table df index (if_truthy columns) values f (VNum 0))
    as [p|e]; auto.
  rewrite !emit_run. simpl.
  destruct (if_truthy columns);
    (destruct (px_chart kind p index _) as [fig|e];
     [rewrite emit_run|]; unfold with_page; simpl;
     now rewrite <- !app_assoc).
Qed.

End Workspace.

(** C6: the pivot workspace never ends with an exception and never
    changes the two source tables; what was on the page before stays
    there, the tab only appends.  When the pivot call fails, for whatever
    reason, the tab shows the message "Error generating pivot: ..." with
    the text of the exception right after its header; when the chart call
    fails, the message follows the pivot frame already shown. *)
Theorem C6_pivot_failure_is_contained {E : External} (ui : PivotUI)
  (st : App) :
  let df := source_of ui st in
  let index := index_of ui df in
  let columns := columns_of ui df in
  let values := values_of ui df in
  let header := Header "📊 Pivot Table Workspace" in
  let message e := ErrorMsg ("Error generating pivot: " ++ exn_str e) in
  (exists out, tab3 ui st = (Ok tt, with_page st (page st ++ header :: out)))
  /\ (forall e,
        empty df = false -> generate ui = true ->
        pivot_table df index (if_truthy columns) values (aggfunc_choice ui)
          (VNum 0) = Raise e ->
        tab3 ui st
        = (Ok tt, with_page st (page st ++ [header; message e])))
  /\ (forall p e,
        empty df = false -> generate ui = true ->
        pivot_table df index (if_truthy columns) values (aggfunc_choice ui)
          (VNum 0) = Ok p ->
        px_chart (chart_type ui) p index (plot_y_of columns values p)
        = Raise e ->
        tab3 ui st
        = (Ok tt,
           with_page st
             (page st ++ [header; Subheader "📋 Pivot Table Result";
                          ShowPivot p; Subheader "📊 Visualization";
                          message e]))).
Proof.
  intros df index columns values header message.
  assert (Hrun : tab3 ui st =
    if empty df then
      (Ok tt, with_page st (page st ++ [header; Warning "Selected dataset is empty."]))
    else if generate ui then
      try_except
        (generate_pivot df index columns values (aggfunc_choice ui)
           (chart_type ui))
        (fun e => emit (message e))
        (with_page st (page st ++ [header]))
    else (Ok tt, with_page st (page st ++ [header]))).
  { assert (Hsrc : forall pg, source_of ui (with_page st pg) = df).
    { intros pg. unfold df, source_of.
      destruct (dataset_choice ui); reflexivity. }
    unfold tab3, bind. rewrite emit_run. cbv beta iota. rewrite !Hsrc.
    destruct (empty df).
    - rewrite emit_run. unfold with_page. simpl. now rewrite <- app_assoc.
    - destruct (generate ui); reflexivity. }
  rewrite Hrun. unfold try_except. rewrite generate_pivot_run.
  split; [|split].
  - destruct (empty df); [eauto|].
    destruct (generate ui); [|exists []; reflexivity].
    destruct (pivot_table df index (if_truthy columns) values
                (aggfunc_choice ui) (VNum 0)) as [p|e].
    + simpl.
      destruct (px_chart (chart_type ui) p index (plot_y_of columns values p))
        as [fig|e].
      * eexists. unfold with_page. simpl. rewrite <- app_assoc. reflexivity.
      * eexists. rewrite emit_run. unfold with_page. simpl.
        rewrite <- !app_assoc. reflexivity.
    + eexists. rewrite emit_run. unfold with_page. simpl.
      rewrite <- app_assoc. reflexivity.
  - intros e -> -> ->. rewrite emit_run. unfold with_page. simpl.
    now rewrite <- app_assoc.
  - intros p e -> -> -> ->. simpl. rewrite emit_run. unfold with_page. simpl.
    now rewrite <- !app_assoc.
Qed.

Lemma C6_pivot_failure_is_contained_witness :
  tab3 (E := iso_env) scenario_ui (app_with names_only)
  = (Ok tt,
     with_page (app_with names_only)
       [Header "📊 Pivot Table Workspace";
        ErrorMsg "Error generating pivot: agg function failed"]).
Proof.
  exact (proj1 (proj2 (C6_pivot_failure_is_contained (E := iso_env)
                         scenario_ui (app_with names_only)))
               (TypeError "agg function failed") eq_refl eq_refl eq_refl).
Defined.

(* ================================================================== *)
(** * What the selectors of the workspace can ask for *)

Section WorkspaceRuns.
Context {E : External}.




End WorkspaceRuns.




(* ================================================================== *)
(** * Sorted output *)

Lemma value_leb_total a b : value_leb a b = false -> value_leb b a = true.
Proof.
  destruct a, b; simpl; try discriminate; auto.
  - intros H. apply Qle_bool_iff.
    destruct (Qlt_le_dec q0 q) as [Hlt|Hle].
    + now apply Qlt_le_weak.
    + apply Qle_bool_iff in Hle. congruence.
  - intros H. destruct (String.leb_total s s0); congruence.
  - intros H. apply Z.leb_gt in H. apply Z.leb_le. lia.
Qed.

Section InsertionSort.
Variable A : Type.
Variable leb : A -> A -> bool.
Hypothesis leb_total : forall x y, leb x y = false -> leb y x = true.

Let le (x y : A) : Prop := leb x y = true.

Lemma insert_sorted_HdRel a x l :
  le a x -> HdRel le a l -> HdRel le a (insert_sorted leb x l).
Proof.
  intros Hax Hl. destruct l as [|y l]; simpl.
  - now constructor.
  - destruct (leb x y); constructor; auto. now inversion Hl.
Qed.

Lemma insert_sorted_Sorted x l :
  Sorted le l -> Sorted le (insert_sorted leb x l).
Proof.
  induction 1 as [|y l Hs IH Hhd]; simpl.
  - repeat constructor.
  - destruct (leb x y) eqn:Hxy.
    + constructor; [now constructor | now constructor].
    + constructor; auto.
      apply insert_sorted_HdRel; auto. now apply leb_total.
Qed.

Lemma sort_Sorted l : Sorted le (sort leb l).
Proof.
  induction l as [|x l IH]; simpl; [constructor|].
  now apply insert_sorted_Sorted.
Qed.

End InsertionSort.

Lemma unique_labels_Sorted l : Sorted value_le (unique_labels l).
Proof. apply sort_Sorted. exact value_leb_total. Qed.

(* ================================================================== *)
(** * The option lists of the membership filters *)

Lemma same_kind_eqb a b : value_eqb a b = true -> kind_rank a = kind_rank b.
Proof. destruct a, b; simpl; auto; discriminate. Qed.

Lemma py_sorted_ok vs opts :
  py_sorted vs = Ok opts -> opts = sort value_leb vs.
Proof.
  unfold py_sorted. destruct vs as [|v vs']; [now intros [= <-]|].
  destruct (forallb (same_kind v) vs'); [now intros [= <-] | discriminate].
Qed.

(** [sorted] returns exactly when all cells are of one kind. *)
Lemma py_sorted_returns vs :
  (exists opts, py_sorted vs = Ok opts) <->
  (forall a b, In a vs -> In b vs -> same_kind a b = true).
Proof.
  unfold py_sorted. destruct vs as [|v vs']; [split; eauto; intros _ a b []|].
  destruct (forallb (same_kind v) vs') eqn:Hall; split.
  - intros _ a b Ha Hb. rewrite forallb_forall in Hall.
    assert (Hk : forall x, In x (v :: vs') -> kind_rank v = kind_rank x).
    { intros x [<-|Hx]; auto. apply Hall in Hx. unfold same_kind in Hx. lia. }
    unfold same_kind. rewrite <- (Hk a Ha), <- (Hk b Hb). apply Z.eqb_refl.
  - eauto.
  - intros (opts & H). discriminate.
  - intros H. exfalso.
    assert (Hall' : forallb (same_kind v) vs' = true).
    { apply forallb_forall. intros x Hx. apply H; [now left | now right]. }
    congruence.
Qed.

Lemma py_sorted_raises vs e :
  py_sorted vs = Raise e -> exists msg, e = TypeError msg.
Proof.
  unfold py_sorted. destruct vs as [|v vs']; [discriminate|].
  destruct (forallb (same_kind v) vs'); [discriminate|].
  intros [= <-]. eauto.
Qed.

(** The cells the options are drawn from. *)
Lemma unique_dropna_In df c v :
  In v (unique (dropna (map (cell df c) (rows df)))) ->
  notnull v = true /\ exists r, In r (rows df) /\ cell df c r = v.
Proof.
  intros H. apply distinct_incl in H. apply filter_In in H as [H Hnn].
  apply in_map_iff in H as (r & <- & Hr). eauto.
Qed.

Lemma unique_dropna_cover df c r :
  In r (rows df) -> notnull (cell df c r) = true ->
  exists y, In y (unique (dropna (map (cell df c) (rows df))))
            /\ value_eqb y (cell df c r) = true.
Proof.
  intros Hr Hnn.
  apply (distinct_cover value_eqb value_eqb_refl value_eqb_trans).
  apply filter_In. split; auto. now apply in_map.
Qed.

Lemma filter_options_unfold df c :
  filter_options df c =
  if has_column c df
  then py_sorted (unique (dropna (map (cell df c) (rows df))))
  else Ok [].
Proof.
  unfold filter_options, column_options.
  destruct (has_column c df) eqn:Hc; auto.
  now destruct (getitem_present df c Hc) as (d & _ & ->).
Qed.

Lemma filter_options_raises df c e :
  filter_options df c = Raise e -> exists msg, e = TypeError msg.
Proof.
  rewrite filter_options_unfold.
  destruct (has_column c df); [apply py_sorted_raises | discriminate].
Qed.

(** X1: when the option list of a membership filter is built, it is in
    ascending order, holds no value twice, and holds exactly the values
    of the column that are not missing (nothing when the column is
    absent). *)
Theorem X1_filter_options_sorted_exact (df : DataFrame) (c : string)
  (opts : list value) :
  filter_options df c = Ok opts ->
  Sorted value_le opts
  /\ NoDupA value_eq opts
  /\ (forall v, InA value_eq v opts <->
                notnull v = true
                /\ exists r, In r (rows df)
                             /\ value_eqb (cell df c r) v = true).
Proof.
  rewrite filter_options_unfold.
  destruct (has_column c df) eqn:Hc.
  - intros H. apply py_sorted_ok in H. subst opts.
    fold (unique_labels (dropna (map (cell df c) (rows df)))).
    split; [apply unique_labels_Sorted|].
    split; [apply unique_labels_NoDupA|].
    intros v. split.
    + intros Hin. apply InA_alt in Hin as (y & Hvy & Hy).
      apply unique_labels_In in Hy. apply filter_In in Hy as [Hy Hnn].
      apply in_map_iff in Hy as (r & <- & Hr).
      split.
      * now rewrite (value_eqb_notnull _ _ Hvy).
      * exists r. split; auto. now apply value_eqb_sym.
    + intros (Hnn & r & Hr & Hrv).
      destruct (unique_labels_cover (dropna (map (cell df c) (rows df)))
                  (cell df c r)) as (y & Hy & Hyr).
      { apply filter_In. split; [now apply in_map|].
        now rewrite (value_eqb_notnull _ _ Hrv). }
      apply InA_alt. exists y. split; auto.
      unfold value_eq. apply value_eqb_sym. eapply value_eqb_trans; eauto.
  - intros [= <-]. split; [constructor|]. split; [constructor|].
    intros v. split.
    + intros Hin. inversion Hin.
    + intros (Hnn & r & _ & Hrv). exfalso.
      unfold cell in Hrv. unfold has_column, column_names in Hc.
      rewrite (find_column_absent c (columns df) 0 Hc) in Hrv.
      destruct v; simpl in *; discriminate.
Qed.

Lemma X1_filter_options_sorted_exact_witness :
  Sorted value_le [VStr "Earnings"; VStr "Macro"].
Proof.
  exact (proj1 (X1_filter_options_sorted_exact news_example "category"
                  eq_refl)).
Defined.

(** X2: building the option list never raises a KeyError; it raises (a
    TypeError, from [sorted]) exactly when the column holds two cells of
    different kinds among number, string and Timestamp. *)
Theorem X2_filter_options_raise_on_mixed_kinds (df : DataFrame) (c : string) :
  (forall e, filter_options df c = Raise e -> exists msg, e = TypeError msg)
  /\ ((exists e, filter_options df c = Raise e) <->
      exists r1 r2,
        In r1 (rows df) /\ In r2 (rows df)
        /\ notnull (cell df c r1) = true /\ notnull (cell df c r2) = true
        /\ same_kind (cell df c r1) (cell df c r2) = false).
Proof.
  split; [intros e; apply filter_options_raises|].
  rewrite filter_options_unfold.
  destruct (has_column c df) eqn:Hc.
  - set (vs := unique (dropna (map (cell df c) (rows df)))).
    split.
    + intros (e & He).
      assert (Hno : ~ forall a b, In a vs -> In b vs -> same_kind a b = true).
      { intros Hall. apply py_sorted_returns in Hall as (opts & Ho).
        congruence. }
      (* find the offending pair *)
      unfold py_sorted in He. destruct vs as [|v vs'] eqn:Hvs; [discriminate|].
      destruct (forallb (same_kind v) vs') eqn:Hall; [discriminate|].
      assert (Hex : existsb (fun x => negb (same_kind v x)) vs' = true).
      { clear -Hall. induction vs' as [|x l IH]; simpl in *; [discriminate|].
        destruct (same_kind v x); simpl in *; auto. }
      apply existsb_exists in Hex as (x & Hx & Hvx).
      apply negb_true_iff in Hvx.
      assert (Hv : In v vs) by (rewrite Hvs; now left).
      assert (Hx' : In x vs) by (rewrite Hvs; now right).
      apply unique_dropna_In in Hv as (Hnv & r1 & Hr1 & <-).
      apply unique_dropna_In in Hx' as (Hnx & r2 & Hr2 & <-).
      exists r1, r2. auto.
    + intros (r1 & r2 & Hr1 & Hr2 & Hn1 & Hn2 & Hk).
      destruct (py_sorted vs) as [opts|e] eqn:Hs; [|eauto].
      exfalso.
      assert (Hall : forall a b, In a vs -> In b vs -> same_kind a b = true)
        by (apply py_sorted_returns; eauto).
      destruct (unique_dropna_cover df c r1 Hr1 Hn1) as (y1 & Hy1 & He1).
      destruct (unique_dropna_cover df c r2 Hr2 Hn2) as (y2 & Hy2 & He2).
      specialize (Hall y1 y2 Hy1 Hy2). unfold same_kind in *.
      rewrite (same_kind_eqb _ _ He1), (same_kind_eqb _ _ He2) in Hall.
      congruence.
  - split.
    + intros (e & He). discriminate.
    + intros (r1 & _ & _ & _ & Hn1 & _). exfalso.
      unfold cell in Hn1. unfold has_column, column_names in Hc.
      rewrite (find_column_absent c (columns df) 0 Hc) in Hn1. discriminate.
Qed.

Lemma X2_filter_options_raise_on_mixed_kinds_witness :
  exists msg,
    filter_options mixed_sector_frame "sector" = Raise (TypeError msg).
Proof.
  destruct (proj1 (X2_filter_options_raise_on_mixed_kinds
                     mixed_sector_frame "sector")
                  (TypeError "'<' not supported between instances") eq_refl)
    as (msg & Hmsg).
  exists msg. rewrite <- Hmsg. reflexivity.
Defined.

(* ================================================================== *)
(** * The filter blocks with their widgets *)

Lemma multiselect_In {A : Type} (options : list A) picks x :
  In x (multiselect options picks) -> In x options.
Proof.
  unfold multiselect. intros H. apply in_flat_map in H as (i & _ & Hi).
  destruct (nth_error options i) as [o|] eqn:Hn; [|contradiction].
  destruct Hi as [<-|[]]. eapply nth_error_In; eauto.
Qed.

Lemma multiselect_nil {A : Type} picks : multiselect (@nil A) picks = [].
Proof.
  unfold multiselect. induction (nodup Nat.eq_dec picks) as [|i l IH]; auto.
  simpl. destruct i; simpl; auto.
Qed.

Lemma isin_stage_raises c vals df e :
  isin_stage c vals df = Raise e ->
  truthy vals = true /\ has_column c df = false.
Proof.
  unfold isin_stage. destruct (truthy vals); [|discriminate].
  destruct (has_column c df) eqn:Hc; auto.
  now destruct (getitem_present df c Hc) as (d & _ & ->).
Qed.

Lemma compare_cells_raises op name t vs e :
  compare_cells op name t vs = Raise e -> exists msg, e = TypeError msg.
Proof.
  induction vs as [|v vs IH]; simpl; [discriminate|].
  destruct v; simpl; try (intros [= <-]; eauto);
    destruct (compare_cells op name t vs); try discriminate;
    intros [= <-]; now apply IH.
Qed.

Lemma compare_timestamp_raises op name s t e :
  compare_timestamp op name s t = Raise e -> exists msg, e = TypeError msg.
Proof.
  unfold compare_timestamp.
  destruct (s_dtype s); try apply compare_cells_raises.
  intros [= <-]. eauto.
Qed.

Lemma range_stage_raises dr df e :
  has_column "date" df = true ->
  range_stage dr df = Raise e -> exists msg, e = TypeError msg.
Proof.
  intros Hc. destruct dr as [d|[|d0 [|d1 [|d2 ds]]]]; try discriminate.
  unfold range_stage.
  destruct (getitem_present df "date" Hc) as (d & _ & ->).
  unfold series_ge, series_le.
  destruct (compare_timestamp Z.geb ">=" _ _) eqn:H1.
  - destruct (compare_timestamp Z.leb "<=" _ _) eqn:H2; [discriminate|].
    intros [= <-]. eapply compare_timestamp_raises; eauto.
  - intros [= <-]. eapply compare_timestamp_raises; eauto.
Qed.

Lemma row_isin_hdr a b c vals r :
  columns a = columns b -> row_isin a c vals r = row_isin b c vals r.
Proof. intros H. unfold row_isin. now rewrite (cell_hdr a b c r H). Qed.

(** The table the stock filters return, row by row. *)
Lemma stocks_stages_rows ss ns dr df T :
  stocks_stages ss ns dr df = Ok T ->
  columns T = columns df
  /\ rows T = filter (stock_row_passes df ss ns dr) (rows df).
Proof.
  unfold stocks_stages. intros H.
  destruct (isin_stage "sector" ss df) as [f1|] eqn:H1; [|discriminate].
  destruct (isin_stage "stock_name" ns f1) as [f2|] eqn:H2; [|discriminate].
  assert (F1 : columns f1 = columns df
               /\ rows f1 = filter (fun r => negb (truthy ss)
                                             || row_isin df "sector" ss r)
                                   (rows df)).
  { apply isin_stage_ok in H1 as [[-> ->]|(-> & _ & ->)]; simpl.
    - split; auto. symmetry. apply filter_all. auto.
    - split; auto. }
  destruct F1 as [C1 R1].
  assert (F2 : columns f2 = columns df
               /\ rows f2 = filter (fun r => (negb (truthy ss)
                                              || row_isin df "sector" ss r)
                                             && (negb (truthy ns)
                                                 || row_isin df "stock_name"
                                                      ns r))
                                   (rows df)).
  { apply isin_stage_ok in H2 as [[-> ->]|(-> & _ & ->)]; simpl.
    - split; auto. rewrite R1. apply filter_ext. intros r.
      now rewrite andb_true_r.
    - split; auto. rewrite R1, filter_filter_and. apply filter_ext.
      intros r. now rewrite (row_isin_hdr f1 df _ _ _ C1). }
  destruct F2 as [C2 R2].
  unfold stock_row_passes.
  destruct (has_column "date" df) eqn:Hd.
  - destruct dr as [d|[|d0 [|d1 [|d2 ds]]]];
      try (injection H as <-; split; auto; rewrite R2; apply filter_ext;
           intros r; now rewrite andb_true_r).
    apply range_stage_ok in H as (_ & _ & ->). simpl. split; auto.
    rewrite R2, filter_filter_and. apply filter_ext. intros r.
    now rewrite (cell_hdr f2 df "date" r C2).
  - injection H as <-. split; auto. rewrite R2. apply filter_ext. intros r.
    destruct dr as [d|[|d0 [|d1 [|d2 ds]]]]; simpl; now rewrite andb_true_r.
Qed.

Section FilterBlocks.
Context {E : External}.

Lemma tab1_filter_block_run cp sp st :
  tab1_filter_block cp sp st =
  match filter_options (df_news st) "category" with
  | Raise e => (Raise e, st)
  | Ok o1 =>
      match filter_options (df_news st) "sector" with
      | Raise e => (Raise e, st)
      | Ok o2 =>
          (Ok (news_kept (multiselect o1 cp) (multiselect o2 sp) (df_news st)),
           st)
      end
  end.
Proof.
  unfold tab1_filter_block, get_news, lift.
  unfold bind at 1. unfold bind at 1.
  destruct (filter_options (df_news st) "category") as [o1|]; auto.
  unfold bind at 1.
  destruct (filter_options (df_news st) "sector") as [o2|]; auto.
  apply tab1_filters_run.
Qed.

End FilterBlocks.

Lemma selection_column df c opts vals :
  filter_options df c = Ok opts -> incl vals opts ->
  truthy vals = true -> has_column c df = true.
Proof.
  unfold filter_options. destruct (has_column c df); auto.
  intros [= <-] Hincl Ht. destruct vals as [|v vals]; [discriminate|].
  destruct (Hincl v (or_introl eq_refl)).
Qed.

(** X3: the membership filters of the stocks view test no column before
    reading it, and yet read no absent one.  A selection that a
    membership widget returned is a list of its options, and there are
    no options when the column is absent; so, given such selections and
    whatever the date picker returned, the filter statements raise no
    KeyError: what they raise, if anything, is the TypeError of the date
    comparison. *)
Theorem X3_stock_filters_read_no_absent_column {E : External}
  (sector_options name_options stock_sectors stock_names : list value)
  (dr : date_input_value) (st : App) :
  filter_options (df_stocks st) "sector" = Ok sector_options ->
  filter_options (df_stocks st) "stock_name" = Ok name_options ->
  incl stock_sectors sector_options ->
  incl stock_names name_options ->
  forall e,
    fst (tab2_filters stock_sectors stock_names dr st) = Raise e ->
    exists msg, e = TypeError msg.
Proof.
  intros F1 F2 I1 I2 e. rewrite tab2_filters_fst. unfold stocks_stages.
  destruct (isin_stage "sector" stock_sectors (df_stocks st))
    as [f1|e1] eqn:H1.
  2:{ apply isin_stage_raises in H1 as [Ht Hc].
      rewrite (selection_column _ _ F1 I1 Ht) in Hc. discriminate. }
  destruct (isin_stage "stock_name" stock_names f1) as [f2|e2] eqn:H2.
  2:{ apply isin_stage_raises in H2 as [Ht Hc].
      apply isin_stage_sub in H1 as [C1 _].
      rewrite (has_column_hdr f1 (df_stocks st) _ C1) in Hc.
      rewrite (selection_column _ _ F2 I2 Ht) in Hc. discriminate. }
  destruct (has_column "date" (df_stocks st)) eqn:Hd; [|discriminate].
  apply range_stage_raises.
  apply isin_stage_sub in H1 as [C1 _]. apply isin_stage_sub in H2 as [C2 _].
  rewrite (has_column_hdr f2 (df_stocks st) "date"); [exact Hd | congruence].
Qed.

Lemma X3_stock_filters_read_no_absent_column_witness :
  exists msg,
    fst (tab2_filters (E := iso_env) [VStr "Tech"] []
           (DateTuple [jan2; jan2]) (app_with stocks_scenario_text))
    = Raise (TypeError msg).
Proof.
  destruct (@X3_stock_filters_read_no_absent_column iso_env
              [VStr "Tech"] [VStr "A"; VStr "B"] [VStr "Tech"] []
              (DateTuple [jan2; jan2]) (app_with stocks_scenario_text)
              eq_refl eq_refl)
    with (e := TypeError
                 "'>=' not supported between instances of 'str' and 'Timestamp'")
    as (msg & Hmsg).
  - intros v Hv. exact Hv.
  - intros v [].
  - reflexivity.
  - exists msg. rewrite <- Hmsg. reflexivity.
Defined.

(** X4: the filters compose by conjunction and only remove rows.  The
    news filters return the header of the News table with, in their
    original order, exactly the rows that pass every active filter;
    whenever the stock filters return a table it is the header of the
    Stocks table with exactly the rows that pass both membership filters
    and, when a range is picked and the table has a [date] column, whose
    date is a Timestamp within the range. *)
Theorem X4_filters_keep_passing_rows {E : External}
  (categories sectors stock_sectors stock_names : list value)
  (dr : date_input_value) (st : App) :
  (exists T,
     fst (tab1_filters categories sectors st) = Ok T
     /\ columns T = columns (df_news st)
     /\ rows T = filter (news_row_passes (df_news st) categories sectors)
                        (rows (df_news st)))
  /\ (forall T,
        fst (tab2_filters stock_sectors stock_names dr st) = Ok T ->
        columns T = columns (df_stocks st)
        /\ rows T = filter (stock_row_passes (df_stocks st) stock_sectors
                              stock_names dr)
                           (rows (df_stocks st))).
Proof.
  split.
  - rewrite tab1_filters_run. simpl. eexists. split; [reflexivity|].
    unfold news_kept, guarded_isin, news_row_passes.
    set (df := df_news st).
    destruct (truthy categories && has_column "category" df) eqn:G1; simpl.
    + change (has_column "sector" (keep (row_isin df "category" categories) df))
        with (has_column "sector" df).
      destruct (truthy sectors && has_column "sector" df); simpl.
      * split; auto. now rewrite filter_filter_and.
      * split; auto. apply filter_ext. intros r. now rewrite andb_true_r.
    + destruct (truthy sectors && has_column "sector" df); simpl.
      * split; auto.
      * split; auto. symmetry. now apply filter_all.
  - intros T. rewrite tab2_filters_fst. apply stocks_stages_rows.
Qed.

Lemma X4_filters_keep_passing_rows_witness :
  rows scenario_B_row
  = filter (stock_row_passes stocks_scenario [VStr "Tech"] []
              (DateTuple [jan2; jan2]))
           (rows stocks_scenario).
Proof.
  exact (proj2 (proj2 (X4_filters_keep_passing_rows (E := iso_env) [] []
                         [VStr "Tech"] [] (DateTuple [jan2; jan2])
                         (app_with stocks_scenario))
                      scenario_B_row eq_refl)).
Defined.

(* ================================================================== *)
(** * The sentiment counts *)

Lemma value_eqb_comm a b : value_eqb a b = value_eqb b a.
Proof.
  destruct (value_eqb a b) eqn:H1, (value_eqb b a) eqn:H2; auto.
  - apply value_eqb_sym in H1. congruence.
  - apply value_eqb_sym in H2. congruence.
Qed.

Lemma list_sum_perm l l' : Permutation l l' -> list_sum l = list_sum l'.
Proof. induction 1; simpl; lia. Qed.

Lemma Sorted_impl {A : Type} (R R' : A -> A -> Prop) l :
  (forall a b, R a b -> R' a b) -> Sorted R l -> Sorted R' l.
Proof.
  intros H. induction 1 as [|a l Hs IH Hhd]; constructor; auto.
  destruct Hhd; constructor; auto.
Qed.

(** Every cell that is not missing is an occurrence of exactly one of
    the distinct values. *)
Lemma occurrences_total vs :
  list_sum (map (fun v => occurrences v vs) (unique vs)) = length vs.
Proof.
  rewrite (map_ext _ (fun l => length (filter (fun r => value_eqb r l && true)
                                              vs))).
  2:{ intros v. unfold occurrences. f_equal. apply filter_ext. intros r.
      now rewrite andb_true_r, value_eqb_comm. }
  rewrite (@partition_count _ (unique vs) (fun r => r) (fun _ => true)).
  - now rewrite filter_true.
  - apply (distinct_NoDupA value_eqb).
  - intros r Hr _.
    destruct (distinct_cover value_eqb value_eqb_refl value_eqb_trans vs r Hr)
      as (y & Hy & Hyr).
    exists y. split; auto. now apply value_eqb_sym.
Qed.

Lemma value_counts_perm s :
  Permutation (value_counts s)
    (map (fun v => (v, occurrences v (dropna (s_values s))))
         (unique (dropna (s_values s)))).
Proof. apply sort_perm. Qed.

(** X5: [value_counts] lists each value of the column that is not
    missing exactly once, with the number of cells holding it (at least
    one), most frequent first; the counts add up to the number of cells
    that are not missing, so every such row is in exactly one slice of
    the sentiment pie. *)
Theorem X5_value_counts_count_each_cell_once (s : Series) :
  NoDupA value_eq (map fst (value_counts s))
  /\ (forall v n, In (v, n) (value_counts s) ->
        notnull v = true
        /\ n = occurrences v (dropna (s_values s))
        /\ (1 <= n)%nat)
  /\ (forall x, In x (s_values s) -> notnull x = true ->
        exists v n, In (v, n) (value_counts s) /\ value_eqb v x = true)
  /\ list_sum (map snd (value_counts s)) = length (dropna (s_values s))
  /\ Sorted (fun a b => (snd b <= snd a)%nat) (value_counts s).
Proof.
  pose proof (value_counts_perm s) as P.
  set (vs := dropna (s_values s)) in *.
  split; [|split; [|split; [|split]]].
  - assert (Pf : Permutation (unique vs) (map fst (value_counts s))).
    { apply Permutation_sym in P. apply (Permutation_map fst) in P.
      rewrite map_map in P. simpl in P. now rewrite map_id in P. }
    eapply (@PermutationA_preserves_NoDupA _ _ value_eq_equiv).
    + apply Permutation_PermutationA; [exact value_eq_equiv | exact Pf].
    + apply (distinct_NoDupA value_eqb).
  - intros v n Hin. apply (Permutation_in _ P) in Hin.
    apply in_map_iff in Hin as (v' & [= -> <-] & Hv).
    apply distinct_incl in Hv.
    assert (Hnn : notnull v = true) by (apply filter_In in Hv; tauto).
    split; auto. split; auto.
    unfold occurrences.
    assert (Hf : In v (filter (value_eqb v) vs)).
    { apply filter_In. split; auto. apply value_eqb_refl. }
    destruct (filter (value_eqb v) vs); [contradiction | simpl; lia].
  - intros x Hx Hnn.
    destruct (distinct_cover value_eqb value_eqb_refl value_eqb_trans vs x)
      as (y & Hy & Hyx).
    { apply filter_In. auto. }
    exists y, (occurrences y vs). split; auto.
    apply (Permutation_in _ (Permutation_sym P)).
    apply in_map_iff. exists y. auto.
  - rewrite (list_sum_perm (Permutation_map snd P)), map_map. simpl.
    apply occurrences_total.
  - apply (Sorted_impl (R := fun a b : value * nat =>
                               Nat.leb (snd b) (snd a) = true)).
    + intros a b H. now apply Nat.leb_le.
    + apply sort_Sorted. intros x y H. apply Nat.leb_gt in H.
      apply Nat.leb_le. lia.
Qed.

Lemma X5_value_counts_count_each_cell_once_witness :
  list_sum (map snd (value_counts
                       {| s_dtype := DObject;
                          s_values := map (cell news_example "market_sentiment")
                                          (rows news_example) |}))
  = 3%nat.
Proof.
  exact (proj1 (proj2 (proj2 (proj2
    (X5_value_counts_count_each_cell_once
       {| s_dtype := DObject;
          s_values := map (cell news_example "market_sentiment")
                          (rows news_example) |}))))).
Defined.

(* ================================================================== *)
(** * Reductions: the greatest and the least *)

Section Reductions.
Local Open Scope Q_scope.

Lemma inject_nat_succ k :
  inject_Z (Z.of_nat (S k)) == inject_Z (Z.of_nat k) + 1.
Proof. rewrite Nat2Z.inj_succ. unfold Z.succ. now rewrite inject_Z_plus. Qed.

Lemma qmax_cases a b : (qmax a b = a \/ qmax a b = b) /\ a <= qmax a b
                       /\ b <= qmax a b.
Proof.
  unfold qmax. destruct (Qle_bool a b) eqn:H.
  - apply Qle_bool_iff in H. repeat split; auto. apply Qle_refl.
  - repeat split; auto; [apply Qle_refl|].
    destruct (Qlt_le_dec b a) as [Hlt|Hle]; [now apply Qlt_le_weak|].
    apply Qle_bool_iff in Hle. congruence.
Qed.

Lemma qmin_cases a b : (qmin a b = a \/ qmin a b = b) /\ qmin a b <= a
                       /\ qmin a b <= b.
Proof.
  unfold qmin. destruct (Qle_bool a b) eqn:H.
  - apply Qle_bool_iff in H. repeat split; auto. apply Qle_refl.
  - repeat split; auto; [|apply Qle_refl].
    destruct (Qlt_le_dec b a) as [Hlt|Hle]; [now apply Qlt_le_weak|].
    apply Qle_bool_iff in Hle. congruence.
Qed.

(** The running maximum is one of the numbers and bounds them all. *)
Lemma fold_qmax_spec ns n :
  In (fold_left qmax ns n) (n :: ns)
  /\ forall x, In x (n :: ns) -> x <= fold_left qmax ns n.
Proof.
  revert n. induction ns as [|y ns IH]; intros n; simpl.
  - split; auto. intros x [<-|[]]. apply Qle_refl.
  - destruct (IH (qmax n y)) as [Hin Hub].
    destruct (qmax_cases n y) as ([Hn|Hy] & Hna & Hya).
    + split.
      * destruct Hin as [Hin|Hin]; [left; congruence | right; now right].
      * intros x [<-|[<-|Hx]].
        -- eapply Qle_trans; [exact Hna|]. apply Hub. now left.
        -- eapply Qle_trans; [exact Hya|]. apply Hub. now left.
        -- apply Hub. now right.
    + split.
      * destruct Hin as [Hin|Hin]; [right; left; congruence | right; now right].
      * intros x [<-|[<-|Hx]].
        -- eapply Qle_trans; [exact Hna|]. apply Hub. now left.
        -- eapply Qle_trans; [exact Hya|]. apply Hub. now left.
        -- apply Hub. now right.
Qed.

Lemma fold_qmin_spec ns n :
  In (fold_left qmin ns n) (n :: ns)
  /\ forall x, In x (n :: ns) -> fold_left qmin ns n <= x.
Proof.
  revert n. induction ns as [|y ns IH]; intros n; simpl.
  - split; auto. intros x [<-|[]]. apply Qle_refl.
  - destruct (IH (qmin n y)) as [Hin Hlb].
    destruct (qmin_cases n y) as ([Hn|Hy] & Hna & Hya).
    + split.
      * destruct Hin as [Hin|Hin]; [left; congruence | right; now right].
      * intros x [<-|[<-|Hx]].
        -- eapply Qle_trans; [|exact Hna]. apply Hlb. now left.
        -- eapply Qle_trans; [|exact Hya]. apply Hlb. now left.
        -- apply Hlb. now right.
    + split.
      * destruct Hin as [Hin|Hin]; [right; left; congruence | right; now right].
      * intros x [<-|[<-|Hx]].
        -- eapply Qle_trans; [|exact Hna]. apply Hlb. now left.
        -- eapply Qle_trans; [|exact Hya]. apply Hlb. now left.
        -- apply Hlb. now right.
Qed.

End Reductions.

(* ================================================================== *)
(** * More about the pivot *)

Lemma aggregate_nothing f vs :
  f <> Count -> numbers vs = [] -> fillna (VNum 0) (aggregate f vs) = VNum 0.
Proof.
  intros Hf Hn. unfold aggregate. rewrite Hn.
  destruct f; try reflexivity. contradiction.
Qed.

Lemma aggregate_max vs :
  numbers vs <> [] ->
  exists q, aggregate Max vs = VNum q
            /\ In q (numbers vs) /\ forall x, In x (numbers vs) -> (x <= q)%Q.
Proof.
  unfold aggregate. destruct (numbers vs) as [|n ns]; [contradiction|].
  intros _. eexists. split; [reflexivity|]. apply fold_qmax_spec.
Qed.

Lemma aggregate_min vs :
  numbers vs <> [] ->
  exists q, aggregate Min vs = VNum q
            /\ In q (numbers vs) /\ forall x, In x (numbers vs) -> (q <= x)%Q.
Proof.
  unfold aggregate. destruct (numbers vs) as [|n ns]; [contradiction|].
  intros _. eexists. split; [reflexivity|]. apply fold_qmin_spec.
Qed.

Lemma aggregate_sum vs :
  exists q, aggregate Sum vs = VNum q /\ (q == qsum (numbers vs))%Q.
Proof. eexists. split; [reflexivity|]. apply Qred_correct. Qed.

(** X6: in a pivot over a numeric value column, a cell whose partition
    holds at least one number holds, under [max], the greatest of these
    numbers and, under [min], the least; under [sum], on a column of
    integers whose absolute values add up to at most 2^53, it holds
    their total.  Under any reduction but [count], a cell whose
    partition holds no number holds 0. *)
Theorem X6_pivot_cells_reduce_their_partition {E : External}
  (df : DataFrame) (idx : string) (grp : option string) (val : string)
  (f : aggfunc) :
  has_column idx df = true ->
  has_column val df = true ->
  group_present df grp = true ->
  labels_distinct idx grp val = true ->
  is_numeric df val = true ->
  f <> Count ->
  exists p,
    pivot_table df (Some idx) grp (Some val) f (VNum 0) = Ok p
    /\ forall a b,
         (a < length (index_labels p))%nat ->
         (b < length (column_labels p))%nat ->
         let ns := partition_numbers df idx grp val
                     (nth a (index_labels p) VNull,
                      nth b (column_labels p) VNull) in
         (ns = [] -> pivot_cell p a b = VNum 0)
         /\ (ns <> [] ->
             (f = Max ->
              exists q, pivot_cell p a b = VNum q
                        /\ In q ns /\ forall x, In x ns -> (x <= q)%Q)
             /\ (f = Min ->
                 exists q, pivot_cell p a b = VNum q
                           /\ In q ns /\ forall x, In x ns -> (q <= x)%Q)
             /\ (f = Sum ->
                 exact_numbers (column_numbers df val) = true ->
                 exists q, pivot_cell p a b = VNum q
                           /\ (q == qsum ns)%Q)).
Proof.
  intros Hi Hv Hg Hd Hn Hf.
  exists (pivot_frame df idx grp val f (VNum 0)).
  split; [apply pivot_table_ok; auto; now rewrite Hn|].
  intros a b Ha Hb.
  set (k := (nth a (index_labels (pivot_frame df idx grp val f (VNum 0)))
               VNull,
             nth b (column_labels (pivot_frame df idx grp val f (VNum 0)))
               VNull)).
  intros ns.
  assert (Hcell : pivot_cell (pivot_frame df idx grp val f (VNum 0)) a b
                  = fillna (VNum 0)
                      (aggregate f (partition_values df idx grp val k))).
  { unfold pivot_cell. rewrite pivot_cells_eq.
    rewrite (nth_map_lt _ _ VNull) by exact Ha.
    rewrite (nth_map_lt _ _ VNull) by exact Hb.
    reflexivity. }
  rewrite Hcell. split.
  - intros Hns. now apply aggregate_nothing.
  - intros Hns. split; [|split].
    + intros ->.
      destruct (aggregate_max (partition_values df idx grp val k) Hns)
        as (q & -> & Hq). exists q. split; auto.
    + intros ->.
      destruct (aggregate_min (partition_values df idx grp val k) Hns)
        as (q & -> & Hq). exists q. split; auto.
    + intros -> _.
      destruct (aggregate_sum (partition_values df idx grp val k))
        as (q & -> & Hq). exists q. split; auto.
Qed.

Lemma X6_pivot_cells_reduce_their_partition_witness :
  exists p,
    pivot_table (E := iso_env) stocks_scenario
      (Some "sector") None (Some "price") Max (VNum 0) = Ok p
    /\ exists q, pivot_cell p 0 0 = VNum q /\ (10 <= q)%Q.
Proof.
  destruct (@X6_pivot_cells_reduce_their_partition iso_env
              stocks_scenario "sector" None "price" Max
              eq_refl eq_refl eq_refl eq_refl eq_refl)
    as (p & Hp & Hcells); [discriminate|].
  exists p. split; [exact Hp|].
  injection Hp as <-.
  destruct (Hcells 0%nat 0%nat) as [_ H];
    [simpl; lia | simpl; lia |].
  destruct H as (H & _); [discriminate|].
  destruct (H eq_refl) as (q & Hq & _ & Hub).
  exists q. split; [exact Hq|]. apply Hub. left. reflexivity.
Defined.

(* ================================================================== *)
(** * The sum pivot keeps the total *)

Section WeightedPartitions.
Local Open Scope Q_scope.

Lemma qsum_map_ext {A : Type} (f g : A -> Q) l :
  (forall x, In x l -> f x == g x) -> qsum (map f l) == qsum (map g l).
Proof.
  induction l as [|x l IH]; intros H; simpl; [reflexivity|].
  rewrite (H x) by now left. rewrite IH; [reflexivity|].
  intros y Hy. apply H. now right.
Qed.

Lemma qsum_map_add {A : Type} (a b : A -> Q) l :
  qsum (map (fun x => a x + b x) l) == qsum (map a l) + qsum (map b l).
Proof.
  induction l as [|x l IH]; simpl; [ring|]. rewrite IH. ring.
Qed.

Lemma qsum_indicator {A : Type} (p : A -> bool) (c : Q) l :
  qsum (map (fun x => if p x then c else 0) l)
  == inject_Z (Z.of_nat (length (filter p l))) * c.
Proof.
  induction l as [|x l IH]; simpl; [ring|].
  destruct (p x).
  - change (length (x :: filter p l)) with (S (length (filter p l))).
    rewrite inject_nat_succ, IH. ring.
  - rewrite IH. ring.
Qed.

Lemma qsum_numbers_map vs : qsum (numbers vs) == qsum (map number_of vs).
Proof.
  induction vs as [|v vs IH]; simpl; [reflexivity|].
  destruct v; simpl; rewrite <- IH;
    first [reflexivity | now rewrite Qplus_0_l].
Qed.

(** The weighted form of [partition_count]: split by a key over labels
    without repetition that cover the key of every row satisfying [P],
    the partitions together weigh what these rows weigh. *)
Lemma partition_qsum {R : Type} (L : list value) (kf : R -> value)
  (w : R -> Q) (P : R -> bool) (rs : list R) :
  NoDupA value_eq L ->
  (forall r, In r rs -> P r = true ->
             exists l, In l L /\ value_eqb (kf r) l = true) ->
  qsum (map (fun l => qsum (map w (filter (fun r => value_eqb (kf r) l && P r)
                                          rs))) L)
  == qsum (map w (filter P rs)).
Proof.
  intros Hnd. induction rs as [|r rs IH]; intros Hcov.
  - simpl. clear. induction L; simpl; [reflexivity|]. rewrite IHL. ring.
  - rewrite (qsum_map_ext _
      (fun l => (if value_eqb (kf r) l && P r then w r else 0)
                + qsum (map w (filter (fun r0 => value_eqb (kf r0) l && P r0)
                                      rs)))).
    2:{ intros l _. simpl. destruct (value_eqb (kf r) l && P r); simpl;
          [reflexivity | now rewrite Qplus_0_l]. }
    rewrite qsum_map_add, IH, qsum_indicator.
    2:{ intros r0 Hr0. apply Hcov. now right. }
    simpl. destruct (P r) eqn:HP.
    + rewrite (filter_ext _ (fun l => value_eqb (kf r) l)).
      2:{ intros l. apply andb_true_r. }
      rewrite (count_one value_eqb value_eqb_sym value_eqb_trans); auto.
      * simpl. ring.
      * destruct (Hcov r (or_introl eq_refl) HP) as (l & Hl & Hrl). eauto.
    + rewrite (filter_ext _ (fun _ => false)).
      2:{ intros l. apply andb_false_r. }
      assert (Hnil : forall l0 : list value, filter (fun _ => false) l0 = [])
        by (induction l0; auto).
      rewrite Hnil. simpl. ring.
Qed.

Lemma qsum_number_table {A B : Type} (F : A -> B -> Q) (I : list A)
  (G : list B) :
  qsum (numbers (concat (map (fun i => map (fun c => VNum (F i c)) G) I)))
  == qsum (map (fun i => qsum (map (F i) G)) I).
Proof.
  induction I as [|i I IH]; simpl; [reflexivity|].
  rewrite numbers_app, qsum_app, IH.
  apply Qplus_comp; [|reflexivity].
  clear. induction G as [|c G IHG]; simpl; [reflexivity|]. now rewrite IHG.
Qed.

End WeightedPartitions.

Section SumPivot.
Local Open Scope Q_scope.
Variable df : DataFrame.
Variable idx : string.
Variable grp : option string.
Variable val : string.

Let p := pivot_frame df idx grp val Sum (VNum 0).
Let k1 (r : list value) := cell df idx r.
Let k2 (r : list value) := group_label df grp val r.
Let w (r : list value) := number_of (cell df val r).

Lemma live_sum r :
  live df idx grp val Sum r = (notnull (k1 r) && notnull (k2 r))%bool.
Proof. unfold live. simpl. now rewrite andb_true_r. Qed.

Lemma sum_cells_eq :
  cells p =
  map (fun i =>
         map (fun c => VNum (Qred (qsum (partition_numbers df idx grp val
                                           (i, c)))))
             (column_labels p))
      (index_labels p).
Proof. unfold p. now rewrite pivot_cells_eq. Qed.

Lemma partition_weight k :
  Qred (qsum (partition_numbers df idx grp val k))
  == qsum (map w (partition_rows df idx grp val k)).
Proof.
  rewrite Qred_correct. unfold partition_numbers, partition_values.
  rewrite qsum_numbers_map, map_map. reflexivity.
Qed.

Lemma sum_row_total i :
  notnull i = true ->
  qsum (map (fun c => qsum (map w (partition_rows df idx grp val (i, c))))
            (column_labels p))
  == qsum (map w (filter (fun r => value_eqb (k1 r) i && notnull (k2 r))%bool
                         (rows df))).
Proof.
  intros Hi.
  rewrite <- (@partition_qsum _ (column_labels p) k2 w).
  - apply qsum_map_ext. intros c Hc.
    unfold partition_rows.
    rewrite (filter_ext _ (fun r => value_eqb (k2 r) c
                                    && (value_eqb (k1 r) i && notnull (k2 r)))%bool);
      [reflexivity|].
    intros r. unfold same_key, row_key. simpl. fold (k1 r) (k2 r).
    destruct (value_eqb (k2 r) c) eqn:Hk2.
    + rewrite (value_eqb_notnull _ _ Hk2).
      rewrite (@column_label_notnull _ _ _ _ _ _ Hc).
      now rewrite !andb_true_r.
    + now rewrite andb_false_r.
  - apply unique_labels_NoDupA.
  - intros r Hr HP. apply andb_true_iff in HP as [H1 H2].
    assert (Hin : InA value_eq (k2 r) (column_labels p)).
    { apply column_labels_spec. exists r. split; auto. split.
      - rewrite live_sum, H2, (value_eqb_notnull _ _ H1), Hi. reflexivity.
      - apply value_eqb_refl. }
    apply InA_alt in Hin as (c & Hc & Hin). eauto.
Qed.

Lemma sum_total :
  pivot_total p
  == qsum (numbers (map (cell df val) (grouped_rows df idx grp val))).
Proof.
  unfold pivot_total. rewrite sum_cells_eq.
  rewrite (qsum_number_table
             (fun i c => Qred (qsum (partition_numbers df idx grp val (i, c))))).
  rewrite (qsum_map_ext _
    (fun i => qsum (map w (filter
                (fun r => value_eqb (k1 r) i
                          && (notnull (k1 r) && notnull (k2 r)))%bool
                (rows df))))).
  2:{ intros i Hi.
      pose proof (@index_label_notnull _ _ _ _ _ _ Hi) as Hnn.
      rewrite (qsum_map_ext _
        (fun c => qsum (map w (partition_rows df idx grp val (i, c))))).
      2:{ intros c _. apply partition_weight. }
      rewrite (sum_row_total i Hnn).
      rewrite (filter_ext _ (fun r => value_eqb (k1 r) i
                               && (notnull (k1 r) && notnull (k2 r)))%bool);
        [reflexivity|].
      intros r. destruct (value_eqb (k1 r) i) eqn:Hk1; auto.
      now rewrite (value_eqb_notnull _ _ Hk1), Hnn. }
  rewrite (@partition_qsum _ (index_labels p) k1 w).
  - rewrite qsum_numbers_map, map_map. reflexivity.
  - apply unique_labels_NoDupA.
  - intros r Hr HP. apply andb_true_iff in HP as [H1 H2].
    assert (Hin : InA value_eq (k1 r) (index_labels p)).
    { apply index_labels_spec. exists r. split; auto. split.
      - rewrite live_sum, H1, H2. reflexivity.
      - apply value_eqb_refl. }
    apply InA_alt in Hin as (i & Hi & Hin). eauto.
Qed.

End SumPivot.

(** X7: a [sum] pivot over a numeric value column of integers whose
    absolute values add up to at most 2^53 keeps the grand total: its
    cells add up to the sum of the value cells of the source rows whose
    index and group cells are both present (missing value cells adding
    nothing), however the rows fall into partitions. *)
Theorem X7_sum_pivot_keeps_total {E : External}
  (df : DataFrame) (idx : string) (grp : option string) (val : string) :
  has_column idx df = true ->
  has_column val df = true ->
  group_present df grp = true ->
  labels_distinct idx grp val = true ->
  is_numeric df val = true ->
  exact_numbers (column_numbers df val) = true ->
  exists p,
    pivot_table df (Some idx) grp (Some val) Sum (VNum 0) = Ok p
    /\ (pivot_total p
        == qsum (numbers (map (cell df val)
                            (grouped_rows df idx grp val))))%Q.
Proof.
  intros Hi Hv Hg Hd Hn _.
  exists (pivot_frame df idx grp val Sum (VNum 0)). split.
  - apply pivot_table_ok; auto. now rewrite Hn.
  - apply sum_total.
Qed.

Lemma X7_sum_pivot_keeps_total_witness :
  exists p,
    pivot_table (E := iso_env) missing_name_frame
      (Some "sector") (Some "stock_name") (Some "price") Sum (VNum 0) = Ok p
    /\ (pivot_total p == 20)%Q.
Proof.
  destruct (X7_sum_pivot_keeps_total (E := iso_env) missing_name_frame
              "sector" (Some "stock_name") "price"
              eq_refl eq_refl eq_refl eq_refl eq_refl eq_refl)
    as (p & Hp & Htot).
  exists p. split; [exact Hp|]. rewrite Htot. reflexivity.
Defined.

(* ================================================================== *)
(** * Order of the labels; the pivot without group column *)

Lemma unique_labels_constant v l :
  (forall x, In x l -> x = v) ->
  unique_labels l = match l with [] => [] | _ => [v] end.
Proof.
  intros H. destruct l as [|x l]; [reflexivity|].
  assert (Hx : x = v) by (apply H; now left). subst x.
  unfold unique_labels. simpl.
  assert (Hf : filter (fun y => negb (value_eqb v y)) (distinct value_eqb l)
               = []).
  { assert (Hall : forall y, In y (distinct value_eqb l) -> y = v).
    { intros y Hy. apply H. right. eapply distinct_incl; eauto. }
    induction (distinct value_eqb l) as [|y l' IH]; auto. simpl.
    rewrite (Hall y) by now left. rewrite value_eqb_refl. simpl.
    apply IH. intros z Hz. apply Hall. now right. }
  now rewrite Hf.
Qed.

Lemma pivot_no_group_columns df idx val f :
  let p := pivot_frame df idx None val f (VNum 0) in
  ((exists r, In r (rows df) /\ live df idx None val f r = true) ->
   column_labels p = [VStr val])
  /\ ((forall r, In r (rows df) -> live df idx None val f r = false) ->
      column_labels p = [] /\ index_labels p = [] /\ cells p = []).
Proof.
  intros p.
  set (tbl := agged f (grouped (keyed_rows df idx None val))).
  assert (Hconst : forall x, In x (map (fun ka : key * value => snd (fst ka))
                                       tbl) -> x = VStr val).
  { intros x Hx. apply in_map_iff in Hx as (ka & <- & Hka).
    destruct (tbl_live df idx None val f ka Hka) as (r & _ & _ & Hk).
    now rewrite Hk. }
  split.
  - intros (r & Hr & Hl).
    destruct (live_recs df idx None val f r Hr Hl) as [Hin Hnn].
    destruct (tbl_cover df idx None val f _ Hin Hnn) as (ka & Hka & _).
    change (column_labels p)
      with (unique_labels (map (fun ka : key * value => snd (fst ka)) tbl)).
    rewrite (@unique_labels_constant (VStr val) _ Hconst).
    fold tbl in Hka. destruct tbl; [contradiction | reflexivity].
  - intros Hdead.
    assert (Hnil : tbl = []).
    { destruct tbl as [|ka t] eqn:Ht; auto. exfalso.
      destruct (tbl_live df idx None val f ka) as (r & Hr & Hl & _).
      { fold tbl. rewrite Ht. now left. }
      rewrite (Hdead r Hr) in Hl. discriminate. }
    change (column_labels p)
      with (unique_labels (map (fun ka : key * value => snd (fst ka)) tbl)).
    change (index_labels p)
      with (unique_labels (map (fun ka : key * value => fst (fst ka)) tbl)).
    assert (Hi : unique_labels (map (fun ka : key * value => fst (fst ka)) tbl)
                 = []) by now rewrite Hnil.
    split; [now rewrite Hnil|]. split; [exact Hi|].
    pose proof (pivot_frame_shape df idx None val f (VNum 0)) as [Hlen _].
    fold p in Hlen.
    change (index_labels p)
      with (unique_labels (map (fun ka : key * value => fst (fst ka)) tbl))
      in Hlen.
    rewrite Hi in Hlen. now destruct (cells p).
Qed.

(** X8: the pivot comes with its index labels and its column labels in
    ascending order.  Without a group column it has exactly one value
    column, labelled with the value column's name, as soon as one source
    row is live (index cell present, partition not reducing to a missing
    value), and no row and no column at all otherwise. *)
Theorem X8_pivot_labels_ascending {E : External}
  (df : DataFrame) (idx : string) (grp : option string) (val : string)
  (f : aggfunc) :
  has_column idx df = true ->
  has_column val df = true ->
  group_present df grp = true ->
  labels_distinct idx grp val = true ->
  is_numeric df val || is_count f = true ->
  exists p,
    pivot_table df (Some idx) grp (Some val) f (VNum 0) = Ok p
    /\ Sorted value_le (index_labels p)
    /\ Sorted value_le (column_labels p)
    /\ (grp = None ->
        ((exists r, In r (rows df) /\ live df idx None val f r = true) ->
         column_labels p = [VStr val])
        /\ ((forall r, In r (rows df) -> live df idx None val f r = false) ->
            column_labels p = [] /\ index_labels p = [] /\ cells p = [])).
Proof.
  intros Hi Hv Hg Hd Hn.
  exists (pivot_frame df idx grp val f (VNum 0)).
  split; [now apply pivot_table_ok|].
  split; [apply unique_labels_Sorted|].
  split; [apply unique_labels_Sorted|].
  intros ->. apply pivot_no_group_columns.
Qed.

Lemma X8_pivot_labels_ascending_witness :
  exists p,
    pivot_table (E := iso_env) stocks_scenario
      (Some "stock_name") None (Some "price") Mean (VNum 0) = Ok p
    /\ column_labels p = [VStr "price"].
Proof.
  destruct (X8_pivot_labels_ascending (E := iso_env) stocks_scenario
              "stock_name" None "price" Mean
              eq_refl eq_refl eq_refl eq_refl eq_refl)
    as (p & Hp & _ & _ & Hcol).
  exists p. split; [exact Hp|].
  injection Hp as <-. reflexivity.
Defined.

(* ================================================================== *)
(** * The average score per sector *)

Lemma keyed_cells_In df by_ val kv :
  In kv (keyed_cells df by_ val) <->
  exists r, In r (rows df) /\ kv = (cell df by_ r, cell df val r)
            /\ notnull (cell df by_ r) = true.
Proof.
  unfold keyed_cells. rewrite filter_In, in_map_iff. split.
  - intros [(r & <- & Hr) Hnn]. eauto.
  - intros (r & Hr & -> & Hnn). split; eauto.
Qed.

(** The scores of a key that is not missing. *)
Lemma group_values_rows df by_ val l :
  notnull l = true ->
  group_values (keyed_cells df by_ val) l
  = map (cell df val)
        (filter (fun r => value_eqb (cell df by_ r) l) (rows df)).
Proof.
  intros Hl. unfold group_values, keyed_cells.
  induction (rows df) as [|r rs IH]; simpl; auto.
  destruct (value_eqb (cell df by_ r) l) eqn:Hk.
  - rewrite (value_eqb_notnull _ _ Hk), Hl. simpl. rewrite Hk. simpl.
    now rewrite IH.
  - destruct (notnull (cell df by_ r)); simpl; auto. now rewrite Hk.
Qed.

Lemma mean_of_scores vs :
  match numbers vs with
  | [] => aggregate Mean vs = VNull
  | _ => notnull (aggregate Mean vs) = true
  end.
Proof. unfold aggregate. now destruct (numbers vs). Qed.

(** X9: on a numeric score column, the average-score table of the news
    view has one row per sector of the filtered table (missing sectors
    left out), each sector once, sectors ascending.  The average of a
    sector is missing exactly when none of the sector's rows has a
    score. *)
Theorem X9_average_score_per_sector
  (mean_other : DataFrame -> string -> string -> result DataFrame)
  (df : DataFrame) (by_ val : string) :
  has_column by_ df = true ->
  has_column val df = true ->
  is_numeric df val = true ->
  exists avg,
    groupby_mean mean_other df by_ val = Ok avg
    /\ column_names avg = [by_; val]
    /\ Sorted value_le (map (fun r => nth 0 r VNull) (rows avg))
    /\ NoDupA value_eq (map (fun r => nth 0 r VNull) (rows avg))
    /\ (forall v,
          InA value_eq v (map (fun r => nth 0 r VNull) (rows avg)) <->
          notnull v = true
          /\ exists r, In r (rows df) /\ value_eqb (cell df by_ r) v = true)
    /\ (forall row, In row (rows avg) ->
          exists l m,
            row = [l; m]
            /\ let scores :=
                 numbers (map (cell df val)
                            (filter (fun r => value_eqb (cell df by_ r) l)
                                    (rows df))) in
               (scores = [] -> m = VNull)
               /\ (scores <> [] -> notnull m = true)).
Proof.
  intros Hb Hv Hn.
  exists (groupby_mean_frame df by_ val).
  split; [unfold groupby_mean; now rewrite Hb, Hv, Hn|].
  split; [reflexivity|].
  set (recs := keyed_cells df by_ val).
  assert (Hlabels : map (fun r => nth 0 r VNull)
                        (rows (groupby_mean_frame df by_ val))
                    = unique_labels (map fst recs)).
  { unfold groupby_mean_frame. simpl. rewrite map_map. simpl. apply map_id. }
  rewrite Hlabels.
  assert (Hnn : forall l, In l (unique_labels (map fst recs)) ->
                          notnull l = true).
  { intros l Hl. apply unique_labels_In in Hl.
    apply in_map_iff in Hl as (kv & <- & Hkv).
    apply keyed_cells_In in Hkv as (r & _ & -> & Hr). exact Hr. }
  split; [apply unique_labels_Sorted|].
  split; [apply unique_labels_NoDupA|].
  split.
  - intros v. split.
    + intros Hin. apply InA_alt in Hin as (l & Hvl & Hl).
      pose proof (Hnn l Hl) as Hlnn.
      apply unique_labels_In in Hl.
      apply in_map_iff in Hl as (kv & <- & Hkv).
      apply keyed_cells_In in Hkv as (r & Hr & -> & _). simpl in *.
      split; [now rewrite (value_eqb_notnull _ _ Hvl)|].
      exists r. split; auto. now apply value_eqb_sym.
    + intros (Hvnn & r & Hr & Hrv).
      destruct (unique_labels_cover (map fst recs) (cell df by_ r))
        as (l & Hl & Hlr).
      { apply in_map_iff. exists (cell df by_ r, cell df val r). split; auto.
        apply keyed_cells_In. exists r. split; auto. split; auto.
        now rewrite (value_eqb_notnull _ _ Hrv). }
      apply InA_alt. exists l. split; auto.
      unfold value_eq. apply value_eqb_sym. eapply value_eqb_trans; eauto.
  - intros row Hrow. unfold groupby_mean_frame in Hrow. simpl in Hrow.
    apply in_map_iff in Hrow as (l & <- & Hl).
    exists l, (aggregate Mean (group_values recs l)). split; auto.
    unfold recs. rewrite (group_values_rows df by_ val l (Hnn l Hl)).
    pose proof (mean_of_scores
                  (map (cell df val)
                     (filter (fun r => value_eqb (cell df by_ r) l) (rows df))))
      as Hm.
    destruct (numbers (map (cell df val)
                (filter (fun r => value_eqb (cell df by_ r) l) (rows df))))
      as [|n ns].
    + split; [auto | intros H; contradiction].
    + split; [discriminate | auto].
Qed.

Lemma X9_average_score_per_sector_witness :
  exists avg,
    groupby_mean (fun _ _ _ => Raise (TypeError "agg function failed"))
      news_example "sector" "sentiment_score" = Ok avg
    /\ column_names avg = ["sector"; "sentiment_score"].
Proof.
  destruct (X9_average_score_per_sector
              (fun _ _ _ => Raise (TypeError "agg function failed"))
              news_example "sector" "sentiment_score"
              eq_refl eq_refl eq_refl) as (avg & Havg & Hcols & _).
  exists avg. split; [exact Havg | exact Hcols].
Defined.

(* ================================================================== *)
(** * The column projection of the stocks view *)

Lemma find_column_map_dtype (g : string -> dtype) c cols pos :
  In c cols ->
  exists j, find_column c (map (fun c' => (c', g c')) cols) pos
            = Some ((pos + j)%nat, g c)
            /\ nth_error cols j = Some c.
Proof.
  revert pos. induction cols as [|c0 cols IH]; intros pos Hin; [contradiction|].
  simpl. destruct (String.eqb c c0) eqn:Hc.
  - apply String.eqb_eq in Hc. subst c0. exists 0%nat.
    rewrite Nat.add_0_r. auto.
  - destruct Hin as [->|Hin]; [rewrite String.eqb_refl in Hc; discriminate|].
    destruct (IH (S pos) Hin) as (j & Hf & Hn).
    exists (S j). rewrite Hf. split; auto. do 2 f_equal. lia.
Qed.

Lemma getitem_columns_ok df cols :
  (forall c, In c cols -> has_column c df = true) ->
  exists shown,
    getitem_columns df cols = Ok shown
    /\ column_names shown = cols
    /\ rows shown = map (fun r => map (fun c => cell df c r) cols) (rows df)
    /\ forall c r, In c cols ->
         cell shown c (map (fun c' => cell df c' r) cols) = cell df c r.
Proof.
  intros Hall. unfold getitem_columns.
  destruct (find (fun c => negb (has_column c df)) cols) as [c|] eqn:Hf.
  - apply find_some in Hf as [Hin Hc]. rewrite (Hall c Hin) in Hc.
    discriminate.
  - eexists. split; [reflexivity|].
    split; [unfold column_names; simpl; rewrite map_map; apply map_id|].
    split; [reflexivity|].
    intros c r Hin. unfold cell at 1. simpl.
    destruct (find_column_map_dtype
                (fun c' => match column_dtype df c' with
                           | Some d => d
                           | None => DObject
                           end) c cols 0 Hin) as (j & -> & Hj).
    simpl.
    rewrite (nth_error_nth _ _ VNull
               (map_nth_error (fun c' => cell df c' r) _ _ Hj)).
    reflexivity.
Qed.

(** X10: the column projection of the stocks view never raises: the
    picked labels are labels of the filtered table.  When nothing is
    picked only the subheader appears; otherwise the frame shown has
    exactly the picked columns in the order picked, as many rows as the
    filtered table, and in every row the cells that table has under
    these columns. *)
Theorem X10_column_projection (col_picks : list nat)
  (filtered_stocks : DataFrame) (st : App) :
  let pivot_cols := multiselect (column_names filtered_stocks) col_picks in
  let subheader := Subheader "📊 Pivot Table Builder" in
  (pivot_cols = [] ->
   pivot_table_builder col_picks filtered_stocks st
   = (Ok tt, with_page st (page st ++ [subheader])))
  /\ (pivot_cols <> [] ->
      exists shown,
        pivot_table_builder col_picks filtered_stocks st
        = (Ok tt, with_page st (page st ++ [subheader; ShowFrame shown]))
        /\ column_names shown = pivot_cols
        /\ length (rows shown) = length (rows filtered_stocks)
        /\ forall i c, In c pivot_cols ->
             cell shown c (nth i (rows shown) [])
             = cell filtered_stocks c (nth i (rows filtered_stocks) [])).
Proof.
  intros pivot_cols subheader.
  unfold pivot_table_builder, bind. rewrite emit_run. cbv beta iota.
  fold pivot_cols. split.
  - intros ->. reflexivity.
  - intros Hne.
    destruct (getitem_columns_ok filtered_stocks pivot_cols)
      as (shown & Hg & Hcols & Hrows & Hcell).
    { intros c Hc. apply has_column_In. eapply multiselect_In; eauto. }
    exists shown.
    assert (Ht : truthy pivot_cols = true) by (destruct pivot_cols; auto).
    rewrite Ht. unfold lift. rewrite Hg, emit_run.
    split.
    { unfold with_page. simpl. now rewrite <- app_assoc. }
    split; [exact Hcols|].
    split; [rewrite Hrows; apply length_map|].
    intros i c Hc. rewrite Hrows.
    destruct (Nat.lt_ge_cases i (length (rows filtered_stocks))) as [Hlt|Hge].
    + rewrite (nth_map_lt _ _ []) by exact Hlt. now apply Hcell.
    + rewrite !nth_overflow by (try rewrite length_map; lia).
      unfold cell.
      destruct (find_column c (columns shown) 0) as [[j d]|];
        destruct (find_column c (columns filtered_stocks) 0) as [[j' d']|];
        try reflexivity; try (now destruct j); try (now destruct j').
      now destruct j, j'.
Qed.

Lemma X10_column_projection_witness :
  exists shown,
    pivot_table_builder [3%nat; 0%nat] stocks_scenario (app_with no_news)
    = (Ok tt,
       with_page (app_with no_news)
         [Subheader "📊 Pivot Table Builder"; ShowFrame shown])
    /\ column_names shown = ["price"; "sector"].
Proof.
  destruct (proj2 (X10_column_projection [3%nat; 0%nat] stocks_scenario
                     (app_with no_news)))
    as (shown & Hrun & Hcols & _); [discriminate|].
  exists shown. split; [exact Hrun | exact Hcols].
Defined.

(* ================================================================== *)
(** * Column assignment: what line 86 does to the source table *)

Lemma set_nth_same pos v r : nth pos (set_nth pos v r) VNull = v.
Proof.
  revert r. induction pos as [|p IH]; intros [|x r]; simpl; auto.
Qed.

Lemma set_nth_other pos p' v r :
  p' <> pos -> nth p' (set_nth pos v r) VNull = nth p' r VNull.
Proof.
  revert p' r. induction pos as [|p IH]; intros p' r H;
    destruct r as [|x r], p' as [|q]; simpl; try contradiction; auto;
    try (now destruct q);
    try (rewrite IH by lia; now destruct q);
    try (apply IH; lia).
Qed.

Lemma assign_cells_length pos vs rs :
  length (assign_cells pos vs rs) = length rs.
Proof.
  revert vs. induction rs as [|r rs IH]; intros vs; simpl; auto.
  destruct vs; simpl; now rewrite IH.
Qed.

Lemma assign_cells_same pos vs rs :
  length vs = length rs ->
  map (fun r => nth pos r VNull) (assign_cells pos vs rs) = vs.
Proof.
  revert vs. induction rs as [|r rs IH]; intros [|v vs] H; simpl in *;
    try discriminate; auto.
  rewrite set_nth_same. f_equal. apply IH. lia.
Qed.

Lemma assign_cells_other pos p' vs rs :
  p' <> pos ->
  map (fun r => nth p' r VNull) (assign_cells pos vs rs)
  = map (fun r => nth p' r VNull) rs.
Proof.
  intros H. revert vs. induction rs as [|r rs IH]; intros vs; simpl; auto.
  destruct vs; simpl; rewrite set_nth_other by exact H; now rewrite IH.
Qed.

Lemma set_nth_twice pos v w r :
  set_nth pos v (set_nth pos w r) = set_nth pos v r.
Proof.
  revert r. induction pos as [|p IH]; intros [|x r]; simpl; auto;
    now rewrite IH.
Qed.

Lemma assign_cells_twice pos vs ws rs :
  assign_cells pos vs (assign_cells pos ws rs) = assign_cells pos vs rs.
Proof.
  revert vs ws. induction rs as [|r rs IH]; intros vs ws; simpl; auto.
  destruct ws, vs; simpl; now rewrite set_nth_twice, IH.
Qed.

Lemma find_column_range c hdr pos p d :
  find_column c hdr pos = Some (p, d) ->
  (pos <= p < pos + length hdr)%nat
  /\ nth_error (map fst hdr) (p - pos) = Some c.
Proof.
  revert pos. induction hdr as [|[n0 d0] hdr IH]; simpl; intros pos H.
  - discriminate.
  - destruct (String.eqb c n0) eqn:Hc.
    + injection H as <- <-. apply String.eqb_eq in Hc. subst.
      rewrite Nat.sub_diag. split; [lia | reflexivity].
    + apply IH in H as [Hr Hn]. split; [lia|].
      replace (p - pos)%nat with (S (p - S pos)) by lia. exact Hn.
Qed.

Lemma find_set_header_same c d hdr pos :
  find_column c (set_header c d hdr) pos
  = Some (assigned_position c hdr pos, d).
Proof.
  unfold assigned_position.
  revert pos. induction hdr as [|[n0 d0] hdr IH]; intros pos; simpl.
  - rewrite String.eqb_refl. do 2 f_equal. lia.
  - destruct (String.eqb c n0) eqn:Hc; simpl; rewrite Hc; auto.
    rewrite IH. destruct (find_column c hdr (S pos)) as [[p dp]|]; auto.
    do 2 f_equal. lia.
Qed.

Lemma find_set_header_other c c' d hdr pos :
  c' <> c -> find_column c' (set_header c d hdr) pos = find_column c' hdr pos.
Proof.
  intros Hne. revert pos. induction hdr as [|[n0 d0] hdr IH]; intros pos; simpl.
  - destruct (String.eqb c' c) eqn:Hc; auto.
    apply String.eqb_eq in Hc. contradiction.
  - destruct (String.eqb c n0) eqn:Hc; simpl.
    + apply String.eqb_eq in Hc. subst n0.
      destruct (String.eqb c' c) eqn:Hc'; auto.
      apply String.eqb_eq in Hc'. contradiction.
    + destruct (String.eqb c' n0); auto.
Qed.

Lemma set_header_names c d hdr :
  existsb (String.eqb c) (map fst hdr) = true ->
  map fst (set_header c d hdr) = map fst hdr.
Proof.
  induction hdr as [|[n0 d0] hdr IH]; simpl; [discriminate|].
  destruct (String.eqb c n0) eqn:Hc; simpl; auto.
  intros H. now rewrite IH.
Qed.

Lemma set_header_idem c d hdr :
  set_header c d (set_header c d hdr) = set_header c d hdr.
Proof.
  induction hdr as [|[n0 d0] hdr IH]; simpl.
  - now rewrite String.eqb_refl.
  - destruct (String.eqb c n0) eqn:Hn; simpl; rewrite Hn; auto.
    now rewrite IH.
Qed.

Lemma setitem_position df c s :
  rows (setitem df c s)
  = assign_cells (assigned_position c (columns df) 0) (s_values s) (rows df).
Proof.
  unfold setitem, assigned_position. simpl.
  now destruct (find_column c (columns df) 0) as [[p d]|].
Qed.

(** Reading back the column just assigned. *)
Lemma getitem_setitem_same df c s :
  length (s_values s) = length (rows df) ->
  getitem (setitem df c s) c = Ok s.
Proof.
  intros Hlen. unfold getitem, cell.
  change (columns (setitem df c s)) with (set_header c (s_dtype s) (columns df)).
  rewrite find_set_header_same, setitem_position.
  rewrite assign_cells_same by exact Hlen. now destruct s.
Qed.

(** Reading any other column after the assignment. *)
Lemma getitem_setitem_other df c c' s :
  c' <> c -> getitem (setitem df c s) c' = getitem df c'.
Proof.
  intros Hne. unfold getitem, cell.
  change (columns (setitem df c s)) with (set_header c (s_dtype s) (columns df)).
  rewrite (find_set_header_other _ _ _ Hne), setitem_position.
  destruct (find_column c' (columns df) 0) as [[p' d']|] eqn:Hf; auto.
  rewrite assign_cells_other; auto.
  apply find_column_range in Hf as [Hr Hn]. rewrite Nat.sub_0_r in Hn.
  unfold assigned_position.
  destruct (find_column c (columns df) 0) as [[p d]|] eqn:Hc; [|simpl; lia].
  apply find_column_range in Hc as [_ Hn']. rewrite Nat.sub_0_r in Hn'.
  intros ->. congruence.
Qed.

Lemma numeric_after_set_header c hdr :
  NoDup (map fst hdr) ->
  map fst (filter (fun cd => dtype_eqb (snd cd) DNumber)
                  (set_header c DDatetime hdr))
  = filter (fun n => negb (String.eqb n c))
           (map fst (filter (fun cd => dtype_eqb (snd cd) DNumber) hdr)).
Proof.
  induction hdr as [|[n0 d0] hdr IH]; intros Hnd; simpl; auto.
  inversion Hnd as [|? ? Hnotin Hnd']; subst.
  destruct (String.eqb c n0) eqn:Hc; simpl.
  - apply String.eqb_eq in Hc. subst n0.
    assert (Hrest : forall l, (forall x, In x l -> In x (map fst hdr)) ->
                              filter (fun n => negb (String.eqb n c)) l = l).
    { intros l Hl. apply filter_all. intros x Hx.
      apply negb_true_iff, String.eqb_neq. intros ->. apply Hnotin. auto. }
    destruct (dtype_eqb d0 DNumber); simpl.
    + rewrite String.eqb_refl. simpl. symmetry. apply Hrest.
      intros x Hx. apply in_map_iff in Hx as (cd & <- & Hcd).
      apply filter_In in Hcd as [Hcd _]. now apply in_map.
    + symmetry. apply Hrest.
      intros x Hx. apply in_map_iff in Hx as (cd & <- & Hcd).
      apply filter_In in Hcd as [Hcd _]. now apply in_map.
  - destruct (dtype_eqb d0 DNumber); simpl.
    + rewrite String.eqb_sym, Hc. simpl. f_equal. now apply IH.
    + now apply IH.
Qed.

Section DateCoercion.
Context {E : External}.

Lemma coerce_date_column_present df :
  has_column "date" df = true ->
  exists d,
    column_dtype df "date" = Some d
    /\ getitem df "date"
       = Ok {| s_dtype := d; s_values := map (cell df "date") (rows df) |}
    /\ coerce_date_column df
       = setitem df "date"
           (to_datetime
              {| s_dtype := d; s_values := map (cell df "date") (rows df) |}).
Proof.
  intros Hc. destruct (getitem_present df "date" Hc) as (d & Hd & Hg).
  exists d. split; auto. split; auto. unfold coerce_date_column. now rewrite Hg.
Qed.

Lemma coerce_date_column_absent df :
  has_column "date" df = false -> coerce_date_column df = df.
Proof.
  intros Hc. unfold coerce_date_column. now rewrite (getitem_absent df _ Hc).
Qed.

(** Line 86 as the stock filters run it. *)
Lemma tab2_filters_coerce ss ns dr st f1 f2 :
  isin_stage "sector" ss (df_stocks st) = Ok f1 ->
  isin_stage "stock_name" ns f1 = Ok f2 ->
  df_stocks (snd (tab2_filters ss ns dr st))
  = coerce_date_column (df_stocks st)
  /\ df_news (snd (tab2_filters ss ns dr st)) = df_news st
  /\ page (snd (tab2_filters ss ns dr st)) = page st.
Proof.
  intros H1 H2. rewrite (@tab2_filters_snd _ _ _ dr _ _ _ H1 H2).
  destruct (has_column "date" (df_stocks st)) eqn:Hc.
  - destruct (coerce_date_column_present _ Hc) as (d & -> & _ & ->). auto.
  - now rewrite coerce_date_column_absent.
Qed.

Lemma coerce_datetime_idem v :
  coerce_datetime (coerce_datetime v) = coerce_datetime v.
Proof.
  destruct v; simpl; auto; destruct (to_datetime_scalar _); reflexivity.
Qed.

Lemma coerce_datetime_comparable v : comparable (coerce_datetime v) = true.
Proof.
  destruct v; simpl; auto; destruct (to_datetime_scalar _); reflexivity.
Qed.

Lemma coerced_column df :
  has_column "date" df = true ->
  columns (coerce_date_column df) = set_header "date" DDatetime (columns df)
  /\ length (rows (coerce_date_column df)) = length (rows df)
  /\ getitem (coerce_date_column df) "date"
     = Ok {| s_dtype := DDatetime;
             s_values := map coerce_datetime
                             (map (cell df "date") (rows df)) |}.
Proof.
  intros Hc. destruct (coerce_date_column_present _ Hc) as (d & _ & _ & ->).
  split; [reflexivity|]. split.
  - rewrite setitem_position. apply assign_cells_length.
  - rewrite getitem_setitem_same; [reflexivity|].
    simpl. now rewrite !length_map.
Qed.

Lemma coerce_date_column_idem df :
  coerce_date_column (coerce_date_column df) = coerce_date_column df.
Proof.
  destruct (has_column "date" df) eqn:Hc.
  2:{ rewrite (coerce_date_column_absent df Hc).
      apply (coerce_date_column_absent df Hc). }
  destruct (coerced_column df Hc) as (Hhdr & Hlen & Hget).
  unfold coerce_date_column at 1. rewrite Hget.
  set (df' := coerce_date_column df) in *.
  unfold setitem. simpl.
  assert (Hfind : find_column "date" (columns df') 0
                  = Some (assigned_position "date" (columns df) 0, DDatetime)).
  { rewrite Hhdr. apply find_set_header_same. }
  rewrite Hfind.
  assert (Hh : set_header "date" DDatetime (columns df') = columns df').
  { rewrite Hhdr. apply set_header_idem. }
  rewrite Hh.
  assert (Hrows : assign_cells (assigned_position "date" (columns df) 0)
                    (map coerce_datetime
                       (map coerce_datetime (map (cell df "date") (rows df))))
                    (rows df') = rows df').
  { destruct (coerce_date_column_present _ Hc) as (d & _ & _ & Hdf').
    unfold df'. rewrite Hdf', setitem_position. simpl.
    rewrite assign_cells_twice. f_equal.
    rewrite !map_map. apply map_ext. intros r. apply coerce_datetime_idem. }
  rewrite Hrows. now destruct df'.
Qed.

End DateCoercion.

Lemma app_ext (a b : App) :
  df_news a = df_news b -> df_stocks a = df_stocks b -> page a = page b ->
  a = b.
Proof. destruct a, b; simpl; intros; subst; reflexivity. Qed.

Lemma coerced_has_date {E : External} df :
  has_column "date" df = true ->
  column_names (coerce_date_column df) = column_names df
  /\ has_column "date" (coerce_date_column df) = true
  /\ column_dtype (coerce_date_column df) "date" = Some DDatetime
  /\ forallb comparable
       (map (cell (coerce_date_column df) "date")
            (rows (coerce_date_column df))) = true.
Proof.
  intros Hc. destruct (coerced_column df Hc) as (Hhdr & _ & Hget).
  assert (Hnames : column_names (coerce_date_column df) = column_names df).
  { unfold column_names. rewrite Hhdr. now apply set_header_names. }
  assert (Hc' : has_column "date" (coerce_date_column df) = true).
  { unfold has_column. now rewrite Hnames. }
  split; auto. split; auto.
  destruct (getitem_present _ _ Hc') as (d & Hd & Hg).
  rewrite Hget in Hg. injection Hg as <- Hvals.
  split; auto. rewrite <- Hvals.
  apply forallb_forall. intros v Hv. apply in_map_iff in Hv as (x & <- & _).
  apply coerce_datetime_comparable.
Qed.

(** X11: what the stock filters do to the source table when it has a
    [date] column: it keeps its column labels and its number of rows;
    its [date] column becomes a datetime column holding the coerced
    cells; every other column reads exactly as before.  With pairwise
    different labels the numeric columns afterwards are those before
    without [date], so the Pivot Workspace, which reads the table next,
    never offers [date] as value column of Stocks. *)
Theorem X11_date_coercion_changes_only_date {E : External}
  (ss ns : list value) (dr : date_input_value) (st : App)
  (f1 f2 : DataFrame) :
  isin_stage "sector" ss (df_stocks st) = Ok f1 ->
  isin_stage "stock_name" ns f1 = Ok f2 ->
  has_column "date" (df_stocks st) = true ->
  let df := df_stocks st in
  let df' := df_stocks (snd (tab2_filters ss ns dr st)) in
  column_names df' = column_names df
  /\ length (rows df') = length (rows df)
  /\ getitem df' "date"
     = Ok {| s_dtype := DDatetime;
             s_values := map coerce_datetime
                             (map (cell df "date") (rows df)) |}
  /\ (forall c, c <> "date" -> getitem df' c = getitem df c)
  /\ (NoDup (column_names df) ->
      numeric_column_names df'
      = filter (fun n => negb (String.eqb n "date")) (numeric_column_names df)
      /\ forall ui, values_of ui df' <> Some "date").
Proof.
  intros H1 H2 Hc df df'.
  destruct (tab2_filters_coerce ss ns dr st H1 H2) as (Hdf' & _ & _).
  fold df' in Hdf'. fold df in Hdf'. rewrite Hdf'.
  destruct (coerced_column df Hc) as (Hhdr & Hlen & Hget).
  destruct (coerced_has_date df Hc) as (Hnames & _ & _ & _).
  split; [exact Hnames|]. split; [exact Hlen|]. split; [exact Hget|].
  split.
  - intros c Hne.
    destruct (coerce_date_column_present df Hc) as (d & _ & _ & ->).
    now apply getitem_setitem_other.
  - intros Hnd.
    assert (Hnum : numeric_column_names (coerce_date_column df)
                   = filter (fun n => negb (String.eqb n "date"))
                            (numeric_column_names df)).
    { unfold numeric_column_names. rewrite Hhdr.
      now apply numeric_after_set_header. }
    split; [exact Hnum|].
    intros ui Hv. unfold values_of in Hv. apply selectbox_In in Hv.
    rewrite Hnum in Hv. apply filter_In in Hv as [_ Hv]. discriminate.
Qed.

Lemma X11_date_coercion_changes_only_date_witness :
  numeric_column_names
    (df_stocks (snd (tab2_filters (E := iso_env) [] [] (DateTuple [])
                       (app_with stocks_scenario_text))))
  = ["price"].
Proof.
  destruct (X11_date_coercion_changes_only_date (E := iso_env) [] []
              (DateTuple []) (app_with stocks_scenario_text)
              eq_refl eq_refl eq_refl) as (_ & _ & _ & _ & H).
  destruct H as [Hnum _].
  { repeat constructor; simpl; intuition discriminate. }
  rewrite Hnum. reflexivity.
Defined.

(** X12: coercing the [date] column a second time changes nothing, and
    a table whose [date] column has been coerced is safe for the stock
    filters: once the membership filters pass, they return a table
    whatever the date picker holds (the date comparison cannot raise),
    and they leave the whole state as it was. *)
Theorem X12_coerced_table_is_stable {E : External}
  (ss ns : list value) (dr : date_input_value) (df : DataFrame) (st : App)
  (f1 f2 : DataFrame) :
  df_stocks st = coerce_date_column df ->
  isin_stage "sector" ss (df_stocks st) = Ok f1 ->
  isin_stage "stock_name" ns f1 = Ok f2 ->
  coerce_date_column (coerce_date_column df) = coerce_date_column df
  /\ (exists T, fst (tab2_filters ss ns dr st) = Ok T)
  /\ snd (tab2_filters ss ns dr st) = st.
Proof.
  intros Hst H1 H2.
  split; [apply coerce_date_column_idem|]. split.
  - rewrite tab2_filters_fst. unfold stocks_stages. rewrite H1, H2.
    destruct (has_column "date" (df_stocks st)) eqn:Hc; [|eauto].
    destruct dr as [d|[|d0 [|d1 [|d2 ds]]]]; try (eexists; reflexivity).
    assert (Hcdf : has_column "date" df = true).
    { destruct (has_column "date" df) eqn:Hd; auto.
      rewrite Hst, (coerce_date_column_absent df Hd) in Hc. congruence. }
    destruct (coerced_has_date df Hcdf) as (_ & _ & Hdt & Hcmp).
    rewrite <- Hst in Hdt, Hcmp.
    assert (S : sub_frame f2 (df_stocks st)).
    { eapply sub_frame_trans; eapply isin_stage_sub; eauto. }
    destruct S as [Hhdr Hrows].
    rewrite (range_stage_run d0 d1 f2 (d := DDatetime)); eauto.
    + now rewrite (column_dtype_hdr f2 (df_stocks st) "date" Hhdr).
    + discriminate.
    + apply forallb_forall. intros v Hv.
      apply in_map_iff in Hv as (r & <- & Hr). apply Hrows in Hr.
      rewrite (cell_hdr f2 (df_stocks st) "date" r Hhdr).
      rewrite forallb_forall in Hcmp. apply Hcmp. now apply in_map.
  - destruct (tab2_filters_coerce ss ns dr st H1 H2) as (Hs & Hn & Hp).
    apply app_ext; auto.
    rewrite Hs, Hst. apply coerce_date_column_idem.
Qed.

Lemma X12_coerced_table_is_stable_witness :
  snd (tab2_filters (E := iso_env) [] [] (DateTuple [jan2; jan2])
         (app_with (coerce_date_column (E := iso_env) stocks_scenario_text)))
  = app_with (coerce_date_column (E := iso_env) stocks_scenario_text).
Proof.
  exact (proj2 (proj2 (X12_coerced_table_is_stable (E := iso_env) [] []
                         (DateTuple [jan2; jan2]) stocks_scenario_text
                         (app_with (coerce_date_column (E := iso_env)
                                      stocks_scenario_text))
                         eq_refl eq_refl eq_refl))).
Defined.

(* ================================================================== *)
(** * The range the date picker starts with *)

Lemma timestamps_In t vs : In t (timestamps vs) <-> In (VDate t) vs.
Proof.
  unfold timestamps. rewrite in_flat_map. split.
  - intros (v & Hv & Ht). destruct v; simpl in Ht; try contradiction.
    destruct Ht as [->|[]]. exact Hv.
  - intros H. exists (VDate t). split; auto. now left.
Qed.

Lemma fold_min_spec ts t :
  In (fold_left Z.min ts t) (t :: ts)
  /\ forall x, In x (t :: ts) -> fold_left Z.min ts t <= x.
Proof.
  revert t. induction ts as [|y ts IH]; intros t; simpl.
  - split; auto. intros x [<-|[]]. lia.
  - destruct (IH (Z.min t y)) as [Hin Hlb]. split.
    + destruct Hin as [Hin|Hin]; [|right; now right].
      rewrite <- Hin.
      destruct (Z.min_spec t y) as [[_ ->]|[_ ->]]; auto.
    + pose proof (Hlb (Z.min t y) (or_introl eq_refl)) as Hm.
      intros x [<-|[<-|Hx]]; [lia | lia | apply Hlb; now right].
Qed.

Lemma fold_max_spec ts t :
  In (fold_left Z.max ts t) (t :: ts)
  /\ forall x, In x (t :: ts) -> x <= fold_left Z.max ts t.
Proof.
  revert t. induction ts as [|y ts IH]; intros t; simpl.
  - split; auto. intros x [<-|[]]. lia.
  - destruct (IH (Z.max t y)) as [Hin Hub]. split.
    + destruct Hin as [Hin|Hin]; [|right; now right].
      rewrite <- Hin.
      destruct (Z.max_spec t y) as [[_ ->]|[_ ->]]; auto.
    + pose proof (Hub (Z.max t y) (or_introl eq_refl)) as Hm.
      intros x [<-|[<-|Hx]]; [lia | lia | apply Hub; now right].
Qed.

Lemma ns_per_day_pos : 0 < ns_per_day.
Proof. reflexivity. Qed.

Lemma midnight_below t : timestamp_of_date (date_of_timestamp t) <= t.
Proof.
  unfold timestamp_of_date, date_of_timestamp.
  rewrite Z.mul_comm. apply Z.mul_div_le. exact ns_per_day_pos.
Qed.

Lemma midnight_exact t :
  t mod ns_per_day = 0 -> timestamp_of_date (date_of_timestamp t) = t.
Proof.
  intros H. unfold timestamp_of_date, date_of_timestamp.
  rewrite Z.mul_comm. symmetry. apply Z.div_exact; [|exact H].
  pose proof ns_per_day_pos. lia.
Qed.

Section DefaultRange.
Context {E : External}.

Lemma coerce_comparable v : comparable v = true -> coerce_datetime v = v.
Proof. destruct v; simpl; auto; discriminate. Qed.

(** The bounds the picker starts with, on a column of Timestamps. *)
Lemma default_date_range_bounds df d0 d1 :
  column_dtype df "date" = Some DDatetime ->
  forallb comparable (map (cell df "date") (rows df)) = true ->
  default_date_range df = Some (DateTuple [d0; d1]) ->
  exists lo hi,
    d0 = date_of_timestamp lo /\ d1 = date_of_timestamp hi
    /\ In (VDate hi) (map (cell df "date") (rows df))
    /\ forall t, In (VDate t) (map (cell df "date") (rows df)) ->
                 lo <= t <= hi.
Proof.
  intros Hd Hcmp Hdef.
  assert (Hc : has_column "date" df = true).
  { unfold column_dtype in Hd. unfold has_column.
    destruct (existsb (String.eqb "date") (column_names df)) eqn:Hex; auto.
    unfold column_names in Hex.
    now rewrite (find_column_absent _ _ 0 Hex) in Hd. }
  destruct (coerced_column df Hc) as (_ & _ & Hget).
  unfold default_date_range in Hdef. rewrite Hget in Hdef.
  assert (Hvals : map coerce_datetime (map (cell df "date") (rows df))
                  = map (cell df "date") (rows df)).
  { rewrite <- (map_id (map (cell df "date") (rows df))) at 2.
    apply map_ext_in. intros v Hv. apply coerce_comparable.
    rewrite forallb_forall in Hcmp. now apply Hcmp. }
  unfold series_min, series_max in Hdef. simpl in Hdef. rewrite Hvals in Hdef.
  destruct (timestamps (map (cell df "date") (rows df))) as [|t ts] eqn:Hts;
    [discriminate|].
  injection Hdef as <- <-.
  destruct (fold_min_spec ts t) as [_ Hlb].
  destruct (fold_max_spec ts t) as [Hin Hub].
  exists (fold_left Z.min ts t), (fold_left Z.max ts t).
  split; auto. split; auto. split.
  - apply timestamps_In. now rewrite Hts.
  - intros x Hx. apply timestamps_In in Hx. rewrite Hts in Hx.
    split; [now apply Hlb | now apply Hub].
Qed.

End DefaultRange.

(** X13: the range the date picker starts with is not inert.  On a
    [date] column of Timestamps, filtering with that range and no other
    selection keeps exactly the rows dated no later than midnight of the
    last day: rows without a date are dropped, and so are rows of the
    last day that carry a time of day; when every Timestamp is a
    midnight, exactly the rows that have a date are kept. *)
Theorem X13_default_date_range_filter {E : External} (st : App) (d0 d1 : Z) :
  let df := df_stocks st in
  column_dtype df "date" = Some DDatetime ->
  forallb comparable (map (cell df "date") (rows df)) = true ->
  default_date_range df = Some (DateTuple [d0; d1]) ->
  fst (tab2_filters [] [] (DateTuple [d0; d1]) st)
  = Ok (keep (fun r => cmp_date Z.leb (timestamp_of_date d1)
                         (cell df "date" r)) df)
  /\ ((forall r t, In r (rows df) -> cell df "date" r = VDate t ->
                   t mod ns_per_day = 0) ->
      fst (tab2_filters [] [] (DateTuple [d0; d1]) st)
      = Ok (keep (fun r => notnull (cell df "date" r)) df)).
Proof.
  intros df Hd Hcmp Hdef.
  destruct (@default_date_range_bounds _ df d0 d1 Hd Hcmp Hdef)
    as (lo & hi & -> & -> & Hhi & Hb).
  assert (Hrun : fst (tab2_filters [] [] (DateTuple [date_of_timestamp lo;
                                                    date_of_timestamp hi]) st)
                 = Ok (keep (fun r => cmp_date Z.leb
                                        (timestamp_of_date
                                           (date_of_timestamp hi))
                                        (cell df "date" r)) df)).
  { rewrite (@date_filter_on_timestamps _ [] [] _ _ st df df
               eq_refl eq_refl Hd Hcmp).
    fold df. f_equal. unfold keep. f_equal.
    apply filter_ext_in. intros r Hr. unfold in_range.
    destruct (cell df "date" r) as [|q|s|t] eqn:Hcell; simpl; auto.
    assert (Ht : lo <= t <= hi).
    { apply Hb. rewrite <- Hcell. now apply in_map. }
    pose proof (midnight_below lo).
    replace (t >=? timestamp_of_date (date_of_timestamp lo)) with true; auto.
    symmetry. apply Z.geb_le. lia. }
  split; [exact Hrun|].
  intros Hmid. rewrite Hrun. f_equal. unfold keep. f_equal.
  apply filter_ext_in. intros r Hr.
  assert (Hok : comparable (cell df "date" r) = true).
  { rewrite forallb_forall in Hcmp. apply Hcmp. now apply in_map. }
  destruct (cell df "date" r) as [|q|s|t] eqn:Hcell; simpl; auto;
    try discriminate.
  - assert (Ht : lo <= t <= hi).
    { apply Hb. rewrite <- Hcell. now apply in_map. }
    apply in_map_iff in Hhi as (rh & Hrh & Hinh).
    rewrite (midnight_exact hi (Hmid rh hi Hinh Hrh)).
    apply Z.leb_le. lia.
Qed.

Lemma X13_default_date_range_filter_witness :
  fst (tab2_filters (E := iso_env) [] []
         (DateTuple [date_of_ymd 2024 1 1; date_of_ymd 2024 1 2])
         (app_with stocks_scenario))
  = Ok (keep (fun r => notnull (cell stocks_scenario "date" r))
          stocks_scenario).
Proof.
  apply (proj2 (@X13_default_date_range_filter iso_env
                  (app_with stocks_scenario)
                  (date_of_ymd 2024 1 1) (date_of_ymd 2024 1 2)
                  eq_refl eq_refl eq_refl)).
  intros r t [<-|[<-|[]]] [= <-]; reflexivity.
Defined.

(* ================================================================== *)
(** * A failed load *)

(** X14: the loader never raises.  When both files fail to load, each
    failure is reported as "Failed to load <path>: <error>" and both
    tables are the empty frame; every view then degrades without
    raising, whatever the widgets hold: the filter blocks of the news
    and stocks views return the empty frame and leave the state alone,
    and the Pivot Workspace shows its header and the empty-dataset
    warning and attempts no pivot. *)
Theorem X14_failed_load_degrades {E : External}
  (read_excel : string -> read_outcome) (np_file stocks_file m1 m2 : string)
  (st : App) (ui : PivotUI) (category_picks sector_picks name_picks : list nat)
  (dr : date_input_value) :
  read_excel np_file = ReadFailed m1 ->
  read_excel stocks_file = ReadFailed m2 ->
  let st1 :=
    {| df_news := empty_frame; df_stocks := empty_frame;
       page := page st
               ++ [ErrorMsg ("Failed to load " ++ np_file ++ ": " ++ m1);
                   ErrorMsg ("Failed to load " ++ stocks_file ++ ": " ++ m2)]
    |} in
  load_tables read_excel np_file stocks_file st = (Ok tt, st1)
  /\ tab1_filter_block category_picks sector_picks st1 = (Ok empty_frame, st1)
  /\ tab2_filter_block sector_picks name_picks dr st1 = (Ok empty_frame, st1)
  /\ tab3 ui st1
     = (Ok tt,
        with_page st1
          (page st1 ++ [Header "📊 Pivot Table Workspace";
                        Warning "Selected dataset is empty."])).
Proof.
  intros H1 H2 st1. split; [|split; [|split]].
  - unfold load_tables, load_data, bind. rewrite H1, H2.
    unfold emit, ret. simpl. unfold st1. now rewrite <- app_assoc.
  - rewrite tab1_filter_block_run. simpl. now rewrite !multiselect_nil.
  - reflexivity.
  - unfold tab3, bind, emit, source_of. simpl.
    destruct (dataset_choice ui); simpl; unfold with_page; simpl;
      now rewrite <- app_assoc.
Qed.

Lemma X14_failed_load_degrades_witness :
  fst (load_tables (fun _ => ReadFailed "No such file") "news.xlsx"
         "stocks.xlsx" (app_with stocks_scenario))
  = Ok tt.
Proof.
  exact (f_equal fst
    (proj1 (@X14_failed_load_degrades iso_env
              (fun _ => ReadFailed "No such file") "news.xlsx" "stocks.xlsx"
              "No such file" "No such file" (app_with stocks_scenario)
              scenario_ui [] [] [] (DateTuple []) eq_refl eq_refl))).
Defined.

(* ================================================================== *)
(** * A selection always matches a row *)

(** X15: whatever is selected in a membership widget occurs in the
    table: each selected value is the cell of some row, and a selection
    that is not empty leaves at least one row after its own filter (the
    other filters may still remove it). *)
Theorem X15_selection_matches_a_row (df : DataFrame) (c : string)
  (opts : list value) (picks : list nat) :
  filter_options df c = Ok opts ->
  let selected := multiselect opts picks in
  (forall v, In v selected ->
     exists r, In r (rows df) /\ notnull (cell df c r) = true
               /\ value_eqb (cell df c r) v = true)
  /\ (selected <> [] -> rows (keep (row_isin df c selected) df) <> []).
Proof.
  intros Hopts selected.
  assert (Hsel : forall v, In v selected ->
            exists r, In r (rows df) /\ notnull (cell df c r) = true
                      /\ value_eqb (cell df c r) v = true).
  { intros v Hv. apply multiselect_In in Hv.
    rewrite filter_options_unfold in Hopts.
    destruct (has_column c df); [|injection Hopts as <-; contradiction].
    apply py_sorted_ok in Hopts. subst opts.
    apply (Permutation_in _ (sort_perm value_leb _)) in Hv.
    apply unique_dropna_In in Hv as (Hnn & r & Hr & <-).
    exists r. split; auto. split; auto. apply value_eqb_refl. }
  split; [exact Hsel|].
  intros Hne. destruct selected as [|v vs] eqn:Hs; [contradiction|].
  destruct (Hsel v (or_introl eq_refl)) as (r & Hr & _ & Hrv).
  assert (Hin : In r (rows (keep (row_isin df c (v :: vs)) df))).
  { simpl. apply filter_In. split; auto.
    unfold row_isin. simpl. now rewrite Hrv. }
  intros Hnil. rewrite Hnil in Hin. contradiction.
Qed.

Lemma X15_selection_matches_a_row_witness :
  rows (keep (row_isin news_example "category"
                (multiselect [VStr "Earnings"; VStr "Macro"] [1%nat]))
          news_example) <> [].
Proof.
  apply (proj2 (@X15_selection_matches_a_row news_example "category"
                  [VStr "Earnings"; VStr "Macro"] [1%nat] eq_refl)).
  discriminate.
Defined.
